(** * Fuel OPR contribution rows: a shallow embedding of [buildRows]

    This development embeds the row composer of the match-validation page
    ([loadFuelOprData] / [buildRows] in src/core/db/dataUtils.ts, lines
    1379-1739) and proves properties of the rows it returns.

    Modelling conventions.
    - A JavaScript [number] that the code computes is a [num]: an exact
      rational, or one of the three non-finite values [PInf], [NInf], [NaN].
      Arithmetic on finite values is exact; rounding and overflow of IEEE
      doubles and the sign of zero are outside the model.  The non-finite
      values follow the IEEE rules, so a division by zero is visible as
      [PInf], [NInf] or [NaN] and propagates as it does in JavaScript.
      What is proved over this model are identities between the fields of
      a row and the values they are computed from, operation for
      operation.
    - What a claim says about ranges, finiteness or the order of the
      doubles themselves is settled on a second copy of the composer,
      [Dbl], over binary64 floats, in which sums overflow, results are
      rounded and an input number can be [NaN] or an infinity.
    - Numbers found in the inputs (scouted entries, score breakdowns, OPR
      rows) are finite rationals; counters that the code only increments
      by one are natural numbers; team numbers are integers.
    - An [unknown] value is a [jsval]; a [Map] and a [Set] are kept in
      insertion order, as JavaScript iterates them.
    - [Array.prototype.sort] is the stable insertion sort driven by the
      comparator of the source.
    - The OPR solver ([calculateFuelOPRHybrid]) is not part of the embedded
      file: its result [oprRows] is an input of [buildRows], as in the
      source.

    A further part embeds the database functions of the same file (merge,
    conflict detection, import, query, statistics, corrections, pit
    scouting), the scout book-keeping of the prediction game and the
    quoting of the CSV export, over a model of the Dexie tables, and proves
    properties of them after those of the rows. *)

From Stdlib Require Import QArith Qcanon ZArith List String Ascii Bool Lia Lqa
  Permutation Sorted.
From Stdlib Require Floats Uint63.
Import ListNotations.

Set Implicit Arguments.

(** ** JavaScript numbers *)

Module Num.

Local Open Scope Qc_scope.

Inductive num : Type :=
| Fin (q : Qc)
| PInf
| NInf
| NaN.

Definition ofQ (q : Q) : num := Fin (Q2Qc q).
Definition ofZ (z : Z) : num := Fin (Q2Qc (inject_Z z)).
Definition ofNat (n : nat) : num := ofZ (Z.of_nat n).

Definition zero : num := Fin 0.
Definition one : num := Fin 1.

(** [Number.isFinite] *)
Definition isFinite (a : num) : bool :=
  match a with Fin _ => true | _ => false end.

Definition neg (a : num) : num :=
  match a with
  | Fin x => Fin (- x)
  | PInf => NInf
  | NInf => PInf
  | NaN => NaN
  end.

Definition add (a b : num) : num :=
  match a, b with
  | NaN, _ | _, NaN => NaN
  | Fin x, Fin y => Fin (x + y)
  | PInf, NInf | NInf, PInf => NaN
  | PInf, _ | _, PInf => PInf
  | NInf, _ | _, NInf => NInf
  end.

Definition sub (a b : num) : num := add a (neg b).

(** The product of an infinity and a finite value takes the sign of the
    finite value; it is [NaN] when that value is zero. *)
Definition scaleInf (pos : bool) (y : Qc) : num :=
  match y ?= 0 with
  | Eq => NaN
  | Gt => if pos then PInf else NInf
  | Lt => if pos then NInf else PInf
  end.

Definition mul (a b : num) : num :=
  match a, b with
  | NaN, _ | _, NaN => NaN
  | Fin x, Fin y => Fin (x * y)
  | PInf, Fin y | Fin y, PInf => scaleInf true y
  | NInf, Fin y | Fin y, NInf => scaleInf false y
  | PInf, PInf | NInf, NInf => PInf
  | PInf, NInf | NInf, PInf => NInf
  end.

(** Zero is taken as [+0]: a finite non-zero value divided by zero is the
    infinity of its sign, [0 / 0] is [NaN]. *)
Definition div (a b : num) : num :=
  match a, b with
  | NaN, _ | _, NaN => NaN
  | Fin x, Fin y =>
      match y ?= 0 with
      | Eq => match x ?= 0 with Eq => NaN | Gt => PInf | Lt => NInf end
      | _ => Fin (x / y)
      end
  | Fin _, (PInf | NInf) => Fin 0
  | (PInf | NInf), (PInf | NInf) => NaN
  | PInf, Fin y => match y ?= 0 with Lt => NInf | _ => PInf end
  | NInf, Fin y => match y ?= 0 with Lt => PInf | _ => NInf end
  end.

(** [Math.abs] *)
Definition abs (a : num) : num :=
  match a with
  | Fin x => Fin (if Qclt_le_dec x 0 then - x else x)
  | PInf | NInf => PInf
  | NaN => NaN
  end.

(** [a > b]; every comparison with [NaN] is [false]. *)
Definition gt (a b : num) : bool :=
  match a, b with
  | NaN, _ | _, NaN => false
  | Fin x, Fin y => match x ?= y with Gt => true | _ => false end
  | PInf, PInf => false
  | PInf, _ => true
  | _, PInf => false
  | NInf, _ => false
  | Fin _, NInf => true
  end.

Definition lt (a b : num) : bool := gt b a.

(** [Math.max] and [Math.min] of two arguments: [NaN] when an argument is. *)
Definition max (a b : num) : num :=
  match a, b with
  | NaN, _ | _, NaN => NaN
  | _, _ => if gt b a then b else a
  end.

Definition min (a b : num) : num :=
  match a, b with
  | NaN, _ | _, NaN => NaN
  | _, _ => if gt a b then b else a
  end.

(** [Math.max(a, b, c)] *)
Definition max3 (a b c : num) : num := max (max a b) c.

(** ToBoolean on a number: [0] and [NaN] are falsy. *)
Definition truthy (a : num) : bool :=
  match a with
  | Fin x => if Qc_eq_dec x 0 then false else true
  | PInf | NInf => true
  | NaN => false
  end.

(** [a || b] on numbers. *)
Definition or (a b : num) : num := if truthy a then a else b.

(** Decidable equality, for evaluation on concrete inputs. *)
Definition eqb (a b : num) : bool :=
  match a, b with
  | Fin x, Fin y => Qeq_bool x y
  | PInf, PInf | NInf, NInf | NaN, NaN => true
  | _, _ => false
  end.

Definition fin (a : num) : Prop := isFinite a = true.

(** A finite value between 0 and 1. *)
Definition inUnit (a : num) : Prop :=
  exists q : Qc, a = Fin q /\ 0 <= q /\ q <= 1.

End Num.

Import Num.

Declare Scope num_scope.
Delimit Scope num_scope with num.
Bind Scope num_scope with num.
Infix "+" := Num.add : num_scope.
Infix "-" := Num.sub : num_scope.
Infix "*" := Num.mul : num_scope.
Infix "/" := Num.div : num_scope.

(** ** Strings: [String.prototype.replace] and [Number.parseInt] *)

Module Str.

Fixpoint drop (n : nat) (s : string) : string :=
  match n, s with
  | O, _ => s
  | S n', String _ s' => drop n' s'
  | S _, EmptyString => EmptyString
  end.

(** [s.replace(pat, '')] with a string pattern: the first occurrence of
    [pat] is removed, the rest of [s] is kept. *)
Fixpoint removeFirst (pat s : string) : string :=
  if String.prefix pat s then drop (String.length pat) s
  else match s with
       | EmptyString => EmptyString
       | String c s' => String c (removeFirst pat s')
       end.

Definition isWhiteSpace (c : ascii) : bool :=
  let n := nat_of_ascii c in
  Nat.eqb n 32 || (Nat.leb 9 n && Nat.leb n 13).

Fixpoint trimStart (s : string) : string :=
  match s with
  | EmptyString => EmptyString
  | String c s' => if isWhiteSpace c then trimStart s' else s
  end.

Definition digit (c : ascii) : option Z :=
  let n := Z.of_nat (nat_of_ascii c) in
  if (48 <=? n)%Z && (n <=? 57)%Z then Some (n - 48)%Z else None.

(** The value of the longest prefix of decimal digits; [None] when the
    prefix is empty. *)
Fixpoint digits (acc : option Z) (s : string) : option Z :=
  match s with
  | EmptyString => acc
  | String c s' =>
      match digit c with
      | Some d =>
          digits (Some (10 * match acc with Some a => a | None => 0 end + d)%Z) s'
      | None => acc
      end
  end.

(** [Number.parseInt(s, 10)]: leading white space is skipped (the ASCII
    white space characters, a string being a sequence of 8-bit characters),
    an optional sign is read, then the longest prefix of decimal digits;
    [None] stands for the result [NaN]. *)
Definition parseInt10 (s : string) : option Z :=
  match trimStart s with
  | String "-"%char s' => option_map Z.opp (digits None s')
  | String "+"%char s' => digits None s'
  | s' => digits None s'
  end.

End Str.

(** ** JavaScript values *)

#[local] Set Warnings "-register-all".

Inductive jsval : Type :=
| JUndefined
| JNull
| JBool (b : bool)
| JNum (q : Qc)
| JStr (s : string)
| JArr (items : list jsval)
| JObj (fields : list (string * jsval)).

Module JS.

Fixpoint lookup (k : string) (fs : list (string * jsval)) : jsval :=
  match fs with
  | [] => JUndefined
  | (k', v) :: fs' => if String.eqb k k' then v else lookup k fs'
  end.

(** [o?.k]: [undefined] when [o] is not an object or has no property [k]. *)
Definition get (o : jsval) (k : string) : jsval :=
  match o with
  | JObj fs => lookup k fs
  | _ => JUndefined
  end.

(** [a ?? b] *)
Definition nullish (a b : jsval) : jsval :=
  match a with
  | JUndefined | JNull => b
  | _ => a
  end.

(** [typeof v === 'number'] *)
Definition isNumber (v : jsval) : bool :=
  match v with JNum _ => true | _ => false end.

(** [typeof v === 'number' ? v : undefined] *)
Definition numberOrUndefined (v : jsval) : option Qc :=
  match v with JNum q => Some q | _ => None end.

(** [!v] is false: ToBoolean. *)
Definition truthy (v : jsval) : bool :=
  match v with
  | JUndefined | JNull => false
  | JBool b => b
  | JNum q => if Qc_eq_dec q 0 then false else true
  | JStr s => negb (String.eqb s "")
  | JArr _ | JObj _ => true
  end.

(** [typeof v === 'object'] *)
Definition isObjectType (v : jsval) : bool :=
  match v with
  | JNull | JArr _ | JObj _ => true
  | _ => false
  end.

(** [v === s] for a string literal [s] *)
Definition isString (v : jsval) (s : string) : bool :=
  match v with JStr s' => String.eqb s' s | _ => false end.

End JS.

(** [a ?? b] where [a] is a value or null/undefined of a known type. *)
Definition orElse {A : Type} (a : option A) (b : A) : A :=
  match a with Some x => x | None => b end.

Definition orElseOpt {A : Type} (a b : option A) : option A :=
  match a with Some _ => a | None => b end.

Infix "??" := orElse (at level 45, left associativity).
Infix "?|" := orElseOpt (at level 46, right associativity).

(** ** Insertion-ordered maps and sets keyed by team number *)

Module OMap.

Section Ops.
Variable V : Type.

Definition t := list (Z * V).

Definition empty : t := [].

Fixpoint get (k : Z) (m : t) : option V :=
  match m with
  | [] => None
  | (k', v) :: m' => if Z.eqb k k' then Some v else get k m'
  end.

(** [m.set(k, v)]: an existing key keeps its position. *)
Fixpoint set (k : Z) (v : V) (m : t) : t :=
  match m with
  | [] => [(k, v)]
  | (k', v') :: m' =>
      if Z.eqb k k' then (k, v) :: m' else (k', v') :: set k v m'
  end.

Definition keys (m : t) : list Z := map fst m.

End Ops.

End OMap.

Module OSet.

Definition t := list Z.

Definition mem (k : Z) (s : t) : bool := existsb (Z.eqb k) s.

Definition add (s : t) (k : Z) : t := if mem k s then s else s ++ [k].

(** [new Set(l)] *)
Definition ofList (l : list Z) : t := fold_left add l [].

End OSet.

(** ** Data model *)

Inductive Alliance : Type := red | blue.

Definition allianceName (a : Alliance) : string :=
  match a with red => "red" | blue => "blue" end.

(** A cached match: the fields of the match object that the composer reads. *)
Module TBAMatch.
Record t : Type := mk {
  comp_level : string;
  red_team_keys : list string;
  blue_team_keys : list string;
  score_breakdown : jsval
}.

(** [match.alliances[alliance].team_keys] *)
Definition team_keys (m : t) (a : Alliance) : list string :=
  match a with red => red_team_keys m | blue => blue_team_keys m end.
End TBAMatch.

(** A scouted entry: one team in one match. *)
Module Entry.
Record t : Type := mk {
  teamNumber : Z;
  gameData : jsval
}.
End Entry.

(** An element of [opr.teams], the result of the OPR solver. *)
Module Opr.
Record t : Type := mk {
  teamNumber : Z;
  autoFuelOPR : Qc;
  teleopFuelOPR : Qc;
  totalFuelOPR : Qc;
  matchesPlayed : nat
}.
End Opr.

(** [FuelOPRDisplayRow] *)
Record Row : Type := mkRowRecord {
  teamNumber : Z;
  matchesPlayed : nat;
  autoFuelOPR : num;
  teleopFuelOPR : num;
  totalFuelOPR : num;
  scaledAutoAvg : num;
  scaledTeleopAvg : num;
  scaledTotalAvg : num;
  confidenceScore : num;
  confidencePenalty : num;
  sosPenalty : num;
  hybridScorerIndex : num;
  assistImpact : num;
  defenseImpact : num;
  totalContributionIndex : num
}.

(** The per-team aggregates kept in [scaledByTeam], [passingByTeam],
    [sosByTeam] and [defenseByTeam]. *)
Record ScaledAgg : Type := mkScaled {
  matches : nat;
  autoSum : num;
  teleopSum : num;
  fuelDataMatches : nat
}.

Record PassingAgg : Type := mkPassing {
  passSum : num;
  passDataMatches : nat
}.

Record SosAgg : Type := mkSos {
  sum : num;
  count : nat
}.

Record DefenseAgg : Type := mkDefense {
  suppressionSum : num;
  samples : nat
}.

Record Aggregates : Type := mkAgg {
  scaledByTeam : OMap.t ScaledAgg;
  passingByTeam : OMap.t PassingAgg;
  sosByTeam : OMap.t SosAgg
}.

Record FuelCounts : Type := mkFuel {
  fuelAuto : Qc;
  fuelTeleop : Qc
}.

Record PassingValue : Type := mkPassingValue {
  value : num;
  hasData : bool
}.

Definition filterSome {A : Type} (l : list (option A)) : list A :=
  flat_map (fun o => match o with Some x => [x] | None => [] end) l.

(** ** The program *)

Section Composer.

(** [Number(s)] on a string, a built-in of the language. *)
Variable Number_str : string -> num.

Local Open Scope num_scope.

(** A decimal literal of the source, as the rational it denotes. *)
Definition c (q : Q) : num := ofQ q.

(** [parseFuelCounts] (lines 1379-1396) *)
Definition parseFuelCounts (gameData : jsval) : FuelCounts :=
  let auto := JS.get gameData "auto" in
  let teleop := JS.get gameData "teleop" in
  let autoFuel :=
    (JS.numberOrUndefined (JS.get auto "fuelScoredCount") ?|
     JS.numberOrUndefined (JS.get auto "fuelScored") ?|
     JS.numberOrUndefined (JS.get gameData "autoFuelScored")) ?? 0%Qc in
  let teleopFuel :=
    (JS.numberOrUndefined (JS.get teleop "fuelScoredCount") ?|
     JS.numberOrUndefined (JS.get teleop "fuelScored") ?|
     JS.numberOrUndefined (JS.get gameData "teleopFuelScored")) ?? 0%Qc in
  mkFuel autoFuel teleopFuel.

(** [toFiniteNumber] (lines 1451-1462); [None] is [null]. *)
Definition toFiniteNumber (value : jsval) : option Qc :=
  match value with
  | JNum q => Some q
  | JStr s =>
      match Number_str s with
      | Fin parsed => Some parsed
      | _ => None
      end
  | _ => None
  end.

(** [toFiniteNumber] applied to a value of type [number | null] that the
    code computed itself. *)
Definition toFiniteNumberN (value : option num) : option Qc :=
  match value with
  | Some (Fin q) => Some q
  | _ => None
  end.

(** [extractSosValue] (lines 1464-1480) *)
Definition extractSosValue (gameData : jsval) : option Qc :=
  let direct :=
    toFiniteNumber
      (JS.nullish (JS.get gameData "strengthOfSchedule") (JS.get gameData "sos")) in
  match direct with
  | Some d => Some d
  | None =>
      let statbotics := JS.get gameData "statbotics" in
      if negb (JS.truthy statbotics) then None
      else
        toFiniteNumber
          (JS.nullish (JS.get statbotics "strengthOfSchedule")
             (JS.nullish (JS.get statbotics "sos")
                (JS.get statbotics "scheduleStrength")))
  end.

(** One turn of the loop of [sumActionPassAmounts]; the state is
    [(sum, hasPass)]. *)
Definition passActionStep (st : num * bool) (action : jsval) : num * bool :=
  if negb (JS.truthy action) || negb (JS.isObjectType action) then st
  else
    let type := JS.get action "type" in
    if negb (JS.isString type "pass") && negb (JS.isString type "pass_alliance")
    then st
    else
      let amount :=
        toFiniteNumber
          (JS.nullish (JS.get action "amount")
             (JS.nullish (JS.get action "count") (JS.get action "value"))) in
      (fst st + Fin (amount ?? 1%Qc), true).

(** [sumActionPassAmounts] (lines 1482-1507) *)
Definition sumActionPassAmounts (actions : jsval) : option num :=
  match actions with
  | JArr items =>
      let '(sum, hasPass) := fold_left passActionStep items (zero, false) in
      if hasPass then Some sum else None
  | _ => None
  end.

(** The probed alias fields of [extractPassingValue], in source order. *)
Definition passingFields (gameData : jsval) : list jsval :=
  let auto := JS.get gameData "auto" in
  let teleop := JS.get gameData "teleop" in
  [ JS.get auto "fuelPassedCount";
    JS.get teleop "fuelPassedCount";
    JS.get gameData "autoFuelPassed";
    JS.get gameData "teleopFuelPassed";
    JS.get gameData "autoFuelPassedCount";
    JS.get gameData "teleopFuelPassedCount";
    JS.get gameData "totalFuelPassed";
    JS.get gameData "fuelPassed";
    JS.get gameData "auto_fuel_neutral_alliance_pass";
    JS.get gameData "tele_fuel_neutral_alliance_pass";
    JS.get gameData "tele_fuel_opponent_alliance_pass";
    JS.get gameData "tele_fuel_opponent_neutral_pass";
    JS.get gameData "autoFuelNeutralAlliancePass";
    JS.get gameData "teleFuelNeutralAlliancePass";
    JS.get gameData "teleFuelOpponentAlliancePass";
    JS.get gameData "teleFuelOpponentNeutralPass";
    JS.get auto "fuelNeutralAlliancePass";
    JS.get auto "fuelOpponentAlliancePass";
    JS.get teleop "fuelNeutralAlliancePass";
    JS.get teleop "fuelOpponentAlliancePass";
    JS.get teleop "fuelOpponentNeutralPass" ].

Definition passingActionDerived (gameData : jsval) : list (option num) :=
  let auto := JS.get gameData "auto" in
  let teleop := JS.get gameData "teleop" in
  [ sumActionPassAmounts (JS.get gameData "autoActions");
    sumActionPassAmounts (JS.get gameData "teleopActions");
    sumActionPassAmounts (JS.get auto "actions");
    sumActionPassAmounts (JS.get teleop "actions") ].

(** [[...fields, ...actionDerived].map(toFiniteNumber)], before the filter. *)
Definition passingProbes (gameData : jsval) : list (option Qc) :=
  map toFiniteNumber (passingFields gameData)
  ++ map toFiniteNumberN (passingActionDerived gameData).

(** [extractPassingValue] (lines 1509-1554) *)
Definition extractPassingValue (gameData : jsval) : PassingValue :=
  let numericValues := filterSome (passingProbes gameData) in
  if Nat.eqb (List.length numericValues) 0 then mkPassingValue zero false
  else
    let value := fold_left (fun sum v => sum + Fin v) numericValues zero in
    mkPassingValue value true.

(** [hasFuelData] of the entry loop (lines 1567-1578) *)
Definition hasFuelData (gameData : jsval) : bool :=
  let auto := JS.get gameData "auto" in
  let teleop := JS.get gameData "teleop" in
  let scaledMetrics := JS.get gameData "scaledMetrics" in
  let hasScaledAuto := JS.isNumber (JS.get scaledMetrics "scaledAutoFuel") in
  let hasScaledTeleop := JS.isNumber (JS.get scaledMetrics "scaledTeleopFuel") in
  let hasRawAuto :=
    JS.isNumber (JS.get auto "fuelScoredCount")
    || JS.isNumber (JS.get auto "fuelScored")
    || JS.isNumber (JS.get gameData "autoFuelScored") in
  let hasRawTeleop :=
    JS.isNumber (JS.get teleop "fuelScoredCount")
    || JS.isNumber (JS.get teleop "fuelScored")
    || JS.isNumber (JS.get gameData "teleopFuelScored") in
  hasScaledAuto || hasScaledTeleop || hasRawAuto || hasRawTeleop.

(** [scaledAuto] and [scaledTeleop] of the entry loop (lines 1580-1585) *)
Definition scaledFuel (gameData : jsval) : FuelCounts :=
  let scaledMetrics := JS.get gameData "scaledMetrics" in
  let rawFuel := parseFuelCounts gameData in
  let hasScaledAuto := JS.isNumber (JS.get scaledMetrics "scaledAutoFuel") in
  let hasScaledTeleop := JS.isNumber (JS.get scaledMetrics "scaledTeleopFuel") in
  let scaledAuto :=
    if hasScaledAuto
    then JS.numberOrUndefined (JS.get scaledMetrics "scaledAutoFuel")
         ?? fuelAuto rawFuel
    else fuelAuto rawFuel in
  let scaledTeleop :=
    if hasScaledTeleop
    then JS.numberOrUndefined (JS.get scaledMetrics "scaledTeleopFuel")
         ?? fuelTeleop rawFuel
    else fuelTeleop rawFuel in
  mkFuel scaledAuto scaledTeleop.

Definition emptyAggregates : Aggregates :=
  mkAgg (OMap.empty _) (OMap.empty _) (OMap.empty _).

(** The body of [for (const entry of entries)] (lines 1556-1611) *)
Definition aggregateEntry (st : Aggregates) (entry : Entry.t) : Aggregates :=
  let team := Entry.teamNumber entry in
  let gameData := JS.nullish (Entry.gameData entry) (JObj []) in
  let hasFuel := hasFuelData gameData in
  let scaled := scaledFuel gameData in
  let current := OMap.get team (scaledByTeam st) ?? mkScaled 0 zero zero 0 in
  let current :=
    if hasFuel
    then mkScaled (matches current + 1)
           (autoSum current + Fin (fuelAuto scaled))
           (teleopSum current + Fin (fuelTeleop scaled))
           (fuelDataMatches current + 1)
    else mkScaled (matches current + 1) (autoSum current) (teleopSum current)
           (fuelDataMatches current) in
  let scaledByTeam' := OMap.set team current (scaledByTeam st) in
  let passing := extractPassingValue gameData in
  let passCurrent := OMap.get team (passingByTeam st) ?? mkPassing zero 0 in
  let passCurrent :=
    if hasData passing
    then mkPassing (passSum passCurrent + value passing)
           (passDataMatches passCurrent + 1)
    else passCurrent in
  let passingByTeam' := OMap.set team passCurrent (passingByTeam st) in
  let sosValue := extractSosValue gameData in
  let sosByTeam' :=
    match sosValue with
    | Some v =>
        let sosCurrent := OMap.get team (sosByTeam st) ?? mkSos zero 0 in
        OMap.set team (mkSos (sum sosCurrent + Fin v) (count sosCurrent + 1))
          (sosByTeam st)
    | None => sosByTeam st
    end in
  mkAgg scaledByTeam' passingByTeam' sosByTeam'.

Definition aggregateEntries (entries : list Entry.t) : Aggregates :=
  fold_left aggregateEntry entries emptyAggregates.

(** [new Map(oprRows.map(team => [team.teamNumber, team]))] *)
Definition oprByTeamOf (oprRows : list Opr.t) : OMap.t Opr.t :=
  fold_left (fun m team => OMap.set (Opr.teamNumber team) team m) oprRows
    (OMap.empty _).

(** [eligibleMatches] (line 1617) *)
Definition eligibleMatchesOf (fuelOprIncludePlayoffs : bool)
    (cachedMatches : list TBAMatch.t) : list TBAMatch.t :=
  filter
    (fun m => fuelOprIncludePlayoffs || String.eqb (TBAMatch.comp_level m) "qm")
    cachedMatches.

(** [getObservedTotal] (lines 1619-1625) *)
Definition getObservedTotal (m : TBAMatch.t) (alliance : Alliance) : Qc :=
  let scoreBreakdown := TBAMatch.score_breakdown m in
  toFiniteNumber
    (JS.get (JS.get (JS.get scoreBreakdown (allianceName alliance)) "hubScore")
       "totalCount")
  ?? 0%Qc.

(** [getAllianceTeams] (lines 1627-1631): keys whose number is [NaN] are
    filtered out. *)
Definition getAllianceTeams (m : TBAMatch.t) (alliance : Alliance) : list Z :=
  filterSome
    (map (fun key => Str.parseInt10 (Str.removeFirst "frc" key))
       (TBAMatch.team_keys m alliance)).

Definition opponentOf (alliance : Alliance) : Alliance :=
  match alliance with red => blue | blue => red end.

Section BuildRows.

Variable agg : Aggregates.
Variable cachedMatches : list TBAMatch.t.
Variable fuelOprIncludePlayoffs : bool.
Variable oprRows : list Opr.t.

Definition oprByTeam : OMap.t Opr.t := oprByTeamOf oprRows.

Definition eligibleMatches : list TBAMatch.t :=
  eligibleMatchesOf fuelOprIncludePlayoffs cachedMatches.

(** [expectedOpponentFuel] (lines 1640-1642) *)
Definition expectedFuel (opponentTeams : list Z) : num :=
  fold_left
    (fun sum teamNumber =>
       sum + (option_map (fun o => Fin (Opr.totalFuelOPR o))
                (OMap.get teamNumber oprByTeam) ?? zero))
    opponentTeams zero.

(** [perTeamSuppression] for one alliance of one match (lines 1635-1645) *)
Definition perTeamSuppressionOf (m : TBAMatch.t) (alliance : Alliance) : num :=
  let defendingTeams := getAllianceTeams m alliance in
  let opponentAlliance := opponentOf alliance in
  let opponentTeams := getAllianceTeams m opponentAlliance in
  let observedOpponentFuel := getObservedTotal m opponentAlliance in
  let expectedOpponentFuel := expectedFuel opponentTeams in
  let suppression := expectedOpponentFuel - Fin observedOpponentFuel in
  if Nat.ltb 0 (List.length defendingTeams)
  then suppression / ofNat (List.length defendingTeams)
  else zero.

(** The inner loop over [defendingTeams] (lines 1647-1652) *)
Definition creditTeam (perTeamSuppression : num)
    (defenseByTeam : OMap.t DefenseAgg) (teamNumber : Z) : OMap.t DefenseAgg :=
  let current := OMap.get teamNumber defenseByTeam ?? mkDefense zero 0 in
  OMap.set teamNumber
    (mkDefense (suppressionSum current + perTeamSuppression)
       (samples current + 1))
    defenseByTeam.

(** The body of [for (const alliance of ['red', 'blue'])] *)
Definition creditAlliance (m : TBAMatch.t)
    (defenseByTeam : OMap.t DefenseAgg) (alliance : Alliance)
    : OMap.t DefenseAgg :=
  fold_left (creditTeam (perTeamSuppressionOf m alliance))
    (getAllianceTeams m alliance) defenseByTeam.

(** The body of [for (const match of eligibleMatches)] *)
Definition creditMatch (defenseByTeam : OMap.t DefenseAgg) (m : TBAMatch.t)
    : OMap.t DefenseAgg :=
  fold_left (creditAlliance m) [red; blue] defenseByTeam.

Definition defenseByTeam : OMap.t DefenseAgg :=
  fold_left creditMatch eligibleMatches (OMap.empty _).

(** [allTeamNumbers] (lines 1656-1661), as the array [[...allTeamNumbers]] *)
Definition allTeamNumbers : list Z :=
  OSet.ofList
    (OMap.keys oprByTeam ++ OMap.keys (scaledByTeam agg)
     ++ OMap.keys (passingByTeam agg) ++ OMap.keys defenseByTeam).

(** The penalties of the confidence score (lines 1687-1702) *)
Definition clamp01 (x : num) : num := Num.max zero (Num.min one x).

Definition sosPenaltyOf (teamNumber : Z) : num :=
  let sosAggregate := OMap.get teamNumber (sosByTeam agg) in
  let avgSos :=
    match sosAggregate with
    | Some a => if Nat.ltb 0 (count a) then Some (sum a / ofNat (count a)) else None
    | None => None
    end in
  match avgSos with
  | Some avg => Num.max zero (Num.min one (avg / ofZ 6))
  | None => zero
  end.

Definition matchPenaltyOf (matchesPlayed : nat) : num :=
  let targetMatches := ofZ 6 in
  Num.max zero ((targetMatches - ofNat matchesPlayed) / targetMatches).

Definition gapPenaltyOf (hasScaledFuelData : bool)
    (totalFuelOPR scaledTotalAvg : num) : num :=
  let gap := Num.abs (totalFuelOPR - scaledTotalAvg) in
  let scaleBase := Num.max3 one (Num.abs totalFuelOPR) (Num.abs scaledTotalAvg) in
  if hasScaledFuelData then Num.max zero (Num.min one (gap / scaleBase)) else zero.

Definition missingScaledPenaltyOf (hasScaledFuelData : bool) : num :=
  if hasScaledFuelData then zero else c 0.6.

(** The callback of [.map(teamNumber => ...)] (lines 1664-1737) *)
Definition mkRow (teamNumber : Z) : Row :=
  let oprTeam := OMap.get teamNumber oprByTeam in
  let scaledTeam := OMap.get teamNumber (scaledByTeam agg) in
  let matchesPlayed :=
    Nat.max (option_map Opr.matchesPlayed oprTeam ?? 0%nat)
      (option_map matches scaledTeam ?? 0%nat) in
  let fuelDataMatches := option_map fuelDataMatches scaledTeam ?? 0%nat in
  let hasScaledFuelData := Nat.ltb 0 fuelDataMatches in
  let scaledAutoAvg :=
    if hasScaledFuelData
    then (option_map autoSum scaledTeam ?? zero) / ofNat fuelDataMatches
    else zero in
  let scaledTeleopAvg :=
    if hasScaledFuelData
    then (option_map teleopSum scaledTeam ?? zero) / ofNat fuelDataMatches
    else zero in
  let scaledTotalAvg := scaledAutoAvg + scaledTeleopAvg in
  let totalFuelOPR :=
    option_map (fun o => Fin (Opr.totalFuelOPR o)) oprTeam ?? zero in
  let passingAggregate := OMap.get teamNumber (passingByTeam agg) in
  let hasPassingData :=
    Nat.ltb 0 (option_map passDataMatches passingAggregate ?? 0%nat) in
  let passingAvg :=
    if hasPassingData
    then (option_map passSum passingAggregate ?? zero)
         / ofNat (option_map passDataMatches passingAggregate ?? 1%nat)
    else zero in
  let defenseAggregate := OMap.get teamNumber defenseByTeam in
  let defenseImpact :=
    match defenseAggregate with
    | Some d =>
        if Nat.ltb 0 (samples d)
        then suppressionSum d / ofNat (samples d)
        else zero
    | None => zero
    end in
  let assistImpact := passingAvg in
  let sosPenalty := sosPenaltyOf teamNumber in
  let matchPenalty := matchPenaltyOf matchesPlayed in
  let gapPenalty := gapPenaltyOf hasScaledFuelData totalFuelOPR scaledTotalAvg in
  let missingScaledPenalty := missingScaledPenaltyOf hasScaledFuelData in
  let confidencePenalty :=
    Num.max zero
      (Num.min one
         (c 0.35 * matchPenalty + c 0.25 * gapPenalty + c 0.15 * sosPenalty
          + c 0.25 * missingScaledPenalty)) in
  let confidenceScore := one - confidencePenalty in
  let hybridBase :=
    if hasScaledFuelData
    then c 0.6 * scaledTotalAvg + c 0.4 * totalFuelOPR
    else totalFuelOPR in
  let hybridScorerIndex := hybridBase * confidenceScore in
  let assistComponent := if hasPassingData then assistImpact * c 0.2 else zero in
  let defenseComponent := defenseImpact * c 0.2 in
  let totalContributionIndex :=
    hybridScorerIndex + assistComponent + defenseComponent in
  {| teamNumber := teamNumber;
     matchesPlayed := matchesPlayed;
     autoFuelOPR := option_map (fun o => Fin (Opr.autoFuelOPR o)) oprTeam ?? zero;
     teleopFuelOPR :=
       option_map (fun o => Fin (Opr.teleopFuelOPR o)) oprTeam ?? zero;
     totalFuelOPR := totalFuelOPR;
     scaledAutoAvg := scaledAutoAvg;
     scaledTeleopAvg := scaledTeleopAvg;
     scaledTotalAvg := scaledTotalAvg;
     confidenceScore := confidenceScore;
     confidencePenalty := confidencePenalty;
     sosPenalty := sosPenalty;
     hybridScorerIndex := hybridScorerIndex;
     assistImpact := assistImpact;
     defenseImpact := defenseImpact;
     totalContributionIndex := totalContributionIndex |}.

End BuildRows.

(** The comparator of the final sort (line 1738) *)
Definition compareRows (a b : Row) : num :=
  Num.or
    (Num.or (totalContributionIndex b - totalContributionIndex a)
       (hybridScorerIndex b - hybridScorerIndex a))
    (ofZ (teamNumber a) - ofZ (teamNumber b)).

(** [Array.prototype.sort(cmp)]: stable insertion; an element moves behind
    its neighbour only when the comparator is positive. *)
Fixpoint insertRow (cmp : Row -> Row -> num) (x : Row) (l : list Row) : list Row :=
  match l with
  | [] => [x]
  | y :: l' =>
      if Num.gt (cmp x y) zero then y :: insertRow cmp x l' else x :: l
  end.

Definition sortRows (cmp : Row -> Row -> num) (l : list Row) : list Row :=
  fold_right (insertRow cmp) [] l.

(** [buildRows] (lines 1613-1739) *)
Definition buildRows (agg : Aggregates) (cachedMatches : list TBAMatch.t)
    (fuelOprIncludePlayoffs : bool) (oprRows : list Opr.t) : list Row :=
  sortRows compareRows
    (map (mkRow agg cachedMatches fuelOprIncludePlayoffs oprRows)
       (allTeamNumbers agg cachedMatches fuelOprIncludePlayoffs oprRows)).

(** The rows that [loadFuelOprData] computes from the cached matches, the
    scouted entries and one OPR result. *)
Definition fuelOprRows (cachedMatches : list TBAMatch.t)
    (entries : list Entry.t) (fuelOprIncludePlayoffs : bool)
    (oprRows : list Opr.t) : list Row :=
  buildRows (aggregateEntries entries) cachedMatches fuelOprIncludePlayoffs
    oprRows.

End Composer.

(** ** Definitions used to state the properties *)

(** The scouted entries of one team, in input order. *)
Definition entriesOf (t : Z) (entries : list Entry.t) : list Entry.t :=
  filter (fun e => Z.eqb (Entry.teamNumber e) t) entries.

(** [entry.gameData ?? {}] *)
Definition gameDataOf (e : Entry.t) : jsval :=
  JS.nullish (Entry.gameData e) (JObj []).

(** Left-to-right sum, as [reduce((s, v) => s + v, 0)] computes it. *)
Definition sumList (l : list num) : num := fold_left Num.add l zero.

(** Arithmetic mean; 0 for the empty list. *)
Definition mean (l : list num) : num :=
  match l with
  | [] => zero
  | _ => (sumList l / ofNat (List.length l))%num
  end.

(** The first non-null result of a list of probes. *)
Fixpoint firstFinite (probes : list (option Qc)) : option Qc :=
  match probes with
  | [] => None
  | Some q :: _ => Some q
  | None :: rest => firstFinite rest
  end.

(** A team is on an alliance of a match when one of the team keys of the
    match resolves to its number. *)
Definition onAlliance (t : Z) (m : TBAMatch.t) (a : Alliance) : Prop :=
  In t (getAllianceTeams m a).

Definition inMatch (t : Z) (m : TBAMatch.t) : Prop :=
  onAlliance t m red \/ onAlliance t m blue.

Definition allianceTally (t : Z) (ms : list TBAMatch.t) : nat :=
  List.length
    (filter
       (fun ma : TBAMatch.t * Alliance =>
          existsb (Z.eqb t) (getAllianceTeams (fst ma) (snd ma)))
       (flat_map (fun m => [(m, red); (m, blue)]) ms)).

(** Modelled from the spec: the OPR solver is not in the embedded file.  Its
    result lists every team of the filtered match set, and the
    [matchesPlayed] it reports "counts alliance appearances". *)
Definition oprCountsAppearances (eligible : list TBAMatch.t)
    (oprRows : list Opr.t) : Prop :=
  forall t,
    option_map Opr.matchesPlayed (OMap.get t (oprByTeamOf oprRows)) ?? 0%nat
    = allianceTally t eligible.

(** The order of the final list, as the specification words it. *)
Definition rowBefore (a b : Row) : Prop :=
  Num.gt (totalContributionIndex a) (totalContributionIndex b) = true
  \/ (totalContributionIndex a = totalContributionIndex b
      /\ Num.gt (hybridScorerIndex a) (hybridScorerIndex b) = true)
  \/ (totalContributionIndex a = totalContributionIndex b
      /\ hybridScorerIndex a = hybridScorerIndex b
      /\ (teamNumber a < teamNumber b)%Z).

(** *** Per-team reading of the aggregation loops *)

Section PerTeamModel.

Variable Number_str : string -> num.

Local Open Scope num_scope.

(** What one entry of a team does to the team's slot of [scaledByTeam]. *)
Definition scaledStep (cur : option ScaledAgg) (e : Entry.t) : option ScaledAgg :=
  let current := cur ?? mkScaled 0 zero zero 0 in
  let scaled := scaledFuel (gameDataOf e) in
  Some
    (if hasFuelData (gameDataOf e)
     then mkScaled (matches current + 1)
            (autoSum current + Fin (fuelAuto scaled))
            (teleopSum current + Fin (fuelTeleop scaled))
            (fuelDataMatches current + 1)
     else mkScaled (matches current + 1) (autoSum current) (teleopSum current)
            (fuelDataMatches current)).

(** The same for [passingByTeam]. *)
Definition passingStep (cur : option PassingAgg) (e : Entry.t)
    : option PassingAgg :=
  let passCurrent := cur ?? mkPassing zero 0 in
  let passing := extractPassingValue Number_str (gameDataOf e) in
  Some
    (if hasData passing
     then mkPassing (passSum passCurrent + value passing)
            (passDataMatches passCurrent + 1)
     else passCurrent).

(** The same for [sosByTeam]. *)
Definition sosStep (cur : option SosAgg) (e : Entry.t) : option SosAgg :=
  match extractSosValue Number_str (gameDataOf e) with
  | Some v =>
      let sosCurrent := cur ?? mkSos zero 0 in
      Some (mkSos (sum sosCurrent + Fin v) (count sosCurrent + 1))
  | None => cur
  end.

(** The team has a scouted entry with usable scaled or raw production data. *)
Definition teamHasFuelData (entries : list Entry.t) (t : Z) : bool :=
  existsb (fun e => hasFuelData (gameDataOf e)) (entriesOf t entries).

(** The team has a scouted entry with passing data. *)
Definition teamHasPassingData (entries : list Entry.t) (t : Z) : bool :=
  existsb (fun e => hasData (extractPassingValue Number_str (gameDataOf e)))
    (entriesOf t entries).

End PerTeamModel.

(** *** The defense estimator in the words of the specification *)

Section DefenseModel.

Variable Number_str : string -> num.
Variable cachedMatches : list TBAMatch.t.
Variable fuelOprIncludePlayoffs : bool.
Variable oprRows : list Opr.t.

Local Open Scope num_scope.

(** A team's [totalFuelOPR] in the OPR result, 0 when the team is absent. *)
Definition oprTotalOrZero (t : Z) : num :=
  option_map (fun o => Fin (Opr.totalFuelOPR o))
    (OMap.get t (oprByTeamOf oprRows)) ?? zero.

(** One suppression sample, in the words of the specification: the expected
    output of the opposing alliance minus its observed total, divided by the
    number of teams on the defending alliance. *)
Definition suppressionSample (m : TBAMatch.t) (a : Alliance) : num :=
  (sumList (map oprTotalOrZero (getAllianceTeams m (opponentOf a)))
   - Fin (getObservedTotal Number_str m (opponentOf a)))
  / ofNat (List.length (getAllianceTeams m a)).

(** The samples of a team: one for each of its appearances on an alliance
    of a match of the filtered match set, in match order. *)
Definition defenseSamples (t : Z) : list num :=
  flat_map
    (fun m =>
       flat_map
         (fun a =>
            map (fun _ => suppressionSample m a)
              (filter (Z.eqb t) (getAllianceTeams m a)))
         [red; blue])
    (eligibleMatchesOf fuelOprIncludePlayoffs cachedMatches).

(** What one sample does to a team's slot of [defenseByTeam]. *)
Definition addSample (cur : option DefenseAgg) (s : num) : option DefenseAgg :=
  let current := cur ?? mkDefense zero 0 in
  Some (mkDefense (suppressionSum current + s) (samples current + 1)).

End DefenseModel.

(** *** The sort keys *)

(** [x] is not moved behind [y]. *)
Definition notAfter (cmp : Row -> Row -> num) (x y : Row) : Prop :=
  Num.gt (cmp x y) zero = false.

Definition rowFin (r : Row) : Prop :=
  Num.fin (totalContributionIndex r) /\ Num.fin (hybridScorerIndex r).

(** The two rows agree on the three sort keys. *)
Definition sameKeys (a b : Row) : Prop :=
  totalContributionIndex a = totalContributionIndex b
  /\ hybridScorerIndex a = hybridScorerIndex b
  /\ teamNumber a = teamNumber b.

(** The teams on which [oprCountsAppearances] has to be checked. *)
Definition talliedTeams (ms : list TBAMatch.t) (oprRows : list Opr.t) : list Z :=
  OMap.keys (oprByTeamOf oprRows)
  ++ flat_map (fun m => getAllianceTeams m red ++ getAllianceTeams m blue) ms.

(** ** Concrete inputs *)

Module Example.

Local Open Scope string_scope.

(** A stand-in for [Number] on strings; the example data holds no numeric
    strings. *)
Definition Number_str (s : string) : num := NaN.

Definition q (x : Q) : Qc := Q2Qc x.

Definition breakdown (redTotal blueTotal : Q) : jsval :=
  JObj [("red", JObj [("hubScore", JObj [("totalCount", JNum (q redTotal))])]);
        ("blue", JObj [("hubScore", JObj [("totalCount", JNum (q blueTotal))])])].

Definition qm1 : TBAMatch.t :=
  TBAMatch.mk "qm" ["frc1"; "frc2"] ["frc3"; "frc4"] (breakdown 10 20).

Definition qm2 : TBAMatch.t :=
  TBAMatch.mk "qm" ["frc1"; "frc3"] ["frc2"; "frc4"] (breakdown 12 8).

Definition matches2 : list TBAMatch.t := [qm1; qm2].

(** Team 1 scored 4 in auto and 3 in teleop, and passed 2 and 3. *)
Definition entryTeam1 : Entry.t :=
  Entry.mk 1
    (JObj [("auto", JObj [("fuelScoredCount", JNum (q 4))]);
           ("teleopFuelScored", JNum (q 3));
           ("autoFuelPassed", JNum (q 2));
           ("teleopFuelPassed", JNum (q 3))]).

(** An entry of team 2 without production or passing data. *)
Definition entryTeam2 : Entry.t := Entry.mk 2 (JObj [("comment", JStr "no data")]).

Definition entries2 : list Entry.t := [entryTeam1; entryTeam2].

Definition oprs4 : list Opr.t :=
  [ Opr.mk 1 (q 1) (q 5) (q 6) 2;
    Opr.mk 2 (q 1) (q 2) (q 3) 2;
    Opr.mk 3 (q 2) (q 9) (q 11) 2;
    Opr.mk 4 (q 0) (q 4) (q 4) 2 ].

Definition rows4 : list Row := fuelOprRows Number_str matches2 entries2 true oprs4.

Definition rowOf (t : Z) : Row :=
  mkRow Number_str (aggregateEntries Number_str entries2) matches2 true oprs4 t.

End Example.

Module PlayoffExample.

Local Open Scope string_scope.

(** A playoff match in which team 7 plays; team 7 is in no qualification
    match and has no scouted entry. *)
Definition sf1 : TBAMatch.t :=
  TBAMatch.mk "sf" ["frc1"; "frc7"] ["frc2"; "frc3"] (Example.breakdown 9 9).

Definition matches3 : list TBAMatch.t := Example.matches2 ++ [sf1].

(** With [includePlayoffs] off the OPR result covers the qualification
    matches, that is teams 1 to 4. *)
Definition rowsQualsOnly : list Row :=
  fuelOprRows Example.Number_str matches3 Example.entries2 false Example.oprs4.

End PlayoffExample.

Module ZeroMatchExample.

(** The OPR result lists team 9 with no appearance and rating 0; team 9 has
    no scouted entry and is on no alliance. *)
Definition oprs5 : list Opr.t :=
  Example.oprs4 ++ [Opr.mk 9 (Example.q 0) (Example.q 0) (Example.q 0) 0].

Definition rows5 : list Row :=
  fuelOprRows Example.Number_str Example.matches2 Example.entries2 true oprs5.

Definition row9 : Row :=
  mkRow Example.Number_str
    (aggregateEntries Example.Number_str Example.entries2) Example.matches2
    true oprs5 9.

End ZeroMatchExample.

Module DoubleScoutedExample.

(** Team 1 was scouted three times, in two matches. *)
Definition entries3 : list Entry.t :=
  [Example.entryTeam1; Example.entryTeam1; Example.entryTeam1].

Definition rows : list Row :=
  fuelOprRows Example.Number_str Example.matches2 entries3 true Example.oprs4.

Definition row1 : Row :=
  mkRow Example.Number_str (aggregateEntries Example.Number_str entries3)
    Example.matches2 true Example.oprs4 1.

End DoubleScoutedExample.

Module MalformedExample.

Local Open Scope string_scope.

(** A qualification match without score breakdown and with a team key that
    does not resolve to a number. *)
Definition qm3 : TBAMatch.t :=
  TBAMatch.mk "qm" ["frc1"; "frcX"] ["frc2"] JNull.

Definition matchesWith : list TBAMatch.t := Example.matches2 ++ [qm3].

Definition rowWith (t : Z) : Row :=
  mkRow Example.Number_str
    (aggregateEntries Example.Number_str Example.entries2) matchesWith true
    Example.oprs4 t.

Definition rowsWith : list Row :=
  fuelOprRows Example.Number_str matchesWith Example.entries2 true Example.oprs4.

End MalformedExample.


(** ** The scouting database and the gamification tables

    The remaining functions of the file work on Dexie tables.  A table is
    kept as the list of its rows, which have pairwise distinct primary keys;
    the order in which Dexie iterates a table is not modelled, and the
    properties below speak of lookups and of membership only.  The team and
    match numbers, the counters and the millisecond time stamps held by the
    rows are integers.  [Date.now()] is an input of the functions that call
    it. *)

(** [Array.prototype.sort(cmp)] for a comparator with integer results:
    stable insertion, as [insertRow]. *)
Fixpoint insertBy {A : Type} (cmp : A -> A -> Z) (x : A) (l : list A) : list A :=
  match l with
  | [] => [x]
  | y :: l' => if (0 <? cmp x y)%Z then y :: insertBy cmp x l' else x :: l
  end.

Definition sortBy {A : Type} (cmp : A -> A -> Z) (l : list A) : list A :=
  fold_right (insertBy cmp) [] l.

(** The comparator of [sort()] without argument, on strings: the order of
    the character codes. *)
Definition defaultCompare (a b : string) : Z :=
  match String.compare a b with
  | Lt => (-1)%Z
  | Eq => 0%Z
  | Gt => 1%Z
  end.

(** An insertion-ordered [Set] of strings. *)
Module SSet.

Definition t := list string.

Definition mem (k : string) (s : t) : bool := existsb (String.eqb k) s.

Definition add (s : t) (k : string) : t := if mem k s then s else s ++ [k].

(** [new Set(l)] *)
Definition ofList (l : list string) : t := fold_left add l [].

End SSet.

(** [ScoutingEntryBase]: the fields that the embedded functions read. *)
Module DbEntry.
Record t : Type := mk {
  id : string;
  scoutName : string;
  teamNumber : Z;
  matchNumber : Z;
  eventKey : string;
  allianceColor : Alliance;
  timestamp : Z;
  isCorrected : bool;
  correctionCount : option Z
}.
End DbEntry.

(** A Dexie table with a string primary key. *)
Module Table.

Section Ops.
Variable V : Type.
Variable key : V -> string.

Definition t := list V.

(** [table.get(k)] *)
Definition get (k : string) (tb : t) : option V :=
  find (fun v => String.eqb (key v) k) tb.

(** [table.put(v)]: the row with the key of [v] is replaced, or [v] is
    added. *)
Fixpoint put (v : V) (tb : t) : t :=
  match tb with
  | [] => [v]
  | w :: tb' => if String.eqb (key w) (key v) then v :: tb' else w :: put v tb'
  end.

(** [table.bulkPut(vs)] *)
Definition bulkPut (vs : list V) (tb : t) : t :=
  fold_left (fun acc v => put v acc) vs tb.

(** [table.clear()] *)
Definition clear (tb : t) : t := [].

(** [table.delete(k)] *)
Definition delete (k : string) (tb : t) : t :=
  filter (fun v => negb (String.eqb (key v) k)) tb.

(** [table.bulkDelete(ks)] *)
Definition bulkDelete (ks : list string) (tb : t) : t :=
  fold_left (fun acc k => delete k acc) ks tb.

(** The primary keys of the table. *)
Definition keys (tb : t) : list string := map key tb.

End Ops.

End Table.

(** *** [mergeScoutingData] (lines 128-167) *)

Module Merge.
Record stats : Type := mkStats {
  existing : nat;
  new : nat;
  duplicates : nat;
  final : nat
}.

Record result : Type := mkResult {
  merged : list DbEntry.t;
  statsOf : stats
}.
End Merge.

Definition mergeScoutingData (existingData newData : list DbEntry.t)
    : Merge.result :=
  if Nat.eqb (List.length existingData) 0
  then Merge.mkResult newData
         (Merge.mkStats 0 (List.length newData) 0 (List.length newData))
  else
    let existingIds := SSet.ofList (map DbEntry.id existingData) in
    let uniqueNewData :=
      filter (fun entry => negb (SSet.mem (DbEntry.id entry) existingIds))
        newData in
    let duplicateCount :=
      (List.length newData - List.length uniqueNewData)%nat in
    let merged := existingData ++ uniqueNewData in
    Merge.mkResult merged
      (Merge.mkStats (List.length existingData) (List.length uniqueNewData)
         duplicateCount (List.length merged)).

(** *** [detectConflicts] (lines 80-123) *)

Module Conflict.
Record result : Type := mk {
  autoImport : list DbEntry.t;
  autoReplace : list DbEntry.t;
  manualReview : list (DbEntry.t * DbEntry.t)
}.
End Conflict.

(** The body of the loop over [incomingEntries]; a pair of
    [manualReview] is [(existing, incoming)]. *)
Definition detectConflictsStep (scoutingData : Table.t DbEntry.t)
    (result : Conflict.result) (incoming : DbEntry.t) : Conflict.result :=
  match Table.get DbEntry.id (DbEntry.id incoming) scoutingData with
  | None =>
      Conflict.mk (Conflict.autoImport result ++ [incoming])
        (Conflict.autoReplace result) (Conflict.manualReview result)
  | Some existing =>
      if DbEntry.isCorrected incoming
      then Conflict.mk (Conflict.autoImport result)
             (Conflict.autoReplace result ++ [incoming])
             (Conflict.manualReview result)
      else
        let timeDiff :=
          (DbEntry.timestamp incoming - DbEntry.timestamp existing)%Z in
        let THIRTY_SECONDS := (30 * 1000)%Z in
        if (THIRTY_SECONDS <? timeDiff)%Z
        then Conflict.mk (Conflict.autoImport result)
               (Conflict.autoReplace result ++ [incoming])
               (Conflict.manualReview result)
        else if (timeDiff <? - THIRTY_SECONDS)%Z
        then result
        else Conflict.mk (Conflict.autoImport result)
               (Conflict.autoReplace result)
               (Conflict.manualReview result ++ [(existing, incoming)])
  end.

Definition detectConflicts (scoutingData : Table.t DbEntry.t)
    (incomingEntries : list DbEntry.t) : Conflict.result :=
  fold_left (detectConflictsStep scoutingData) incomingEntries
    (Conflict.mk [] [] []).

(** *** [importScoutingData] (lines 567-606)

    The table operations of the model do not fail, so the [catch] branch is
    not reached. *)

Inductive ImportMode : Type := Append | Overwrite.

Module ImportResult.
Record t : Type := mk {
  success : bool;
  importedCount : nat;
  duplicatesSkipped : option nat;
  error : option string
}.
End ImportResult.

Definition importScoutingData (entries : list DbEntry.t) (mode : ImportMode)
    (scoutingData : Table.t DbEntry.t) : ImportResult.t * Table.t DbEntry.t :=
  match mode with
  | Overwrite =>
      let cleared := Table.clear scoutingData in
      let stored := Table.bulkPut DbEntry.id entries cleared in
      (ImportResult.mk true (List.length entries) None None, stored)
  | Append =>
      let existingIds := Table.keys DbEntry.id scoutingData in
      let existingIdSet := SSet.ofList existingIds in
      let newEntries :=
        filter (fun entry => negb (SSet.mem (DbEntry.id entry) existingIdSet))
          entries in
      let stored := Table.bulkPut DbEntry.id newEntries scoutingData in
      (ImportResult.mk true (List.length newEntries)
         (Some (List.length entries - List.length newEntries)%nat) None,
       stored)
  end.

(** *** [queryScoutingEntries] (lines 608-656) *)

Module Query.
Record filters : Type := mk {
  teamNumbers : option (list Z);
  matchNumbers : option (list Z);
  eventKeys : option (list string);
  alliances : option (list Alliance);
  scoutName : option (list string);
  dateRange : option (Z * Z)
}.
End Query.

Definition allianceEqb (a b : Alliance) : bool :=
  match a, b with
  | red, red | blue, blue => true
  | _, _ => false
  end.

(** [filters.xs && filters.xs.length > 0] *)
Definition activeList {A : Type} (xs : option (list A)) : option (list A) :=
  match xs with
  | Some (x :: l) => Some (x :: l)
  | _ => None
  end.

(** One [if (...) collection = collection.filter(...)] of the query. *)
Definition filterWhen {A : Type} (xs : option (list A))
    (keep : list A -> DbEntry.t -> bool) (collection : list DbEntry.t)
    : list DbEntry.t :=
  match activeList xs with
  | Some l => filter (keep l) collection
  | None => collection
  end.

Definition queryScoutingEntries (f : Query.filters)
    (scoutingData : list DbEntry.t) : list DbEntry.t :=
  let collection := scoutingData in
  let collection :=
    match Query.dateRange f with
    | Some (start, stop) =>
        filter
          (fun entry =>
             (start <=? DbEntry.timestamp entry)%Z
             && (DbEntry.timestamp entry <=? stop)%Z)
          collection
    | None => collection
    end in
  let collection :=
    filterWhen (Query.teamNumbers f)
      (fun l entry =>
         negb (DbEntry.teamNumber entry =? 0)%Z
         && existsb (Z.eqb (DbEntry.teamNumber entry)) l)
      collection in
  let collection :=
    filterWhen (Query.matchNumbers f)
      (fun l entry =>
         negb (DbEntry.matchNumber entry =? 0)%Z
         && existsb (Z.eqb (DbEntry.matchNumber entry)) l)
      collection in
  let collection :=
    filterWhen (Query.eventKeys f)
      (fun l entry =>
         negb (String.eqb (DbEntry.eventKey entry) "")
         && existsb (String.eqb (DbEntry.eventKey entry)) l)
      collection in
  let collection :=
    filterWhen (Query.alliances f)
      (fun l entry => existsb (allianceEqb (DbEntry.allianceColor entry)) l)
      collection in
  let collection :=
    filterWhen (Query.scoutName f)
      (fun l entry =>
         negb (String.eqb (DbEntry.scoutName entry) "")
         && existsb (String.eqb (DbEntry.scoutName entry)) l)
      collection in
  collection.

(** *** [getDBStats] (lines 510-551) *)

Module Stats.
Record t : Type := mk {
  totalEntries : nat;
  teams : list Z;
  matches : list Z;
  scouts : list string;
  events : list string;
  oldestEntry : option Z;
  newestEntry : option Z
}.

(** The variables of the [forEach] loop. *)
Record acc : Type := mkAcc {
  teamSet : OSet.t;
  matchSet : OSet.t;
  scoutSet : SSet.t;
  eventSet : SSet.t;
  oldest : option Z;
  newest : option Z
}.
End Stats.

(** [!x] for [x : number | undefined] *)
Definition unsetOrZero (x : option Z) : bool :=
  match x with
  | None => true
  | Some z => (z =? 0)%Z
  end.

Definition getDBStatsStep (a : Stats.acc) (entry : DbEntry.t) : Stats.acc :=
  let teams :=
    if negb (DbEntry.teamNumber entry =? 0)%Z
    then OSet.add (Stats.teamSet a) (DbEntry.teamNumber entry)
    else Stats.teamSet a in
  let matches :=
    if negb (DbEntry.matchNumber entry =? 0)%Z
    then OSet.add (Stats.matchSet a) (DbEntry.matchNumber entry)
    else Stats.matchSet a in
  let scouts :=
    if negb (String.eqb (DbEntry.scoutName entry) "")
    then SSet.add (Stats.scoutSet a) (DbEntry.scoutName entry)
    else Stats.scoutSet a in
  let events :=
    if negb (String.eqb (DbEntry.eventKey entry) "")
    then SSet.add (Stats.eventSet a) (DbEntry.eventKey entry)
    else Stats.eventSet a in
  let oldestEntry :=
    if unsetOrZero (Stats.oldest a)
       || (DbEntry.timestamp entry <? Stats.oldest a ?? 0)%Z
    then Some (DbEntry.timestamp entry)
    else Stats.oldest a in
  let newestEntry :=
    if unsetOrZero (Stats.newest a)
       || (Stats.newest a ?? 0 <? DbEntry.timestamp entry)%Z
    then Some (DbEntry.timestamp entry)
    else Stats.newest a in
  Stats.mkAcc teams matches scouts events oldestEntry newestEntry.

Definition getDBStats (entries : list DbEntry.t) : Stats.t :=
  let a := fold_left getDBStatsStep entries (Stats.mkAcc [] [] [] [] None None) in
  Stats.mk (List.length entries)
    (sortBy (fun a b => (a - b)%Z) (Stats.teamSet a))
    (sortBy (fun a b => (a - b)%Z) (Stats.matchSet a))
    (sortBy defaultCompare (Stats.scoutSet a))
    (sortBy defaultCompare (Stats.eventSet a))
    (Stats.oldest a) (Stats.newest a).

(** *** [updateScoutingEntryWithCorrection] (lines 455-496)

    The correction metadata other than the flag and the counter
    ([lastCorrectedAt], [lastCorrectedBy], [correctionNotes]) is not part of
    [DbEntry.t].  The query [where({...})] selects the rows equal to
    [newData] on the four fields.  [None] is the thrown error
    'Entry not found'. *)

Definition sameSlot (newData entry : DbEntry.t) : bool :=
  (DbEntry.matchNumber entry =? DbEntry.matchNumber newData)%Z
  && (DbEntry.teamNumber entry =? DbEntry.teamNumber newData)%Z
  && allianceEqb (DbEntry.allianceColor entry) (DbEntry.allianceColor newData)
  && String.eqb (DbEntry.eventKey entry) (DbEntry.eventKey newData).

Definition updateScoutingEntryWithCorrection (id : string)
    (newData : DbEntry.t) (scoutingData : Table.t DbEntry.t)
    : option (Table.t DbEntry.t) :=
  match Table.get DbEntry.id id scoutingData with
  | None => None
  | Some existing =>
      let duplicates := filter (sameSlot newData) scoutingData in
      let duplicateIds :=
        map DbEntry.id
          (filter (fun entry => negb (String.eqb (DbEntry.id entry) id))
             duplicates) in
      let scoutingData :=
        if Nat.ltb 0 (List.length duplicateIds)
        then Table.bulkDelete DbEntry.id duplicateIds scoutingData
        else scoutingData in
      Some
        (Table.put DbEntry.id
           (DbEntry.mk id (DbEntry.scoutName newData)
              (DbEntry.teamNumber newData) (DbEntry.matchNumber newData)
              (DbEntry.eventKey newData) (DbEntry.allianceColor newData)
              (DbEntry.timestamp newData) true
              (Some (Z.add
                       (match DbEntry.correctionCount existing with
                        | Some n => n
                        | None => 0%Z
                        end) 1)))
           scoutingData)
  end.

(** *** Pit scouting (lines 724-779)

    The rows of [pitScoutingData] are given in the order in which the
    query lists them.  The fallback of [loadPitScoutingByTeamAndEvent]
    computes the same value from the whole table. *)

Module PitEntry.
Record t : Type := mk {
  id : string;
  teamNumber : Z;
  eventKey : string;
  scoutName : string;
  timestamp : Z
}.
End PitEntry.

Definition loadPitScoutingByTeamAndEvent (teamNumber : Z) (eventKey : string)
    (pitScoutingData : list PitEntry.t) : option PitEntry.t :=
  let results :=
    filter
      (fun entry =>
         (PitEntry.teamNumber entry =? teamNumber)%Z
         && String.eqb (PitEntry.eventKey entry) eventKey)
      pitScoutingData in
  hd_error
    (sortBy (fun a b => (PitEntry.timestamp b - PitEntry.timestamp a)%Z)
       results).

Module PitStats.
Record t : Type := mk {
  totalEntries : nat;
  teams : list Z;
  events : list string;
  scouts : list string
}.
End PitStats.

Definition getPitScoutingStats (entries : list PitEntry.t) : PitStats.t :=
  let teams :=
    sortBy (fun a b => (a - b)%Z)
      (OSet.ofList (map PitEntry.teamNumber entries)) in
  let events :=
    sortBy defaultCompare (SSet.ofList (map PitEntry.eventKey entries)) in
  let scouts :=
    sortBy defaultCompare (SSet.ofList (map PitEntry.scoutName entries)) in
  PitStats.mk (List.length entries) teams events scouts.

(** *** Scouts and predictions (lines 781-932) *)

Module Scout.
Record t : Type := mk {
  name : string;
  stakes : Z;
  stakesFromPredictions : Z;
  totalPredictions : Z;
  correctPredictions : Z;
  currentStreak : Z;
  longestStreak : Z;
  createdAt : Z;
  lastUpdated : Z
}.
End Scout.

(** [MatchPrediction]: the fields read by [isMatchSequential]. *)
Module Prediction.
Record t : Type := mk {
  scoutName : string;
  eventName : string;
  matchNumber : string;
  timestamp : Z;
  verified : bool
}.
End Prediction.

Module StrMore.

Definition hexDigit (c : ascii) : option Z :=
  let n := Z.of_nat (nat_of_ascii c) in
  if (48 <=? n)%Z && (n <=? 57)%Z then Some (n - 48)%Z
  else if (97 <=? n)%Z && (n <=? 102)%Z then Some (n - 87)%Z
  else if (65 <=? n)%Z && (n <=? 70)%Z then Some (n - 55)%Z
  else None.

Fixpoint hexDigits (acc : option Z) (s : string) : option Z :=
  match s with
  | EmptyString => acc
  | String c s' =>
      match hexDigit c with
      | Some d =>
          hexDigits
            (Some (16 * match acc with Some a => a | None => 0 end + d)%Z) s'
      | None => acc
      end
  end.

(** The digits of [parseInt] without radix: hexadecimal after a prefix
    [0x] or [0X], decimal otherwise. *)
Definition unsignedAuto (s : string) : option Z :=
  match s with
  | String "0"%char (String "x"%char s') => hexDigits None s'
  | String "0"%char (String "X"%char s') => hexDigits None s'
  | _ => Str.digits None s
  end.

(** [parseInt(s)]; [None] stands for [NaN]. *)
Definition parseInt (s : string) : option Z :=
  match Str.trimStart s with
  | String "-"%char s' => option_map Z.opp (unsignedAuto s')
  | String "+"%char s' => unsignedAuto s'
  | s' => unsignedAuto s'
  end.

End StrMore.

(** [isMatchSequential] (lines 907-932), on the result [lastPrediction] of
    its query: the verified predictions of the scout in the event, latest
    first. *)
Definition isMatchSequential (lastPrediction : list Prediction.t)
    (currentMatchNumber : string) : bool :=
  match lastPrediction with
  | [] => true
  | last :: _ =>
      let lastMatchNumber :=
        StrMore.parseInt
          (if String.eqb (Prediction.matchNumber last) "" then "0"
           else Prediction.matchNumber last) in
      let currentMatch := StrMore.parseInt currentMatchNumber in
      match currentMatch, lastMatchNumber with
      | Some cur, Some prev =>
          let gap := (cur - prev)%Z in
          (gap <=? 3)%Z && (0 <? gap)%Z
      | _, _ => false
      end
  end.

(** [getOrCreateScout] (lines 781-806).  [trim] is [String.prototype.trim],
    a built-in of the language, which removes the white space of Unicode at
    both ends; [now1] and [now2] are the results of the successive calls of
    [Date.now()]: one call when the scout is found, two for a new scout. *)
Definition getOrCreateScout (trim : string -> string) (name : string)
    (now1 now2 : Z) (scouts : Table.t Scout.t) : Scout.t * Table.t Scout.t :=
  match Table.get Scout.name name scouts with
  | Some existingScout =>
      let updated :=
        Scout.mk (Scout.name existingScout) (Scout.stakes existingScout)
          (Scout.stakesFromPredictions existingScout)
          (Scout.totalPredictions existingScout)
          (Scout.correctPredictions existingScout)
          (Scout.currentStreak existingScout)
          (Scout.longestStreak existingScout)
          (Scout.createdAt existingScout) now1 in
      (updated, Table.put Scout.name updated scouts)
  | None =>
      let newScout := Scout.mk (trim name) 0 0 0 0 0 0 now1 now2 in
      (newScout, Table.put Scout.name newScout scouts)
  end.

(** [updateScoutPoints] (lines 816-823) *)
Definition updateScoutPoints (name : string) (pointsToAdd : Z) (now : Z)
    (scouts : Table.t Scout.t) : Table.t Scout.t :=
  match Table.get Scout.name name scouts with
  | Some scout =>
      Table.put Scout.name
        (Scout.mk (Scout.name scout) (Scout.stakes scout + pointsToAdd)
           (Scout.stakesFromPredictions scout) (Scout.totalPredictions scout)
           (Scout.correctPredictions scout) (Scout.currentStreak scout)
           (Scout.longestStreak scout) (Scout.createdAt scout) now)
        scouts
  | None => scouts
  end.

(** [updateScoutStats] (lines 825-845) *)
Definition updateScoutStats (name : string) (newStakes : Z)
    (correctPredictions totalPredictions : Z)
    (currentStreak longestStreak : option Z)
    (additionalStakesFromPredictions : Z) (now : Z)
    (scouts : Table.t Scout.t) : Table.t Scout.t :=
  match Table.get Scout.name name scouts with
  | Some scout =>
      Table.put Scout.name
        (Scout.mk (Scout.name scout) newStakes
           (Scout.stakesFromPredictions scout + additionalStakesFromPredictions)
           totalPredictions correctPredictions
           (currentStreak ?? Scout.currentStreak scout)
           (longestStreak ?? Scout.longestStreak scout)
           (Scout.createdAt scout) now)
        scouts
  | None => scouts
  end.

(** [updateScoutWithPredictionResult] (lines 848-904); [lastPrediction] is
    the result of the query of [isMatchSequential]. *)
Definition updateScoutWithPredictionResult (name : string) (isCorrect : bool)
    (basePoints : Z) (lastPrediction : list Prediction.t)
    (matchNumber : string) (now : Z) (scouts : Table.t Scout.t)
    : Z * Table.t Scout.t :=
  match Table.get Scout.name name scouts with
  | None => (0%Z, scouts)
  | Some scout =>
      let isSequential := isMatchSequential lastPrediction matchNumber in
      let '(pointsAwarded, newCurrentStreak, newLongestStreak) :=
        if isCorrect
        then
          let pointsAwarded := (0 + basePoints)%Z in
          let newCurrentStreak :=
            if isSequential || (Scout.totalPredictions scout =? 0)%Z
            then (Scout.currentStreak scout + 1)%Z
            else 1%Z in
          let newLongestStreak :=
            if (Scout.longestStreak scout <? newCurrentStreak)%Z
            then newCurrentStreak
            else Scout.longestStreak scout in
          let pointsAwarded :=
            if (2 <=? newCurrentStreak)%Z
            then (pointsAwarded + 2 * (newCurrentStreak - 1))%Z
            else pointsAwarded in
          (pointsAwarded, newCurrentStreak, newLongestStreak)
        else (0%Z, 0%Z, Scout.longestStreak scout) in
      (pointsAwarded,
       updateScoutStats name (Scout.stakes scout + pointsAwarded)
         (Scout.correctPredictions scout + (if isCorrect then 1 else 0))
         (Scout.totalPredictions scout + 1)
         (Some newCurrentStreak) (Some newLongestStreak) pointsAwarded now
         scouts)
  end.

(** *** Definitions used to state the properties of the database functions *)

(** The entries of [newData] whose id is not the id of an existing entry. *)
Definition freshEntries (existingData newData : list DbEntry.t) : list DbEntry.t :=
  filter
    (fun e =>
       negb (existsb (String.eqb (DbEntry.id e)) (map DbEntry.id existingData)))
    newData.

(** The four outcomes of [detectConflicts] for one incoming entry. *)
Definition isNewEntry (db : Table.t DbEntry.t) (e : DbEntry.t) : bool :=
  match Table.get DbEntry.id (DbEntry.id e) db with
  | None => true
  | Some _ => false
  end.

Definition replacesExisting (db : Table.t DbEntry.t) (e : DbEntry.t) : bool :=
  match Table.get DbEntry.id (DbEntry.id e) db with
  | None => false
  | Some existing =>
      DbEntry.isCorrected e
      || (30000 <? DbEntry.timestamp e - DbEntry.timestamp existing)%Z
  end.

Definition isDropped (db : Table.t DbEntry.t) (e : DbEntry.t) : bool :=
  match Table.get DbEntry.id (DbEntry.id e) db with
  | None => false
  | Some existing =>
      negb (DbEntry.isCorrected e)
      && (DbEntry.timestamp e - DbEntry.timestamp existing <? -30000)%Z
  end.

Definition needsReview (db : Table.t DbEntry.t) (e : DbEntry.t)
    : option (DbEntry.t * DbEntry.t) :=
  match Table.get DbEntry.id (DbEntry.id e) db with
  | None => None
  | Some existing =>
      if negb (DbEntry.isCorrected e)
         && (DbEntry.timestamp e - DbEntry.timestamp existing <=? 30000)%Z
         && (-30000 <=? DbEntry.timestamp e - DbEntry.timestamp existing)%Z
      then Some (existing, e)
      else None
  end.

(** The last row of a list stored under a key. *)
Definition lastWithId (k : string) (entries : list DbEntry.t) : option DbEntry.t :=
  find (fun e => String.eqb (DbEntry.id e) k) (rev entries).

Module DbExample.

Local Open Scope string_scope.

Definition entry (i : string) (team : Z) (time : Z) (corrected : bool)
    : DbEntry.t :=
  DbEntry.mk i "Ada" team 7 "2026demo" red time corrected None.

Definition stored : list DbEntry.t :=
  [entry "e::qm7::1::red" 1 100000 false; entry "e::qm7::2::red" 2 100000 false].

Definition incoming : list DbEntry.t :=
  [entry "e::qm7::2::red" 2 130000 false; entry "e::qm7::3::red" 3 100000 false].

End DbExample.

(** The conditions of [queryScoutingEntries] on one entry. *)
Definition whenActive {A : Type} (xs : option (list A)) (test : list A -> bool)
    : bool :=
  match xs with
  | Some (x :: l) => test (x :: l)
  | _ => true
  end.

Definition satisfiesFilters (f : Query.filters) (e : DbEntry.t) : bool :=
  match Query.dateRange f with
  | Some (start, stop) =>
      (start <=? DbEntry.timestamp e)%Z && (DbEntry.timestamp e <=? stop)%Z
  | None => true
  end
  && whenActive (Query.teamNumbers f)
       (fun l =>
          negb (DbEntry.teamNumber e =? 0)%Z
          && existsb (Z.eqb (DbEntry.teamNumber e)) l)
  && whenActive (Query.matchNumbers f)
       (fun l =>
          negb (DbEntry.matchNumber e =? 0)%Z
          && existsb (Z.eqb (DbEntry.matchNumber e)) l)
  && whenActive (Query.eventKeys f)
       (fun l =>
          negb (String.eqb (DbEntry.eventKey e) "")
          && existsb (String.eqb (DbEntry.eventKey e)) l)
  && whenActive (Query.alliances f)
       (fun l => existsb (allianceEqb (DbEntry.allianceColor e)) l)
  && whenActive (Query.scoutName f)
       (fun l =>
          negb (String.eqb (DbEntry.scoutName e) "")
          && existsb (String.eqb (DbEntry.scoutName e)) l).

(** An empty list in a filter becomes an absent filter. *)
Definition dropEmptyLists (f : Query.filters) : Query.filters :=
  Query.mk (activeList (Query.teamNumbers f)) (activeList (Query.matchNumbers f))
    (activeList (Query.eventKeys f)) (activeList (Query.alliances f))
    (activeList (Query.scoutName f)) (Query.dateRange f).

Module ScoutExample.

Local Open Scope string_scope.

(** Bob: 40 stakes, 30 of them from predictions, 5 predictions of which 3
    correct, on a streak of 2, best streak 2. *)
Definition bob : Scout.t := Scout.mk "Bob" 40 30 5 3 2 2 1000 2000.

Definition scouts : Table.t Scout.t := [bob].

Definition lastVerified : list Prediction.t :=
  [Prediction.mk "Bob" "2026demo" "11" 1900 true].

End ScoutExample.

Module StatsExample.

Local Open Scope string_scope.

Definition e1 : DbEntry.t :=
  DbEntry.mk "a" "Ann" 254 2 "2026demo" red 5000 false None.
Definition e2 : DbEntry.t :=
  DbEntry.mk "b" "Bob" 118 1 "2026demo" blue 3000 false None.
Definition e3 : DbEntry.t :=
  DbEntry.mk "c" "Ann" 254 3 "2026demo" red 7000 false None.

Definition entries : list DbEntry.t := [e1; e2; e3].

End StatsExample.

(** The counters of a scout fit together: the current streak is at most
    the longest one, which is at most the number of correct predictions,
    which is at most the number of predictions. *)
Definition scoutConsistent (s : Scout.t) : Prop :=
  (0 <= Scout.currentStreak s)%Z
  /\ (Scout.currentStreak s <= Scout.longestStreak s)%Z
  /\ (Scout.longestStreak s <= Scout.correctPredictions s)%Z
  /\ (Scout.correctPredictions s <= Scout.totalPredictions s)%Z.

(** *** Definitions used to state further properties of the composer *)

Section EntryValues.

Variable Number_str : string -> num.

(** The entries of a team that hold usable production data. *)
Definition fuelEntriesOf (t : Z) (entries : list Entry.t) : list Entry.t :=
  filter (fun e => hasFuelData (gameDataOf e)) (entriesOf t entries).

(** The passing values of the entries of a team that hold passing data. *)
Definition passingValuesOf (t : Z) (entries : list Entry.t) : list num :=
  map (fun e => value (extractPassingValue Number_str (gameDataOf e)))
    (filter (fun e => hasData (extractPassingValue Number_str (gameDataOf e)))
       (entriesOf t entries)).

(** The schedule-strength values found in the entries of a team. *)
Definition sosValuesOf (t : Z) (entries : list Entry.t) : list num :=
  map Fin
    (filterSome
       (map (fun e => extractSosValue Number_str (gameDataOf e))
          (entriesOf t entries))).

(** An element of an action list counts as a pass. *)
Definition isPassAction (action : jsval) : bool :=
  JS.truthy action && JS.isObjectType action
  && (JS.isString (JS.get action "type") "pass"
      || JS.isString (JS.get action "type") "pass_alliance").

(** The amount of a pass action: the first of [amount], [count] and [value]
    that is not nullish, when it is a finite number, and 1 otherwise. *)
Definition passAmount (action : jsval) : num :=
  Fin (toFiniteNumber Number_str
         (JS.nullish (JS.get action "amount")
            (JS.nullish (JS.get action "count") (JS.get action "value")))
       ?? 1%Qc).

End EntryValues.

Module CorrectionExample.

Local Open Scope string_scope.

(** Two rows for team 2 in match 7 (one under an id of its own) and one
    row for team 1. *)
Definition stored : Table.t DbEntry.t :=
  [ DbExample.entry "e::qm7::1::red" 1 100000 false;
    DbExample.entry "e::qm7::2::red" 2 100000 false;
    DbExample.entry "entry_17" 2 90000 false ].

Definition newData : DbEntry.t := DbExample.entry "ignored" 2 120000 false.

End CorrectionExample.

Module PitExample.

Local Open Scope string_scope.

Definition entries : list PitEntry.t :=
  [ PitEntry.mk "p1" 254 "2026demo" "Ann" 1000;
    PitEntry.mk "p2" 254 "2026demo" "Bob" 3000;
    PitEntry.mk "p3" 118 "2026demo" "Ann" 2000 ].

End PitExample.

(** *** The CSV export of the rows table

    [toCsvValue] (lines 1067-1070), on the text [String(value)]. *)

(** The quotation mark. *)
Definition dquote : ascii := ascii_of_nat 34.

(** The [replace] call on the text: every quotation mark is doubled. *)
Fixpoint doubleQuotes (text : string) : string :=
  match text with
  | EmptyString => EmptyString
  | String ch rest =>
      if Ascii.eqb ch dquote
      then String dquote (String dquote (doubleQuotes rest))
      else String ch (doubleQuotes rest)
  end.

Definition toCsvValue (value : string) : string :=
  let text := doubleQuotes value in
  String dquote (String.append text (String dquote EmptyString)).

(** A reader of quoted CSV fields, used to state what the quoting
    preserves: after the opening quotation mark the field runs up to the
    first quotation mark that is not doubled; a doubled one stands for one
    quotation mark.  The result is the field and the unread text. *)
Fixpoint readQuoted (s : string) : option (string * string) :=
  match s with
  | EmptyString => None
  | String ch s' =>
      if Ascii.eqb ch dquote
      then
        match s' with
        | String ch' s'' =>
            if Ascii.eqb ch' dquote
            then option_map (fun fr => (String dquote (fst fr), snd fr))
                   (readQuoted s'')
            else Some (EmptyString, s')
        | EmptyString => Some (EmptyString, EmptyString)
        end
      else option_map (fun fr => (String ch (fst fr), snd fr)) (readQuoted s')
  end.

Definition readCsvField (s : string) : option (string * string) :=
  match s with
  | String ch body => if Ascii.eqb ch dquote then readQuoted body else None
  | EmptyString => None
  end.

Definition startsWithQuote (s : string) : bool :=
  match s with
  | String ch _ => Ascii.eqb ch dquote
  | EmptyString => false
  end.

#[local] Set Warnings "-inexact-float".

(** * The composer in double precision

    The same program once more, with every [number] an IEEE 754 binary64
    value (Rocq's primitive [float]): sums can overflow to an infinity,
    results are rounded, and the numbers found in the inputs include [NaN]
    and the infinities, which [typeof v === 'number'] accepts.  This copy
    serves to evaluate the program where the claims are decided by the
    double arithmetic itself; the definitions follow those above line by
    line.  Counters and team numbers stay integers, exact in a double below
    2^53. *)

Module Dbl.

Import PrimFloat.

Local Open Scope float_scope.

(** [Number.isFinite] *)
Definition isFinite (x : float) : bool := negb (is_nan x || is_infinity x).

(** The double of a counter and of an integer. *)
Definition ofNat (n : nat) : float := of_uint63 (Uint63.of_Z (Z.of_nat n)).

Definition ofZ (z : Z) : float :=
  if (z <? 0)%Z then - of_uint63 (Uint63.of_Z (- z)) else of_uint63 (Uint63.of_Z z).

(** [Math.max] and [Math.min] of two arguments: [NaN] when an argument is;
    [Math.abs]. *)
Definition Math_max (a b : float) : float :=
  if is_nan a || is_nan b then nan else if a <? b then b else a.

Definition Math_min (a b : float) : float :=
  if is_nan a || is_nan b then nan else if b <? a then b else a.

Definition Math_max3 (a b c : float) : float := Math_max (Math_max a b) c.

Definition Math_abs (a : float) : float := abs a.

(** ToBoolean on a number: [0], [-0] and [NaN] are falsy. *)
Definition truthy (a : float) : bool := negb (is_nan a || is_zero a).

(** [a || b] on numbers. *)
Definition orNum (a b : float) : float := if truthy a then a else b.

Inductive jsval : Type :=
| JUndefined
| JNull
| JBool (b : bool)
| JNum (x : float)
| JStr (s : string)
| JArr (items : list jsval)
| JObj (fields : list (string * jsval)).

Module JS.

Fixpoint lookup (k : string) (fs : list (string * jsval)) : jsval :=
  match fs with
  | [] => JUndefined
  | (k', v) :: fs' => if String.eqb k k' then v else lookup k fs'
  end.

(** [o?.k]: [undefined] when [o] is not an object or has no property [k]. *)
Definition get (o : jsval) (k : string) : jsval :=
  match o with
  | JObj fs => lookup k fs
  | _ => JUndefined
  end.

(** [a ?? b] *)
Definition nullish (a b : jsval) : jsval :=
  match a with
  | JUndefined | JNull => b
  | _ => a
  end.

(** [typeof v === 'number'] *)
Definition isNumber (v : jsval) : bool :=
  match v with JNum _ => true | _ => false end.

(** [typeof v === 'number' ? v : undefined] *)
Definition numberOrUndefined (v : jsval) : option float :=
  match v with JNum x => Some x | _ => None end.

(** [!v] is false: ToBoolean. *)
Definition truthyValue (v : jsval) : bool :=
  match v with
  | JUndefined | JNull => false
  | JBool b => b
  | JNum x => truthy x
  | JStr s => negb (String.eqb s "")
  | JArr _ | JObj _ => true
  end.

(** [typeof v === 'object'] *)
Definition isObjectType (v : jsval) : bool :=
  match v with
  | JNull | JArr _ | JObj _ => true
  | _ => false
  end.

(** [v === s] for a string literal [s] *)
Definition isString (v : jsval) (s : string) : bool :=
  match v with JStr s' => String.eqb s' s | _ => false end.

End JS.

(** A cached match: the fields of the match object that the composer reads. *)
Module TBAMatch.
Record t : Type := mk {
  comp_level : string;
  red_team_keys : list string;
  blue_team_keys : list string;
  score_breakdown : jsval
}.

(** [match.alliances[alliance].team_keys] *)
Definition team_keys (m : t) (a : Alliance) : list string :=
  match a with red => red_team_keys m | blue => blue_team_keys m end.
End TBAMatch.

(** A scouted entry: one team in one match. *)
Module Entry.
Record t : Type := mk {
  teamNumber : Z;
  gameData : jsval
}.
End Entry.

(** An element of [opr.teams], the result of the OPR solver. *)
Module Opr.
Record t : Type := mk {
  teamNumber : Z;
  autoFuelOPR : float;
  teleopFuelOPR : float;
  totalFuelOPR : float;
  matchesPlayed : nat
}.
End Opr.

(** [FuelOPRDisplayRow] *)
Record Row : Type := mkRowRecord {
  teamNumber : Z;
  matchesPlayed : nat;
  autoFuelOPR : float;
  teleopFuelOPR : float;
  totalFuelOPR : float;
  scaledAutoAvg : float;
  scaledTeleopAvg : float;
  scaledTotalAvg : float;
  confidenceScore : float;
  confidencePenalty : float;
  sosPenalty : float;
  hybridScorerIndex : float;
  assistImpact : float;
  defenseImpact : float;
  totalContributionIndex : float
}.

(** The per-team aggregates kept in [scaledByTeam], [passingByTeam],
    [sosByTeam] and [defenseByTeam]. *)
Record ScaledAgg : Type := mkScaled {
  matches : nat;
  autoSum : float;
  teleopSum : float;
  fuelDataMatches : nat
}.

Record PassingAgg : Type := mkPassing {
  passSum : float;
  passDataMatches : nat
}.

Record SosAgg : Type := mkSos {
  sum : float;
  count : nat
}.

Record DefenseAgg : Type := mkDefense {
  suppressionSum : float;
  samples : nat
}.

Record Aggregates : Type := mkAgg {
  scaledByTeam : OMap.t ScaledAgg;
  passingByTeam : OMap.t PassingAgg;
  sosByTeam : OMap.t SosAgg
}.

Record FuelCounts : Type := mkFuel {
  fuelAuto : float;
  fuelTeleop : float
}.

Record PassingValue : Type := mkPassingValue {
  value : float;
  hasData : bool
}.

Section Composer.

(** [Number(s)] on a string, a built-in of the language. *)
Variable Number_str : string -> float.


(** [parseFuelCounts] (lines 1379-1396) *)
Definition parseFuelCounts (gameData : jsval) : FuelCounts :=
  let auto := JS.get gameData "auto" in
  let teleop := JS.get gameData "teleop" in
  let autoFuel :=
    (JS.numberOrUndefined (JS.get auto "fuelScoredCount") ?|
     JS.numberOrUndefined (JS.get auto "fuelScored") ?|
     JS.numberOrUndefined (JS.get gameData "autoFuelScored")) ?? 0 in
  let teleopFuel :=
    (JS.numberOrUndefined (JS.get teleop "fuelScoredCount") ?|
     JS.numberOrUndefined (JS.get teleop "fuelScored") ?|
     JS.numberOrUndefined (JS.get gameData "teleopFuelScored")) ?? 0 in
  mkFuel autoFuel teleopFuel.

(** [toFiniteNumber] (lines 1451-1462); [None] is [null]. *)
Definition toFiniteNumber (value : jsval) : option float :=
  match value with
  | JNum x => if isFinite x then Some x else None
  | JStr s =>
      let parsed := Number_str s in
      if isFinite parsed then Some parsed else None
  | _ => None
  end.

(** [toFiniteNumber] applied to a value of type [number | null] that the
    code computed itself. *)
Definition toFiniteNumberN (value : option float) : option float :=
  match value with
  | Some x => if isFinite x then Some x else None
  | None => None
  end.

(** [extractSosValue] (lines 1464-1480) *)
Definition extractSosValue (gameData : jsval) : option float :=
  let direct :=
    toFiniteNumber
      (JS.nullish (JS.get gameData "strengthOfSchedule") (JS.get gameData "sos")) in
  match direct with
  | Some d => Some d
  | None =>
      let statbotics := JS.get gameData "statbotics" in
      if negb (JS.truthyValue statbotics) then None
      else
        toFiniteNumber
          (JS.nullish (JS.get statbotics "strengthOfSchedule")
             (JS.nullish (JS.get statbotics "sos")
                (JS.get statbotics "scheduleStrength")))
  end.

(** One turn of the loop of [sumActionPassAmounts]; the state is
    [(sum, hasPass)]. *)
Definition passActionStep (st : float * bool) (action : jsval) : float * bool :=
  if negb (JS.truthyValue action) || negb (JS.isObjectType action) then st
  else
    let type := JS.get action "type" in
    if negb (JS.isString type "pass") && negb (JS.isString type "pass_alliance")
    then st
    else
      let amount :=
        toFiniteNumber
          (JS.nullish (JS.get action "amount")
             (JS.nullish (JS.get action "count") (JS.get action "value"))) in
      (fst st + (amount ?? 1), true).

(** [sumActionPassAmounts] (lines 1482-1507) *)
Definition sumActionPassAmounts (actions : jsval) : option float :=
  match actions with
  | JArr items =>
      let '(sum, hasPass) := fold_left passActionStep items (0, false) in
      if hasPass then Some sum else None
  | _ => None
  end.

(** The probed alias fields of [extractPassingValue], in source order. *)
Definition passingFields (gameData : jsval) : list jsval :=
  let auto := JS.get gameData "auto" in
  let teleop := JS.get gameData "teleop" in
  [ JS.get auto "fuelPassedCount";
    JS.get teleop "fuelPassedCount";
    JS.get gameData "autoFuelPassed";
    JS.get gameData "teleopFuelPassed";
    JS.get gameData "autoFuelPassedCount";
    JS.get gameData "teleopFuelPassedCount";
    JS.get gameData "totalFuelPassed";
    JS.get gameData "fuelPassed";
    JS.get gameData "auto_fuel_neutral_alliance_pass";
    JS.get gameData "tele_fuel_neutral_alliance_pass";
    JS.get gameData "tele_fuel_opponent_alliance_pass";
    JS.get gameData "tele_fuel_opponent_neutral_pass";
    JS.get gameData "autoFuelNeutralAlliancePass";
    JS.get gameData "teleFuelNeutralAlliancePass";
    JS.get gameData "teleFuelOpponentAlliancePass";
    JS.get gameData "teleFuelOpponentNeutralPass";
    JS.get auto "fuelNeutralAlliancePass";
    JS.get auto "fuelOpponentAlliancePass";
    JS.get teleop "fuelNeutralAlliancePass";
    JS.get teleop "fuelOpponentAlliancePass";
    JS.get teleop "fuelOpponentNeutralPass" ].

Definition passingActionDerived (gameData : jsval) : list (option float) :=
  let auto := JS.get gameData "auto" in
  let teleop := JS.get gameData "teleop" in
  [ sumActionPassAmounts (JS.get gameData "autoActions");
    sumActionPassAmounts (JS.get gameData "teleopActions");
    sumActionPassAmounts (JS.get auto "actions");
    sumActionPassAmounts (JS.get teleop "actions") ].

(** [[...fields, ...actionDerived].map(toFiniteNumber)], before the filter. *)
Definition passingProbes (gameData : jsval) : list (option float) :=
  map toFiniteNumber (passingFields gameData)
  ++ map toFiniteNumberN (passingActionDerived gameData).

(** [extractPassingValue] (lines 1509-1554) *)
Definition extractPassingValue (gameData : jsval) : PassingValue :=
  let numericValues := filterSome (passingProbes gameData) in
  if Nat.eqb (List.length numericValues) 0 then mkPassingValue 0 false
  else
    let value := fold_left (fun sum v => sum + v) numericValues 0 in
    mkPassingValue value true.

(** [hasFuelData] of the entry loop (lines 1567-1578) *)
Definition hasFuelData (gameData : jsval) : bool :=
  let auto := JS.get gameData "auto" in
  let teleop := JS.get gameData "teleop" in
  let scaledMetrics := JS.get gameData "scaledMetrics" in
  let hasScaledAuto := JS.isNumber (JS.get scaledMetrics "scaledAutoFuel") in
  let hasScaledTeleop := JS.isNumber (JS.get scaledMetrics "scaledTeleopFuel") in
  let hasRawAuto :=
    JS.isNumber (JS.get auto "fuelScoredCount")
    || JS.isNumber (JS.get auto "fuelScored")
    || JS.isNumber (JS.get gameData "autoFuelScored") in
  let hasRawTeleop :=
    JS.isNumber (JS.get teleop "fuelScoredCount")
    || JS.isNumber (JS.get teleop "fuelScored")
    || JS.isNumber (JS.get gameData "teleopFuelScored") in
  hasScaledAuto || hasScaledTeleop || hasRawAuto || hasRawTeleop.

(** [scaledAuto] and [scaledTeleop] of the entry loop (lines 1580-1585) *)
Definition scaledFuel (gameData : jsval) : FuelCounts :=
  let scaledMetrics := JS.get gameData "scaledMetrics" in
  let rawFuel := parseFuelCounts gameData in
  let hasScaledAuto := JS.isNumber (JS.get scaledMetrics "scaledAutoFuel") in
  let hasScaledTeleop := JS.isNumber (JS.get scaledMetrics "scaledTeleopFuel") in
  let scaledAuto :=
    if hasScaledAuto
    then JS.numberOrUndefined (JS.get scaledMetrics "scaledAutoFuel")
         ?? fuelAuto rawFuel
    else fuelAuto rawFuel in
  let scaledTeleop :=
    if hasScaledTeleop
    then JS.numberOrUndefined (JS.get scaledMetrics "scaledTeleopFuel")
         ?? fuelTeleop rawFuel
    else fuelTeleop rawFuel in
  mkFuel scaledAuto scaledTeleop.

Definition emptyAggregates : Aggregates :=
  mkAgg (OMap.empty _) (OMap.empty _) (OMap.empty _).

(** The body of [for (const entry of entries)] (lines 1556-1611) *)
Definition aggregateEntry (st : Aggregates) (entry : Entry.t) : Aggregates :=
  let team := Entry.teamNumber entry in
  let gameData := JS.nullish (Entry.gameData entry) (JObj []) in
  let hasFuel := hasFuelData gameData in
  let scaled := scaledFuel gameData in
  let current := OMap.get team (scaledByTeam st) ?? mkScaled 0 0 0 0 in
  let current :=
    if hasFuel
    then mkScaled (matches current + 1)
           (autoSum current + fuelAuto scaled)
           (teleopSum current + fuelTeleop scaled)
           (fuelDataMatches current + 1)
    else mkScaled (matches current + 1) (autoSum current) (teleopSum current)
           (fuelDataMatches current) in
  let scaledByTeam' := OMap.set team current (scaledByTeam st) in
  let passing := extractPassingValue gameData in
  let passCurrent := OMap.get team (passingByTeam st) ?? mkPassing 0 0 in
  let passCurrent :=
    if hasData passing
    then mkPassing (passSum passCurrent + value passing)
           (passDataMatches passCurrent + 1)
    else passCurrent in
  let passingByTeam' := OMap.set team passCurrent (passingByTeam st) in
  let sosValue := extractSosValue gameData in
  let sosByTeam' :=
    match sosValue with
    | Some v =>
        let sosCurrent := OMap.get team (sosByTeam st) ?? mkSos 0 0 in
        OMap.set team (mkSos (sum sosCurrent + v) (count sosCurrent + 1))
          (sosByTeam st)
    | None => sosByTeam st
    end in
  mkAgg scaledByTeam' passingByTeam' sosByTeam'.

Definition aggregateEntries (entries : list Entry.t) : Aggregates :=
  fold_left aggregateEntry entries emptyAggregates.

(** [new Map(oprRows.map(team => [team.teamNumber, team]))] *)
Definition oprByTeamOf (oprRows : list Opr.t) : OMap.t Opr.t :=
  fold_left (fun m team => OMap.set (Opr.teamNumber team) team m) oprRows
    (OMap.empty _).

(** [eligibleMatches] (line 1617) *)
Definition eligibleMatchesOf (fuelOprIncludePlayoffs : bool)
    (cachedMatches : list TBAMatch.t) : list TBAMatch.t :=
  filter
    (fun m => fuelOprIncludePlayoffs || String.eqb (TBAMatch.comp_level m) "qm")
    cachedMatches.

(** [getObservedTotal] (lines 1619-1625) *)
Definition getObservedTotal (m : TBAMatch.t) (alliance : Alliance) : float :=
  let scoreBreakdown := TBAMatch.score_breakdown m in
  toFiniteNumber
    (JS.get (JS.get (JS.get scoreBreakdown (allianceName alliance)) "hubScore")
       "totalCount")
  ?? 0.

(** [getAllianceTeams] (lines 1627-1631): keys whose number is [NaN] are
    filtered out. *)
Definition getAllianceTeams (m : TBAMatch.t) (alliance : Alliance) : list Z :=
  filterSome
    (map (fun key => Str.parseInt10 (Str.removeFirst "frc" key))
       (TBAMatch.team_keys m alliance)).

Definition opponentOf (alliance : Alliance) : Alliance :=
  match alliance with red => blue | blue => red end.

Section BuildRows.

Variable agg : Aggregates.
Variable cachedMatches : list TBAMatch.t.
Variable fuelOprIncludePlayoffs : bool.
Variable oprRows : list Opr.t.

Definition oprByTeam : OMap.t Opr.t := oprByTeamOf oprRows.

Definition eligibleMatches : list TBAMatch.t :=
  eligibleMatchesOf fuelOprIncludePlayoffs cachedMatches.

(** [expectedOpponentFuel] (lines 1640-1642) *)
Definition expectedFuel (opponentTeams : list Z) : float :=
  fold_left
    (fun sum teamNumber =>
       sum + (option_map Opr.totalFuelOPR
                (OMap.get teamNumber oprByTeam) ?? 0))
    opponentTeams 0.

(** [perTeamSuppression] for one alliance of one match (lines 1635-1645) *)
Definition perTeamSuppressionOf (m : TBAMatch.t) (alliance : Alliance) : float :=
  let defendingTeams := getAllianceTeams m alliance in
  let opponentAlliance := opponentOf alliance in
  let opponentTeams := getAllianceTeams m opponentAlliance in
  let observedOpponentFuel := getObservedTotal m opponentAlliance in
  let expectedOpponentFuel := expectedFuel opponentTeams in
  let suppression := expectedOpponentFuel - observedOpponentFuel in
  if Nat.ltb 0 (List.length defendingTeams)
  then suppression / ofNat (List.length defendingTeams)
  else 0.

(** The inner loop over [defendingTeams] (lines 1647-1652) *)
Definition creditTeam (perTeamSuppression : float)
    (defenseByTeam : OMap.t DefenseAgg) (teamNumber : Z) : OMap.t DefenseAgg :=
  let current := OMap.get teamNumber defenseByTeam ?? mkDefense 0 0 in
  OMap.set teamNumber
    (mkDefense (suppressionSum current + perTeamSuppression)
       (samples current + 1))
    defenseByTeam.

(** The body of [for (const alliance of ['red', 'blue'])] *)
Definition creditAlliance (m : TBAMatch.t)
    (defenseByTeam : OMap.t DefenseAgg) (alliance : Alliance)
    : OMap.t DefenseAgg :=
  fold_left (creditTeam (perTeamSuppressionOf m alliance))
    (getAllianceTeams m alliance) defenseByTeam.

(** The body of [for (const match of eligibleMatches)] *)
Definition creditMatch (defenseByTeam : OMap.t DefenseAgg) (m : TBAMatch.t)
    : OMap.t DefenseAgg :=
  fold_left (creditAlliance m) [red; blue] defenseByTeam.

Definition defenseByTeam : OMap.t DefenseAgg :=
  fold_left creditMatch eligibleMatches (OMap.empty _).

(** [allTeamNumbers] (lines 1656-1661), as the array [[...allTeamNumbers]] *)
Definition allTeamNumbers : list Z :=
  OSet.ofList
    (OMap.keys oprByTeam ++ OMap.keys (scaledByTeam agg)
     ++ OMap.keys (passingByTeam agg) ++ OMap.keys defenseByTeam).

(** The penalties of the confidence score (lines 1687-1702) *)
Definition clamp01 (x : float) : float := Math_max 0 (Math_min 1 x).

Definition sosPenaltyOf (teamNumber : Z) : float :=
  let sosAggregate := OMap.get teamNumber (sosByTeam agg) in
  let avgSos :=
    match sosAggregate with
    | Some a => if Nat.ltb 0 (count a) then Some (sum a / ofNat (count a)) else None
    | None => None
    end in
  match avgSos with
  | Some avg => Math_max 0 (Math_min 1 (avg / 6))
  | None => 0
  end.

Definition matchPenaltyOf (matchesPlayed : nat) : float :=
  let targetMatches := 6 in
  Math_max 0 ((targetMatches - ofNat matchesPlayed) / targetMatches).

Definition gapPenaltyOf (hasScaledFuelData : bool)
    (totalFuelOPR scaledTotalAvg : float) : float :=
  let gap := Math_abs (totalFuelOPR - scaledTotalAvg) in
  let scaleBase := Math_max3 1 (Math_abs totalFuelOPR) (Math_abs scaledTotalAvg) in
  if hasScaledFuelData then Math_max 0 (Math_min 1 (gap / scaleBase)) else 0.

Definition missingScaledPenaltyOf (hasScaledFuelData : bool) : float :=
  if hasScaledFuelData then 0 else 0.6.

(** The callback of [.map(teamNumber => ...)] (lines 1664-1737) *)
Definition mkRow (teamNumber : Z) : Row :=
  let oprTeam := OMap.get teamNumber oprByTeam in
  let scaledTeam := OMap.get teamNumber (scaledByTeam agg) in
  let matchesPlayed :=
    Nat.max (option_map Opr.matchesPlayed oprTeam ?? 0%nat)
      (option_map matches scaledTeam ?? 0%nat) in
  let fuelDataMatches := option_map fuelDataMatches scaledTeam ?? 0%nat in
  let hasScaledFuelData := Nat.ltb 0 fuelDataMatches in
  let scaledAutoAvg :=
    if hasScaledFuelData
    then (option_map autoSum scaledTeam ?? 0) / ofNat fuelDataMatches
    else 0 in
  let scaledTeleopAvg :=
    if hasScaledFuelData
    then (option_map teleopSum scaledTeam ?? 0) / ofNat fuelDataMatches
    else 0 in
  let scaledTotalAvg := scaledAutoAvg + scaledTeleopAvg in
  let totalFuelOPR :=
    option_map Opr.totalFuelOPR oprTeam ?? 0 in
  let passingAggregate := OMap.get teamNumber (passingByTeam agg) in
  let hasPassingData :=
    Nat.ltb 0 (option_map passDataMatches passingAggregate ?? 0%nat) in
  let passingAvg :=
    if hasPassingData
    then (option_map passSum passingAggregate ?? 0)
         / ofNat (option_map passDataMatches passingAggregate ?? 1%nat)
    else 0 in
  let defenseAggregate := OMap.get teamNumber defenseByTeam in
  let defenseImpact :=
    match defenseAggregate with
    | Some d =>
        if Nat.ltb 0 (samples d)
        then suppressionSum d / ofNat (samples d)
        else 0
    | None => 0
    end in
  let assistImpact := passingAvg in
  let sosPenalty := sosPenaltyOf teamNumber in
  let matchPenalty := matchPenaltyOf matchesPlayed in
  let gapPenalty := gapPenaltyOf hasScaledFuelData totalFuelOPR scaledTotalAvg in
  let missingScaledPenalty := missingScaledPenaltyOf hasScaledFuelData in
  let confidencePenalty :=
    Math_max 0
      (Math_min 1
         (0.35 * matchPenalty + 0.25 * gapPenalty + 0.15 * sosPenalty
          + 0.25 * missingScaledPenalty)) in
  let confidenceScore := 1 - confidencePenalty in
  let hybridBase :=
    if hasScaledFuelData
    then 0.6 * scaledTotalAvg + 0.4 * totalFuelOPR
    else totalFuelOPR in
  let hybridScorerIndex := hybridBase * confidenceScore in
  let assistComponent := if hasPassingData then assistImpact * 0.2 else 0 in
  let defenseComponent := defenseImpact * 0.2 in
  let totalContributionIndex :=
    hybridScorerIndex + assistComponent + defenseComponent in
  {| teamNumber := teamNumber;
     matchesPlayed := matchesPlayed;
     autoFuelOPR := option_map Opr.autoFuelOPR oprTeam ?? 0;
     teleopFuelOPR :=
       option_map Opr.teleopFuelOPR oprTeam ?? 0;
     totalFuelOPR := totalFuelOPR;
     scaledAutoAvg := scaledAutoAvg;
     scaledTeleopAvg := scaledTeleopAvg;
     scaledTotalAvg := scaledTotalAvg;
     confidenceScore := confidenceScore;
     confidencePenalty := confidencePenalty;
     sosPenalty := sosPenalty;
     hybridScorerIndex := hybridScorerIndex;
     assistImpact := assistImpact;
     defenseImpact := defenseImpact;
     totalContributionIndex := totalContributionIndex |}.

End BuildRows.

(** The comparator of the final sort (line 1738) *)
Definition compareRows (a b : Row) : float :=
  orNum
    (orNum (totalContributionIndex b - totalContributionIndex a)
       (hybridScorerIndex b - hybridScorerIndex a))
    (ofZ (teamNumber a) - ofZ (teamNumber b)).

(** [Array.prototype.sort(cmp)]: stable insertion; an element moves behind
    its neighbour only when the comparator is positive. *)
Fixpoint insertRow (cmp : Row -> Row -> float) (x : Row) (l : list Row) : list Row :=
  match l with
  | [] => [x]
  | y :: l' =>
      if 0 <? cmp x y then y :: insertRow cmp x l' else x :: l
  end.

Definition sortRows (cmp : Row -> Row -> float) (l : list Row) : list Row :=
  fold_right (insertRow cmp) [] l.

(** [buildRows] (lines 1613-1739) *)
Definition buildRows (agg : Aggregates) (cachedMatches : list TBAMatch.t)
    (fuelOprIncludePlayoffs : bool) (oprRows : list Opr.t) : list Row :=
  sortRows compareRows
    (map (mkRow agg cachedMatches fuelOprIncludePlayoffs oprRows)
       (allTeamNumbers agg cachedMatches fuelOprIncludePlayoffs oprRows)).

(** The rows that [loadFuelOprData] computes from the cached matches, the
    scouted entries and one OPR result. *)
Definition fuelOprRows (cachedMatches : list TBAMatch.t)
    (entries : list Entry.t) (fuelOprIncludePlayoffs : bool)
    (oprRows : list Opr.t) : list Row :=
  buildRows (aggregateEntries entries) cachedMatches fuelOprIncludePlayoffs
    oprRows.

End Composer.

(** The order of the final list, as the specification words it, with the
    comparisons of doubles: an earlier row has the greater
    [totalContributionIndex], or the same and the greater
    [hybridScorerIndex], or the same on both and the smaller team number. *)
Definition rowBefore (a b : Row) : bool :=
  (totalContributionIndex b <? totalContributionIndex a)
  || ((totalContributionIndex a =? totalContributionIndex b)
      && (hybridScorerIndex b <? hybridScorerIndex a))
  || ((totalContributionIndex a =? totalContributionIndex b)
      && (hybridScorerIndex a =? hybridScorerIndex b)
      && (teamNumber a <? teamNumber b)%Z).

End Dbl.

(** An event of six qualification matches with the same alliances; the OPR
    result lists each of the four teams with six matches.  Team 1 has one
    scouted entry, whose scaled fuel counts are finite but huge; the other
    teams have none. *)
Module DblExample.

Import PrimFloat.

Local Open Scope float_scope.
Local Open Scope string_scope.

Definition Number_str (s : string) : float := nan.

Definition breakdown (redTotal blueTotal : float) : Dbl.jsval :=
  Dbl.JObj
    [("red", Dbl.JObj [("hubScore", Dbl.JObj [("totalCount", Dbl.JNum redTotal)])]);
     ("blue", Dbl.JObj [("hubScore", Dbl.JObj [("totalCount", Dbl.JNum blueTotal)])])].

Definition qm : Dbl.TBAMatch.t :=
  Dbl.TBAMatch.mk "qm" ["frc1"; "frc2"] ["frc3"; "frc4"] (breakdown 10 20).

Definition matches6 : list Dbl.TBAMatch.t := [qm; qm; qm; qm; qm; qm].

Definition huge : float := 1.797e308.

Definition hugeEntry (team : Z) : Dbl.Entry.t :=
  Dbl.Entry.mk team
    (Dbl.JObj
       [("scaledMetrics",
         Dbl.JObj [("scaledAutoFuel", Dbl.JNum huge);
                   ("scaledTeleopFuel", Dbl.JNum huge)])]).

Definition oprs4 : list Dbl.Opr.t :=
  [ Dbl.Opr.mk 1 1 5 6 6;
    Dbl.Opr.mk 2 1 2 3 6;
    Dbl.Opr.mk 3 2 9 11 6;
    Dbl.Opr.mk 4 0 4 4 6 ].

(** The rows when the huge entry is for [team], and one of them. *)
Definition rows (team : Z) : list Dbl.Row :=
  Dbl.fuelOprRows Number_str matches6 [hugeEntry team] true oprs4.

Definition rowOf (team t : Z) : Dbl.Row :=
  Dbl.mkRow Number_str (Dbl.aggregateEntries Number_str [hugeEntry team])
    matches6 true oprs4 t.

(** The rows without any scouted entry. *)
Definition plainRows : list Dbl.Row :=
  Dbl.fuelOprRows Number_str matches6 [] true oprs4.

End DblExample.


(** ** Ordered maps and sets *)

Module OMapFacts.

Section Facts.
Variable V : Type.
Implicit Types (m : OMap.t V) (k : Z) (v : V).

Lemma get_set_same m k v : OMap.get k (OMap.set k v m) = Some v.
Proof.
  induction m as [|[k' v'] m IH]; simpl.
  - now rewrite Z.eqb_refl.
  - destruct (Z.eqb k k') eqn:E; simpl.
    + now rewrite Z.eqb_refl.
    + now rewrite E.
Qed.

Lemma get_set_other m k k' v :
  k <> k' -> OMap.get k' (OMap.set k v m) = OMap.get k' m.
Proof.
  intros Hne. induction m as [|[k0 v0] m IH]; simpl.
  - destruct (Z.eqb_spec k' k); congruence.
  - destruct (Z.eqb_spec k k0) as [->|Hk]; simpl.
    + destruct (Z.eqb_spec k' k0); congruence.
    + destruct (Z.eqb_spec k' k0); auto.
Qed.

Lemma get_keys m k : In k (OMap.keys m) <-> OMap.get k m <> None.
Proof.
  unfold OMap.keys. induction m as [|[k0 v0] m IH]; simpl.
  - intuition.
  - destruct (Z.eqb_spec k k0) as [->|Hk].
    + split; [discriminate | auto].
    + rewrite <- IH. intuition congruence.
Qed.

End Facts.

End OMapFacts.

Module OSetFacts.

Lemma mem_In k s : OSet.mem k s = true <-> In k s.
Proof.
  unfold OSet.mem. rewrite existsb_exists. split.
  - intros [x [Hx He]]. apply Z.eqb_eq in He. now subst.
  - intros H. exists k. split; [assumption | apply Z.eqb_refl].
Qed.

Lemma add_In s k k' : In k' (OSet.add s k) <-> In k' s \/ k' = k.
Proof.
  unfold OSet.add. destruct (OSet.mem k s) eqn:E.
  - apply mem_In in E. intuition congruence.
  - rewrite in_app_iff. simpl. intuition.
Qed.

Lemma add_NoDup s k : NoDup s -> NoDup (OSet.add s k).
Proof.
  intros Hs. unfold OSet.add. destruct (OSet.mem k s) eqn:E; [assumption|].
  assert (~ In k s) as Hk by (rewrite <- mem_In; congruence).
  clear E. induction Hs as [|x s Hx Hs IH]; simpl.
  - constructor; [intros [] | constructor].
  - constructor.
    + rewrite in_app_iff. simpl in *. intuition.
    + apply IH. simpl in Hk. intuition.
Qed.

Lemma fold_add_In l : forall s k,
  In k (fold_left OSet.add l s) <-> In k s \/ In k l.
Proof.
  induction l as [|x l IH]; intros s k; simpl.
  - intuition.
  - rewrite IH, add_In. intuition.
Qed.

Lemma fold_add_NoDup l : forall s, NoDup s -> NoDup (fold_left OSet.add l s).
Proof.
  induction l as [|x l IH]; intros s Hs; simpl; auto using add_NoDup.
Qed.

Lemma ofList_In l k : In k (OSet.ofList l) <-> In k l.
Proof. unfold OSet.ofList. rewrite fold_add_In. simpl. intuition. Qed.

Lemma ofList_NoDup l : NoDup (OSet.ofList l).
Proof. apply fold_add_NoDup. constructor. Qed.

End OSetFacts.

(** ** Arithmetic of [num] *)

Module NumFacts.

Local Open Scope Qc_scope.

(** Goals on canonical rationals are moved to [Q], where [lra] decides
    them. *)
Ltac qc2q :=
  unfold Qcle, Qclt, Qcplus, Qcopp, Qcminus, Qcmult, Q2Qc in *;
  cbn [this] in *;
  repeat rewrite Qred_correct in *.

Lemma fin_inv a : fin a -> exists q, a = Fin q.
Proof. destruct a; try discriminate. eauto. Qed.

Lemma fin_Fin q : fin (Fin q).
Proof. reflexivity. Qed.

Lemma inUnit_fin a : inUnit a -> fin a.
Proof. intros (q & -> & _). reflexivity. Qed.

Lemma mul_comm a b : Num.mul a b = Num.mul b a.
Proof.
  destruct a, b; simpl; try reflexivity.
  f_equal. apply Qcmult_comm.
Qed.

Lemma fin_add a b : fin a -> fin b -> fin (Num.add a b).
Proof. destruct a, b; simpl; auto; discriminate. Qed.

Lemma fin_sub a b : fin a -> fin b -> fin (Num.sub a b).
Proof. destruct a, b; simpl; auto; discriminate. Qed.

Lemma fin_mul a b : fin a -> fin b -> fin (Num.mul a b).
Proof. destruct a, b; simpl; auto; discriminate. Qed.

Lemma fin_abs a : fin a -> fin (Num.abs a).
Proof. destruct a; simpl; auto; discriminate. Qed.

Lemma fin_max a b : fin a -> fin b -> fin (Num.max a b).
Proof.
  destruct a, b; try discriminate. intros _ _. unfold Num.max.
  destruct (Num.gt (Fin q0) (Fin q)); reflexivity.
Qed.

Lemma fin_min a b : fin a -> fin b -> fin (Num.min a b).
Proof.
  destruct a, b; try discriminate. intros _ _. unfold Num.min.
  destruct (Num.gt (Fin q) (Fin q0)); reflexivity.
Qed.

Lemma gt_Fin x y : Num.gt (Fin x) (Fin y) = true <-> y < x.
Proof.
  simpl. pose proof (Qcgt_alt x y) as H. cbv beta in H.
  change (y < x)%Q with (y < x) in H. rewrite H.
  destruct (x ?= y); intuition discriminate.
Qed.

Lemma gt_Fin_false x y : Num.gt (Fin x) (Fin y) = false <-> x <= y.
Proof.
  rewrite <- not_true_iff_false, gt_Fin. split.
  - apply Qcnot_lt_le.
  - apply Qcle_not_lt.
Qed.

Lemma ofNat_pos n : (0 < n)%nat -> exists q, ofNat n = Fin q /\ 0 < q.
Proof.
  intros Hn. eexists. split; [reflexivity|].
  qc2q. change 0%Q with (inject_Z 0). rewrite <- Zlt_Qlt. lia.
Qed.

(** A finite value divided by a positive finite value is finite: the
    guarded divisions of the composer never leave the rationals. *)
Lemma div_Fin_pos x y : 0 < y -> Num.div (Fin x) (Fin y) = Fin (x / y).
Proof.
  intros Hy. simpl. destruct (y ?= 0) eqn:E; try reflexivity.
  apply Qceq_alt in E. subst. exfalso. revert Hy. qc2q. lra.
Qed.

Lemma fin_div_nat a n : fin a -> (0 < n)%nat -> fin (Num.div a (ofNat n)).
Proof.
  intros Ha Hn. apply fin_inv in Ha as [x ->].
  destruct (ofNat_pos Hn) as (y & -> & Hy). now rewrite div_Fin_pos.
Qed.

Lemma fin_div_six a : fin a -> fin (Num.div a (ofZ 6)).
Proof.
  intros Ha. apply fin_inv in Ha as [x ->]. unfold ofZ.
  rewrite div_Fin_pos; [reflexivity|]. apply Qclt_alt. reflexivity.
Qed.

Lemma max3_one_ge a b :
  fin a -> fin b -> exists q, Num.max3 one a b = Fin q /\ 1 <= q.
Proof.
  intros Ha Hb. apply fin_inv in Ha as [x ->]. apply fin_inv in Hb as [y ->].
  unfold Num.max3, one.
  assert (exists p, Num.max (Fin 1) (Fin x) = Fin p /\ 1 <= p) as (p & -> & Hp).
  { unfold Num.max. destruct (Num.gt (Fin x) (Fin 1)) eqn:E.
    - apply gt_Fin in E. eexists; split; [reflexivity|]. now apply Qclt_le_weak.
    - eexists; split; [reflexivity|]. apply Qcle_refl. }
  unfold Num.max. destruct (Num.gt (Fin y) (Fin p)) eqn:E.
  - apply gt_Fin in E. eexists; split; [reflexivity|].
    apply Qclt_le_weak. eapply Qcle_lt_trans; eassumption.
  - eexists; split; [reflexivity | assumption].
Qed.

Lemma clamp_inUnit a : fin a -> inUnit (Num.max zero (Num.min one a)).
Proof.
  intros Ha. apply fin_inv in Ha as [x ->]. unfold Num.min, one, zero.
  destruct (Num.gt (Fin 1) (Fin x)) eqn:E1; unfold Num.max.
  - apply gt_Fin in E1. destruct (Num.gt (Fin x) (Fin 0)) eqn:E2.
    + apply gt_Fin in E2. exists x. repeat split; now apply Qclt_le_weak.
    + exists 0. repeat split; qc2q; lra.
  - destruct (Num.gt (Fin 1) (Fin 0)) eqn:E2.
    + exists 1. repeat split; qc2q; lra.
    + exists 0. repeat split; qc2q; lra.
Qed.

Lemma one_sub_inUnit a : inUnit a -> inUnit (Num.sub one a).
Proof.
  intros (p & -> & H0 & H1). exists (1 + - p). split; [reflexivity|].
  qc2q. lra.
Qed.

(** [1 - (1 - p) = p] in exact arithmetic. *)
Lemma one_sub_one_sub a : fin a -> Num.sub one (Num.sub one a) = a.
Proof.
  intros Ha. apply fin_inv in Ha as [p ->]. simpl. f_equal. ring.
Qed.

Lemma eqb_eq a b : Num.eqb a b = true -> a = b.
Proof.
  destruct a, b; simpl; try discriminate; try reflexivity.
  intros H. f_equal. apply Qc_is_canon. now apply Qeq_bool_eq.
Qed.

End NumFacts.

(** ** Per-team view of the aggregation loops *)

Section PerTeam.

Variable Number_str : string -> num.

Local Open Scope num_scope.

Lemma aggregate_scaled t : forall entries st,
  OMap.get t (scaledByTeam (fold_left (aggregateEntry Number_str) entries st))
  = fold_left scaledStep (entriesOf t entries) (OMap.get t (scaledByTeam st)).
Proof.
  induction entries as [|e es IH]; intros st; [reflexivity|].
  cbn [fold_left]. rewrite IH. unfold entriesOf. cbn [filter].
  unfold aggregateEntry at 1. cbn [scaledByTeam].
  destruct (Z.eqb_spec (Entry.teamNumber e) t) as [<-|Hne].
  - cbn [fold_left]. now rewrite OMapFacts.get_set_same.
  - now rewrite OMapFacts.get_set_other.
Qed.

Lemma aggregate_passing t : forall entries st,
  OMap.get t (passingByTeam (fold_left (aggregateEntry Number_str) entries st))
  = fold_left (passingStep Number_str) (entriesOf t entries) (OMap.get t (passingByTeam st)).
Proof.
  induction entries as [|e es IH]; intros st; [reflexivity|].
  cbn [fold_left]. rewrite IH. unfold entriesOf. cbn [filter].
  unfold aggregateEntry at 1. cbn [passingByTeam].
  destruct (Z.eqb_spec (Entry.teamNumber e) t) as [<-|Hne].
  - cbn [fold_left]. now rewrite OMapFacts.get_set_same.
  - now rewrite OMapFacts.get_set_other.
Qed.

Lemma aggregate_sos t : forall entries st,
  OMap.get t (sosByTeam (fold_left (aggregateEntry Number_str) entries st))
  = fold_left (sosStep Number_str) (entriesOf t entries) (OMap.get t (sosByTeam st)).
Proof.
  induction entries as [|e es IH]; intros st; [reflexivity|].
  cbn [fold_left]. rewrite IH. unfold entriesOf. cbn [filter].
  unfold aggregateEntry at 1. cbn [sosByTeam].
  fold (gameDataOf e).
  destruct (Z.eqb_spec (Entry.teamNumber e) t) as [<-|Hne].
  - cbn [fold_left]. unfold sosStep.
    destruct (extractSosValue Number_str (gameDataOf e)); [|reflexivity].
    now rewrite OMapFacts.get_set_same.
  - destruct (extractSosValue Number_str (gameDataOf e)); [|reflexivity].
    now rewrite OMapFacts.get_set_other.
Qed.

(** Keys: a team has a slot in [scaledByTeam] and in [passingByTeam] exactly
    when it has an entry. *)
Lemma scaledStep_fold_Some l : forall x,
  fold_left scaledStep l (Some x) <> None.
Proof.
  induction l as [|e l IH]; intros x; [discriminate|].
  cbn [fold_left]. unfold scaledStep at 2. apply IH.
Qed.

Lemma scaledStep_fold_None l :
  fold_left scaledStep l None = None <-> l = [].
Proof.
  split; [|intros ->; reflexivity].
  destruct l as [|e l]; [reflexivity|]. cbn [fold_left].
  unfold scaledStep at 2. intros H. now apply scaledStep_fold_Some in H.
Qed.

Lemma passingStep_fold_Some l : forall x,
  fold_left (passingStep Number_str) l (Some x) <> None.
Proof.
  induction l as [|e l IH]; intros x; [discriminate|].
  cbn [fold_left]. unfold passingStep at 2. apply IH.
Qed.

Lemma passingStep_fold_None l :
  fold_left (passingStep Number_str) l None = None <-> l = [].
Proof.
  split; [|intros ->; reflexivity].
  destruct l as [|e l]; [reflexivity|]. cbn [fold_left].
  unfold passingStep at 2. intros H. now apply passingStep_fold_Some in H.
Qed.

(** Counters and sums of the scaled slot. *)
Lemma scaledStep_facts cur e :
  option_map matches (scaledStep cur e) ?? 0%nat
    = S (option_map matches cur ?? 0%nat)
  /\ option_map fuelDataMatches (scaledStep cur e) ?? 0%nat
    = ((if hasFuelData (gameDataOf e) then 1 else 0)
       + option_map fuelDataMatches cur ?? 0)%nat
  /\ (Num.fin (option_map autoSum cur ?? zero) ->
      Num.fin (option_map autoSum (scaledStep cur e) ?? zero))
  /\ (Num.fin (option_map teleopSum cur ?? zero) ->
      Num.fin (option_map teleopSum (scaledStep cur e) ?? zero)).
Proof.
  unfold scaledStep.
  destruct (hasFuelData (gameDataOf e)); destruct cur as [cu|];
    cbn [option_map orElse matches fuelDataMatches autoSum teleopSum];
    (split; [lia | split; [lia | split; intros H]]);
    try assumption; apply NumFacts.fin_add; auto using NumFacts.fin_Fin.
Qed.

Lemma scaledStep_fold_counts l : forall cur,
  let r := fold_left scaledStep l cur in
  option_map matches r ?? 0%nat
    = (option_map matches cur ?? 0 + List.length l)%nat
  /\ option_map fuelDataMatches r ?? 0%nat
    = (option_map fuelDataMatches cur ?? 0
       + List.length (filter (fun e => hasFuelData (gameDataOf e)) l))%nat
  /\ (Num.fin (option_map autoSum cur ?? zero) ->
      Num.fin (option_map autoSum r ?? zero))
  /\ (Num.fin (option_map teleopSum cur ?? zero) ->
      Num.fin (option_map teleopSum r ?? zero)).
Proof.
  induction l as [|e l IH]; intros cur; cbn [fold_left].
  - cbn. split; [lia | split; [lia | split; auto]].
  - specialize (IH (scaledStep cur e)). cbv zeta in IH |- *.
    destruct IH as (IH1 & IH2 & IH3 & IH4).
    destruct (scaledStep_facts cur e) as (S1 & S2 & S3 & S4).
    rewrite IH1, IH2, S1, S2. cbn [filter].
    destruct (hasFuelData (gameDataOf e)); cbn [List.length];
      (split; [lia | split; [lia | split; auto]]).
Qed.

Lemma passingValue_fin gd : Num.fin (value (extractPassingValue Number_str gd)).
Proof.
  unfold extractPassingValue.
  destruct (Nat.eqb _ 0); cbn [value]; [reflexivity|].
  generalize (filterSome (passingProbes Number_str gd)). intros l.
  assert (forall a, Num.fin a ->
            Num.fin (fold_left (fun sum v => sum + Fin v) l a)) as H.
  { induction l as [|x l IH]; intros a Ha; cbn [fold_left]; [assumption|].
    apply IH. apply NumFacts.fin_add; auto using NumFacts.fin_Fin. }
  apply H. reflexivity.
Qed.

Lemma passingStep_facts cur e :
  option_map passDataMatches (passingStep Number_str cur e) ?? 0%nat
    = ((if hasData (extractPassingValue Number_str (gameDataOf e))
        then 1 else 0)
       + option_map passDataMatches cur ?? 0)%nat
  /\ (Num.fin (option_map passSum cur ?? zero) ->
      Num.fin (option_map passSum (passingStep Number_str cur e) ?? zero)).
Proof.
  unfold passingStep.
  destruct (hasData (extractPassingValue Number_str (gameDataOf e)));
    destruct cur as [cu|]; cbn [option_map orElse passDataMatches passSum];
    (split; [lia | intros H]);
    try assumption; apply NumFacts.fin_add; auto using passingValue_fin.
Qed.

Lemma passingStep_fold_counts l : forall cur,
  let r := fold_left (passingStep Number_str) l cur in
  option_map passDataMatches r ?? 0%nat
    = (option_map passDataMatches cur ?? 0
       + List.length
           (filter
              (fun e => hasData (extractPassingValue Number_str (gameDataOf e)))
              l))%nat
  /\ (Num.fin (option_map passSum cur ?? zero) ->
      Num.fin (option_map passSum r ?? zero)).
Proof.
  induction l as [|e l IH]; intros cur; cbn [fold_left].
  - cbn. split; auto; lia.
  - specialize (IH (passingStep Number_str cur e)). cbv zeta in IH |- *.
    destruct IH as (IH1 & IH2).
    destruct (passingStep_facts cur e) as (S1 & S2).
    rewrite IH1, S1. cbn [filter].
    destruct (hasData (extractPassingValue Number_str (gameDataOf e)));
      cbn [List.length]; split; auto; lia.
Qed.

Lemma sosStep_fold_fin l : forall cur,
  Num.fin (option_map sum cur ?? zero) ->
  Num.fin (option_map sum (fold_left (sosStep Number_str) l cur) ?? zero).
Proof.
  induction l as [|e l IH]; intros cur H; cbn [fold_left]; [assumption|].
  apply IH. unfold sosStep.
  destruct (extractSosValue Number_str (gameDataOf e)); [|assumption].
  cbn [option_map orElse sum]. apply NumFacts.fin_add; [|reflexivity].
  destruct cur; [exact H | reflexivity].
Qed.

Lemma existsb_filter_length {A : Type} (f : A -> bool) (l : list A) :
  Nat.ltb 0 (List.length (filter f l)) = existsb f l.
Proof.
  induction l as [|x l IH]; [reflexivity|]. cbn [filter existsb].
  destruct (f x); [reflexivity | exact IH].
Qed.

End PerTeam.

(** ** The defense estimator, team by team *)

Section Defense.

Variable Number_str : string -> num.
Variable cachedMatches : list TBAMatch.t.
Variable fuelOprIncludePlayoffs : bool.
Variable oprRows : list Opr.t.

Local Open Scope num_scope.

Lemma fold_add_map {A : Type} (f : A -> num) (l : list A) : forall a,
  fold_left (fun s x => s + f x) l a = fold_left Num.add (map f l) a.
Proof. induction l as [|x l IH]; intros a; cbn; auto. Qed.

Lemma expectedFuel_sum teams :
  expectedFuel oprRows teams = sumList (map (oprTotalOrZero oprRows) teams).
Proof. unfold expectedFuel, sumList. now rewrite <- fold_add_map. Qed.

Lemma filter_eqb_In t l : filter (Z.eqb t) l <> [] -> In t l.
Proof.
  induction l as [|x l IH]; cbn; [congruence|].
  destruct (Z.eqb_spec t x); auto.
Qed.

Lemma perTeamSuppression_sample m a t :
  In t (getAllianceTeams m a) ->
  perTeamSuppressionOf Number_str oprRows m a = suppressionSample Number_str oprRows m a.
Proof.
  intros Hin. unfold perTeamSuppressionOf, suppressionSample.
  rewrite expectedFuel_sum.
  destruct (getAllianceTeams m a) as [|x l]; [destruct Hin | reflexivity].
Qed.

Lemma creditTeam_get p t : forall teams d,
  OMap.get t (fold_left (creditTeam p) teams d)
  = fold_left addSample (map (fun _ => p) (filter (Z.eqb t) teams))
      (OMap.get t d).
Proof.
  induction teams as [|x teams IH]; intros d; [reflexivity|].
  cbn [fold_left filter]. rewrite IH. unfold creditTeam.
  destruct (Z.eqb_spec t x) as [<-|Hne].
  - cbn [map fold_left]. now rewrite OMapFacts.get_set_same.
  - rewrite OMapFacts.get_set_other; [reflexivity | congruence].
Qed.

Lemma creditAlliance_get t m a d :
  OMap.get t (creditAlliance Number_str oprRows m d a)
  = fold_left addSample
      (map (fun _ => suppressionSample Number_str oprRows m a)
         (filter (Z.eqb t) (getAllianceTeams m a)))
      (OMap.get t d).
Proof.
  unfold creditAlliance. rewrite creditTeam_get.
  destruct (filter (Z.eqb t) (getAllianceTeams m a)) eqn:E; [reflexivity|].
  rewrite (@perTeamSuppression_sample m a t); [reflexivity|].
  apply filter_eqb_In. congruence.
Qed.

Lemma creditMatches_get t : forall ms d,
  OMap.get t (fold_left (creditMatch Number_str oprRows) ms d)
  = fold_left addSample
      (flat_map
         (fun m =>
            flat_map
              (fun a =>
                 map (fun _ => suppressionSample Number_str oprRows m a)
                   (filter (Z.eqb t) (getAllianceTeams m a)))
              [red; blue])
         ms)
      (OMap.get t d).
Proof.
  induction ms as [|m ms IH]; intros d; [reflexivity|].
  cbn [fold_left flat_map]. rewrite IH. rewrite !fold_left_app.
  unfold creditMatch. cbn [fold_left]. rewrite !creditAlliance_get.
  reflexivity.
Qed.

Lemma defenseByTeam_get t :
  OMap.get t
    (defenseByTeam Number_str cachedMatches fuelOprIncludePlayoffs oprRows)
  = fold_left addSample (defenseSamples Number_str cachedMatches fuelOprIncludePlayoffs
     oprRows t) None.
Proof. unfold defenseByTeam, eligibleMatches. now rewrite creditMatches_get. Qed.

Lemma addSample_fold l : forall d,
  fold_left addSample l (Some d)
  = Some (mkDefense (fold_left Num.add l (suppressionSum d))
            (samples d + List.length l)).
Proof.
  induction l as [|s l IH]; intros d; cbn [fold_left List.length].
  - destruct d; cbn. f_equal. f_equal. lia.
  - unfold addSample at 2. cbn [orElse]. rewrite IH.
    cbn [suppressionSum samples]. f_equal. f_equal. lia.
Qed.

Lemma addSample_fold_None s l :
  fold_left addSample (s :: l) None
  = Some (mkDefense (sumList (s :: l)) (List.length (s :: l))).
Proof.
  cbn [fold_left]. unfold addSample at 2. cbn [orElse]. rewrite addSample_fold.
  reflexivity.
Qed.

(** [defenseImpact] of a row is the mean of the team's samples. *)
Lemma mkRow_defenseImpact agg t :
  defenseImpact
    (mkRow Number_str agg cachedMatches fuelOprIncludePlayoffs oprRows t)
  = mean (defenseSamples Number_str cachedMatches fuelOprIncludePlayoffs
     oprRows t).
Proof.
  cbn [mkRow defenseImpact]. rewrite defenseByTeam_get.
  destruct (defenseSamples Number_str cachedMatches fuelOprIncludePlayoffs
     oprRows t) as [|s l]; [reflexivity|].
  rewrite addSample_fold_None. reflexivity.
Qed.

Lemma fin_fold_add l :
  Forall Num.fin l ->
  forall a, Num.fin a -> Num.fin (fold_left Num.add l a).
Proof.
  induction 1 as [|x l Hx Hl IH]; intros a Ha; cbn [fold_left]; auto.
  apply IH. now apply NumFacts.fin_add.
Qed.

Lemma fin_sumList l : Forall Num.fin l -> Num.fin (sumList l).
Proof. intros Hl. apply fin_fold_add; [assumption | reflexivity]. Qed.

Lemma fin_mean l : Forall Num.fin l -> Num.fin (mean l).
Proof.
  intros Hl. destruct l as [|s l]; [reflexivity|].
  unfold mean. apply NumFacts.fin_div_nat; [now apply fin_sumList|].
  cbn [List.length]. lia.
Qed.

Lemma fin_oprTotalOrZero t : Num.fin (oprTotalOrZero oprRows t).
Proof.
  unfold oprTotalOrZero. destruct (OMap.get t (oprByTeamOf oprRows)); reflexivity.
Qed.

Lemma fin_suppressionSample m a :
  getAllianceTeams m a <> [] ->
  Num.fin (suppressionSample Number_str oprRows m a).
Proof.
  intros Hne. unfold suppressionSample. apply NumFacts.fin_div_nat.
  - apply NumFacts.fin_sub; [|reflexivity]. apply fin_sumList.
    apply Forall_forall. intros x Hx. apply in_map_iff in Hx as (t & <- & _).
    apply fin_oprTotalOrZero.
  - destruct (getAllianceTeams m a); [congruence | cbn; lia].
Qed.

Lemma fin_defenseSamples t : Forall Num.fin (defenseSamples Number_str cachedMatches fuelOprIncludePlayoffs
     oprRows t).
Proof.
  apply Forall_forall. intros x Hx. unfold defenseSamples in Hx.
  apply in_flat_map in Hx as (m & _ & Hx).
  apply in_flat_map in Hx as (a & _ & Hx).
  apply in_map_iff in Hx as (t' & <- & Ht').
  apply fin_suppressionSample. apply filter_In in Ht' as [Ht' _].
  intros E. rewrite E in Ht'. destruct Ht'.
Qed.

End Defense.

(** ** The sort *)

Section Sorting.

Variable cmp : Row -> Row -> num.

Lemma insertRow_perm x l : Permutation (insertRow cmp x l) (x :: l).
Proof.
  induction l as [|y l IH]; cbn [insertRow]; [reflexivity|].
  destruct (Num.gt (cmp x y) zero); [|reflexivity].
  rewrite IH. apply perm_swap.
Qed.

Lemma sortRows_perm l : Permutation (sortRows cmp l) l.
Proof.
  induction l as [|x l IH]; cbn [sortRows fold_right]; [reflexivity|].
  fold (sortRows cmp l). rewrite insertRow_perm. now apply perm_skip.
Qed.

Lemma sortRows_In l r : In r (sortRows cmp l) <-> In r l.
Proof.
  split; apply Permutation_in; [|symmetry]; apply sortRows_perm.
Qed.

(** On rows where the comparator never asks for both orders, insertion
    keeps the list sorted. *)
Variable P : Row -> Prop.
Hypothesis cmp_consistent : forall x y,
  P x -> P y -> Num.gt (cmp x y) zero = true -> notAfter cmp y x.

Lemma insertRow_hd x y l :
  P x -> P y -> HdRel (notAfter cmp) y l -> notAfter cmp y x ->
  HdRel (notAfter cmp) y (insertRow cmp x l).
Proof.
  intros Hx Hy Hl Hyx. destruct l as [|z l]; cbn [insertRow].
  - now constructor.
  - destruct (Num.gt (cmp x z) zero); constructor; auto.
    now inversion Hl.
Qed.

Lemma insertRow_sorted x l :
  P x -> Forall P l -> Sorted (notAfter cmp) l -> Sorted (notAfter cmp) (insertRow cmp x l).
Proof.
  intros Hx HP Hs. induction Hs as [|y l Hs IH Hhd]; cbn [insertRow].
  - repeat constructor.
  - inversion HP as [|? ? Hy HPl]; subst.
    destruct (Num.gt (cmp x y) zero) eqn:E.
    + constructor; [now apply IH|].
      apply insertRow_hd; auto.
    + constructor; [now constructor|]. now constructor.
Qed.

Lemma sortRows_sorted l : Forall P l -> Sorted (notAfter cmp) (sortRows cmp l).
Proof.
  induction 1 as [|x l Hx Hl IH]; cbn [sortRows fold_right]; [constructor|].
  fold (sortRows cmp l). apply insertRow_sorted; auto.
  apply Forall_forall. intros r Hr. apply (proj1 (sortRows_In l r)) in Hr.
  exact (proj1 (Forall_forall P l) Hl r Hr).
Qed.

End Sorting.

(** Adjacent elements of a sorted list are related. *)
Lemma Sorted_adjacent {A : Type} (R : A -> A -> Prop) (l : list A) :
  Sorted R l ->
  forall i a b, nth_error l i = Some a -> nth_error l (S i) = Some b -> R a b.
Proof.
  induction 1 as [|x l Hs IH Hhd]; intros i a b Ha Hb.
  - destruct i; discriminate.
  - destruct i as [|i]; cbn in Ha, Hb.
    + injection Ha as <-. destruct l as [|y l]; [discriminate|].
      cbn in Hb. injection Hb as <-. now inversion Hhd.
    + eapply IH; eassumption.
Qed.

(** ** The comparator on finite rows *)

Section Comparator.

Local Open Scope Qc_scope.

Lemma Qc_sub_zero (x y : Qc) : y + - x = 0 <-> x = y.
Proof.
  split; intros H.
  - assert (y = (y + - x) + x) as -> by ring. rewrite H. ring.
  - subst. ring.
Qed.

Lemma gt_sub_Fin (x y : Qc) : Num.gt (Fin (y + - x)) zero = true <-> x < y.
Proof. unfold zero. rewrite NumFacts.gt_Fin. NumFacts.qc2q. split; lra. Qed.

Lemma gt_sub_ofZ (a b : Z) :
  Num.gt (Num.sub (ofZ a) (ofZ b)) zero = true <-> (b < a)%Z.
Proof.
  unfold ofZ. cbn [Num.sub Num.neg Num.add]. rewrite gt_sub_Fin.
  NumFacts.qc2q. now rewrite <- Zlt_Qlt.
Qed.

Lemma truthy_Fin (x : Qc) : Num.truthy (Fin x) = false <-> x = 0.
Proof. cbn. destruct (Qc_eq_dec x 0); intuition discriminate. Qed.

Lemma compareRows_cases a b :
  rowFin a -> rowFin b ->
  (Num.gt (compareRows a b) zero = true -> rowBefore b a)
  /\ (Num.gt (compareRows a b) zero = false -> rowBefore a b \/ sameKeys a b).
Proof.
  intros [Ha1 Ha2] [Hb1 Hb2]. unfold rowBefore, sameKeys, compareRows.
  apply NumFacts.fin_inv in Ha1 as [ta ->]. apply NumFacts.fin_inv in Ha2 as [ha ->].
  apply NumFacts.fin_inv in Hb1 as [tb ->]. apply NumFacts.fin_inv in Hb2 as [hb ->].
  cbn [Num.sub Num.neg Num.add]. unfold Num.or.
  destruct (Num.truthy (Fin (tb + - ta))) eqn:E1.
  - rewrite E1. apply not_false_iff_true in E1. rewrite truthy_Fin, Qc_sub_zero in E1.
    split; intros H.
    + left. apply NumFacts.gt_Fin. now apply gt_sub_Fin.
    + left; left. apply NumFacts.gt_Fin. apply NumFacts.gt_Fin_false in H.
      destruct (Qc_dec ta tb) as [[Hlt|Hgt]|Heq]; [|assumption|contradiction].
      exfalso. revert H Hlt. NumFacts.qc2q. lra.
  - apply (proj1 (truthy_Fin _)) in E1. apply (proj1 (Qc_sub_zero _ _)) in E1.
    subst tb.
    destruct (Num.truthy (Fin (hb + - ha))) eqn:E2.
    + apply not_false_iff_true in E2. rewrite truthy_Fin, Qc_sub_zero in E2.
      split; intros H.
      * right; left. split; [reflexivity|].
        apply NumFacts.gt_Fin. now apply gt_sub_Fin.
      * left; right; left. split; [reflexivity|].
        apply NumFacts.gt_Fin. apply NumFacts.gt_Fin_false in H.
        destruct (Qc_dec ha hb) as [[Hlt|Hgt]|Heq]; [|assumption|contradiction].
        exfalso. revert H Hlt. NumFacts.qc2q. lra.
    + apply (proj1 (truthy_Fin _)) in E2. apply (proj1 (Qc_sub_zero _ _)) in E2.
      subst hb.
      split; intros H.
      * right; right. repeat split. now apply gt_sub_ofZ.
      * apply not_true_iff_false in H. rewrite gt_sub_ofZ in H.
        destruct (Z.eq_dec (teamNumber a) (teamNumber b)) as [E|E].
        -- right. auto.
        -- left; right; right. repeat split. lia.
Qed.

Lemma gt_irrefl (x : num) : Num.gt x x = false.
Proof.
  destruct x; try reflexivity. apply NumFacts.gt_Fin_false. apply Qcle_refl.
Qed.

Lemma gt_trans (x y z : num) :
  Num.gt x y = true -> Num.gt y z = true -> Num.gt x z = true.
Proof.
  destruct x, y, z; try reflexivity; try discriminate.
  rewrite !NumFacts.gt_Fin. intros H1 H2. eapply Qclt_trans; eassumption.
Qed.

(** [rowBefore] is a strict order. *)
Lemma rowBefore_irrefl a : ~ rowBefore a a.
Proof.
  intros [H|[[_ H]|(_ & _ & H)]].
  - rewrite gt_irrefl in H. discriminate.
  - rewrite gt_irrefl in H. discriminate.
  - lia.
Qed.

Lemma rowBefore_trans a b c : rowBefore a b -> rowBefore b c -> rowBefore a c.
Proof.
  unfold rowBefore.
  intros [H1|[[E1 H1]|(E1 & F1 & H1)]] [H2|[[E2 H2]|(E2 & F2 & H2)]].
  - left. eapply gt_trans; eassumption.
  - left. congruence.
  - left. congruence.
  - left. congruence.
  - right; left. split; [congruence|]. eapply gt_trans; eassumption.
  - right; left. split; congruence.
  - left. congruence.
  - right; left. split; congruence.
  - right; right. repeat split; try congruence. lia.
Qed.

Lemma rowBefore_asym a b : rowBefore a b -> rowBefore b a -> False.
Proof.
  intros H1 H2. apply (@rowBefore_irrefl a). eapply rowBefore_trans; eassumption.
Qed.

Lemma compareRows_consistent x y :
  rowFin x -> rowFin y ->
  Num.gt (compareRows x y) zero = true -> notAfter compareRows y x.
Proof.
  intros Hx Hy H. unfold notAfter. apply not_true_iff_false. intros H'.
  apply (compareRows_cases Hx Hy) in H. apply (compareRows_cases Hy Hx) in H'.
  eapply rowBefore_asym; eassumption.
Qed.

End Comparator.

(** ** Rows *)

Section Rows.

Variable Number_str : string -> num.
Variable cachedMatches : list TBAMatch.t.
Variable entries : list Entry.t.
Variable fuelOprIncludePlayoffs : bool.
Variable oprRows : list Opr.t.

Local Open Scope num_scope.

Local Abbreviation agg := (aggregateEntries Number_str entries).
Local Abbreviation row :=
  (mkRow Number_str agg cachedMatches fuelOprIncludePlayoffs oprRows).
Local Abbreviation rows :=
  (fuelOprRows Number_str cachedMatches entries fuelOprIncludePlayoffs oprRows).
Local Abbreviation teams :=
  (allTeamNumbers Number_str agg cachedMatches fuelOprIncludePlayoffs oprRows).
Local Abbreviation eligible :=
  (eligibleMatchesOf fuelOprIncludePlayoffs cachedMatches).

Lemma rows_perm : Permutation rows (map row teams).
Proof. apply sortRows_perm. Qed.

Lemma rows_In r : In r rows <-> exists t, In t teams /\ r = row t.
Proof.
  split.
  - intros H. apply (Permutation_in _ rows_perm) in H.
    apply in_map_iff in H as (t & <- & Ht). eauto.
  - intros (t & Ht & ->). apply (Permutation_in _ (Permutation_sym rows_perm)).
    now apply in_map.
Qed.

Lemma rows_teamNumbers : Permutation (map teamNumber rows) teams.
Proof.
  rewrite (Permutation_map teamNumber rows_perm), map_map.
  now rewrite map_id.
Qed.

Lemma rows_NoDup : NoDup (map teamNumber rows).
Proof.
  apply (Permutation_NoDup (Permutation_sym rows_teamNumbers)).
  apply OSetFacts.ofList_NoDup.
Qed.

(** Two rows of the output with the same team number are the same row. *)
Lemma rows_team_inj a b :
  In a rows -> In b rows -> teamNumber a = teamNumber b -> a = b.
Proof.
  intros Ha Hb E. apply rows_In in Ha as (ta & _ & ->).
  apply rows_In in Hb as (tb & _ & ->). cbn in E. now subst.
Qed.

Lemma scaled_get t :
  OMap.get t (scaledByTeam agg) = fold_left scaledStep (entriesOf t entries) None.
Proof. apply aggregate_scaled. Qed.

Lemma passing_get t :
  OMap.get t (passingByTeam agg)
  = fold_left (passingStep Number_str) (entriesOf t entries) None.
Proof. apply aggregate_passing. Qed.

Lemma sos_get t :
  OMap.get t (sosByTeam agg)
  = fold_left (sosStep Number_str) (entriesOf t entries) None.
Proof. apply aggregate_sos. Qed.

Lemma scaled_matches t :
  option_map matches (OMap.get t (scaledByTeam agg)) ?? 0%nat
  = List.length (entriesOf t entries).
Proof.
  rewrite scaled_get.
  now destruct (scaledStep_fold_counts (entriesOf t entries) None) as (-> & _).
Qed.

Lemma scaled_hasFuel t :
  Nat.ltb 0 (option_map fuelDataMatches (OMap.get t (scaledByTeam agg)) ?? 0%nat)
  = teamHasFuelData entries t.
Proof.
  rewrite scaled_get.
  destruct (scaledStep_fold_counts (entriesOf t entries) None) as (_ & -> & _).
  apply existsb_filter_length.
Qed.

Lemma passing_hasData t :
  Nat.ltb 0
    (option_map passDataMatches (OMap.get t (passingByTeam agg)) ?? 0%nat)
  = teamHasPassingData Number_str entries t.
Proof.
  rewrite passing_get.
  destruct (passingStep_fold_counts Number_str (entriesOf t entries) None)
    as (-> & _).
  apply existsb_filter_length.
Qed.

(** Membership in [allTeamNumbers]. *)
Lemma teams_In t :
  In t teams <->
  OMap.get t (oprByTeamOf oprRows) <> None
  \/ entriesOf t entries <> []
  \/ defenseSamples Number_str cachedMatches fuelOprIncludePlayoffs oprRows t
     <> [].
Proof.
  unfold allTeamNumbers. rewrite OSetFacts.ofList_In, !in_app_iff.
  rewrite !OMapFacts.get_keys.
  rewrite scaled_get, passing_get, defenseByTeam_get.
  rewrite scaledStep_fold_None, passingStep_fold_None. unfold oprByTeam.
  assert (fold_left addSample
            (defenseSamples Number_str cachedMatches fuelOprIncludePlayoffs
               oprRows t) None <> None
          <-> defenseSamples Number_str cachedMatches fuelOprIncludePlayoffs
                oprRows t <> []) as ->.
  { destruct (defenseSamples _ _ _ _ t) as [|s l].
    - cbn. intuition congruence.
    - rewrite addSample_fold_None. intuition congruence. }
  tauto.
Qed.

Lemma defenseSamples_nonempty t :
  defenseSamples Number_str cachedMatches fuelOprIncludePlayoffs oprRows t <> []
  <-> exists m, In m eligible /\ inMatch t m.
Proof.
  unfold defenseSamples. split.
  - intros H.
    destruct (flat_map _ eligible) as [|s l] eqn:E; [congruence|].
    assert (In s (s :: l)) as Hs by (left; reflexivity). rewrite <- E in Hs.
    apply in_flat_map in Hs as (m & Hm & Hs). exists m. split; [assumption|].
    apply in_flat_map in Hs as (a & _ & Hs).
    apply in_map_iff in Hs as (t' & _ & Ht'). apply filter_In in Ht' as [Ht' E'].
    apply Z.eqb_eq in E'. subst t'. destruct a; [left | right]; exact Ht'.
  - intros (m & Hm & Hin) E.
    assert (exists a, In t (getAllianceTeams m a)) as [a Ha]
      by (destruct Hin; [exists red | exists blue]; assumption).
    assert (In (suppressionSample Number_str oprRows m a) []) as [].
    rewrite <- E. apply in_flat_map. exists m. split; [assumption|].
    apply in_flat_map. exists a. split; [destruct a; cbn; auto|].
    apply in_map_iff. exists t. split; [reflexivity|].
    apply filter_In. split; [assumption | apply Z.eqb_refl].
Qed.

(** *** Every division of the composer stays finite *)

Lemma fin_scaledAutoAvg t : Num.fin (scaledAutoAvg (row t)).
Proof.
  cbn [mkRow scaledAutoAvg].
  destruct (Nat.ltb_spec 0
              (option_map fuelDataMatches (OMap.get t (scaledByTeam agg)) ?? 0%nat))
    as [Hpos|]; [|reflexivity].
  apply NumFacts.fin_div_nat; [|assumption].
  rewrite scaled_get.
  destruct (scaledStep_fold_counts (entriesOf t entries) None) as (_ & _ & H & _).
  now apply H.
Qed.

Lemma fin_scaledTeleopAvg t : Num.fin (scaledTeleopAvg (row t)).
Proof.
  cbn [mkRow scaledTeleopAvg].
  destruct (Nat.ltb_spec 0
              (option_map fuelDataMatches (OMap.get t (scaledByTeam agg)) ?? 0%nat))
    as [Hpos|]; [|reflexivity].
  apply NumFacts.fin_div_nat; [|assumption].
  rewrite scaled_get.
  destruct (scaledStep_fold_counts (entriesOf t entries) None) as (_ & _ & _ & H).
  now apply H.
Qed.

Lemma fin_scaledTotalAvg t : Num.fin (scaledTotalAvg (row t)).
Proof.
  change (scaledTotalAvg (row t))
    with (scaledAutoAvg (row t) + scaledTeleopAvg (row t)).
  apply NumFacts.fin_add; [apply fin_scaledAutoAvg | apply fin_scaledTeleopAvg].
Qed.

Lemma fin_totalFuelOPR t : Num.fin (totalFuelOPR (row t)).
Proof.
  cbn [mkRow totalFuelOPR].
  destruct (OMap.get t (oprByTeam oprRows)); reflexivity.
Qed.

Lemma fin_assistImpact t : Num.fin (assistImpact (row t)).
Proof.
  cbn [mkRow assistImpact].
  destruct (Nat.ltb_spec 0
              (option_map passDataMatches (OMap.get t (passingByTeam agg)) ?? 0%nat))
    as [Hpos|]; [|reflexivity].
  apply NumFacts.fin_div_nat.
  - rewrite passing_get.
    destruct (passingStep_fold_counts Number_str (entriesOf t entries) None)
      as (_ & H).
    now apply H.
  - destruct (OMap.get t (passingByTeam agg)); cbn in *; lia.
Qed.

Lemma fin_defenseImpact t : Num.fin (defenseImpact (row t)).
Proof.
  rewrite mkRow_defenseImpact. apply fin_mean, fin_defenseSamples.
Qed.

Lemma inUnit_sosPenalty t : Num.inUnit (sosPenalty (row t)).
Proof.
  cbn [mkRow sosPenalty]. unfold sosPenaltyOf.
  assert (Num.inUnit zero) as Hz.
  { exists 0%Qc. split; [reflexivity|]. split; apply Qcle_alt; discriminate. }
  destruct (OMap.get t (sosByTeam agg)) as [a|] eqn:E; [|exact Hz].
  destruct (Nat.ltb_spec 0 (count a)) as [Hpos|]; [|exact Hz].
  apply NumFacts.clamp_inUnit, NumFacts.fin_div_six, NumFacts.fin_div_nat;
    [|assumption].
  pose proof (@sosStep_fold_fin Number_str (entriesOf t entries) None
                (eq_refl : Num.fin zero)) as H.
  rewrite <- sos_get, E in H. exact H.
Qed.

Lemma fin_matchPenalty n : Num.fin (matchPenaltyOf n).
Proof.
  unfold matchPenaltyOf. apply NumFacts.fin_max; [reflexivity|].
  apply NumFacts.fin_div_six. reflexivity.
Qed.

Lemma fin_gapPenalty b x y :
  Num.fin x -> Num.fin y -> Num.fin (gapPenaltyOf b x y).
Proof.
  intros Hx Hy. unfold gapPenaltyOf. destruct b; [|reflexivity].
  apply NumFacts.inUnit_fin, NumFacts.clamp_inUnit.
  destruct (@NumFacts.max3_one_ge (Num.abs x) (Num.abs y)) as (q & -> & Hq);
    auto using NumFacts.fin_abs.
  assert (Num.fin (Num.abs (x - y))) as Hg
    by auto using NumFacts.fin_abs, NumFacts.fin_sub.
  apply NumFacts.fin_inv in Hg as [g ->].
  rewrite NumFacts.div_Fin_pos; [reflexivity|].
  eapply Qclt_le_trans; [|exact Hq]. apply Qclt_alt. reflexivity.
Qed.

Lemma fin_missingScaledPenalty b : Num.fin (missingScaledPenaltyOf b).
Proof. destruct b; reflexivity. Qed.

Lemma inUnit_confidencePenalty t : Num.inUnit (confidencePenalty (row t)).
Proof.
  cbn [mkRow confidencePenalty]. apply NumFacts.clamp_inUnit.
  repeat apply NumFacts.fin_add; apply NumFacts.fin_mul; try reflexivity.
  - apply fin_matchPenalty.
  - apply fin_gapPenalty; [apply fin_totalFuelOPR | apply fin_scaledTotalAvg].
  - apply NumFacts.inUnit_fin, inUnit_sosPenalty.
  - apply fin_missingScaledPenalty.
Qed.

Lemma row_confidenceScore t :
  confidenceScore (row t) = one - confidencePenalty (row t).
Proof. reflexivity. Qed.

Lemma inUnit_confidenceScore t : Num.inUnit (confidenceScore (row t)).
Proof.
  rewrite row_confidenceScore.
  apply NumFacts.one_sub_inUnit, inUnit_confidencePenalty.
Qed.

Lemma fin_hybridScorerIndex t : Num.fin (hybridScorerIndex (row t)).
Proof.
  change (hybridScorerIndex (row t))
    with ((if Nat.ltb 0
               (option_map fuelDataMatches (OMap.get t (scaledByTeam agg)) ?? 0%nat)
           then c 0.6 * scaledTotalAvg (row t) + c 0.4 * totalFuelOPR (row t)
           else totalFuelOPR (row t)) * confidenceScore (row t)).
  apply NumFacts.fin_mul; [|apply NumFacts.inUnit_fin, inUnit_confidenceScore].
  destruct (Nat.ltb 0 _); [|apply fin_totalFuelOPR].
  apply NumFacts.fin_add; apply NumFacts.fin_mul; try reflexivity;
    [apply fin_scaledTotalAvg | apply fin_totalFuelOPR].
Qed.

Lemma row_totalContributionIndex t :
  totalContributionIndex (row t)
  = hybridScorerIndex (row t)
    + (if teamHasPassingData Number_str entries t
       then assistImpact (row t) * c 0.2 else zero)
    + defenseImpact (row t) * c 0.2.
Proof. rewrite <- passing_hasData. reflexivity. Qed.

Lemma fin_totalContributionIndex t :
  Num.fin (totalContributionIndex (row t)).
Proof.
  rewrite row_totalContributionIndex.
  repeat apply NumFacts.fin_add.
  - apply fin_hybridScorerIndex.
  - destruct (teamHasPassingData _ _ _); [|reflexivity].
    apply NumFacts.fin_mul; [apply fin_assistImpact | reflexivity].
  - apply NumFacts.fin_mul; [apply fin_defenseImpact | reflexivity].
Qed.

Lemma rowFin_row t : rowFin (row t).
Proof. split; [apply fin_totalContributionIndex | apply fin_hybridScorerIndex]. Qed.

Lemma rows_sorted : Sorted (notAfter compareRows) rows.
Proof.
  apply (@sortRows_sorted compareRows rowFin compareRows_consistent).
  apply Forall_forall. intros r Hr. apply in_map_iff in Hr as (t & <- & _).
  apply rowFin_row.
Qed.

End Rows.

(** ** Equations of a row *)

Section RowEquations.

Variable Number_str : string -> num.
Variable cachedMatches : list TBAMatch.t.
Variable entries : list Entry.t.
Variable fuelOprIncludePlayoffs : bool.
Variable oprRows : list Opr.t.

Local Open Scope num_scope.

Local Abbreviation agg := (aggregateEntries Number_str entries).
Local Abbreviation row :=
  (mkRow Number_str agg cachedMatches fuelOprIncludePlayoffs oprRows).

Lemma row_matchesPlayed t :
  matchesPlayed (row t)
  = Nat.max
      (option_map Opr.matchesPlayed (OMap.get t (oprByTeamOf oprRows)) ?? 0%nat)
      (List.length (entriesOf t entries)).
Proof.
  rewrite <- (scaled_matches Number_str). reflexivity.
Qed.

Lemma row_confidencePenalty t :
  confidencePenalty (row t)
  = clamp01
      (c 0.35 * matchPenaltyOf (matchesPlayed (row t))
       + c 0.25 * gapPenaltyOf (teamHasFuelData entries t)
                    (totalFuelOPR (row t)) (scaledTotalAvg (row t))
       + c 0.15 * sosPenalty (row t)
       + c 0.25 * missingScaledPenaltyOf (teamHasFuelData entries t)).
Proof. rewrite <- (scaled_hasFuel Number_str). reflexivity. Qed.

Lemma row_hybridScorerIndex t :
  hybridScorerIndex (row t)
  = (if teamHasFuelData entries t
     then c 0.6 * scaledTotalAvg (row t) + c 0.4 * totalFuelOPR (row t)
     else totalFuelOPR (row t))
    * confidenceScore (row t).
Proof. rewrite <- (scaled_hasFuel Number_str). reflexivity. Qed.

Lemma row_scaled_zero t :
  teamHasFuelData entries t = false ->
  scaledAutoAvg (row t) = zero /\ scaledTeleopAvg (row t) = zero
  /\ scaledTotalAvg (row t) = zero.
Proof.
  intros Hno. rewrite <- (scaled_hasFuel Number_str) in Hno.
  cbn [mkRow scaledAutoAvg scaledTeleopAvg scaledTotalAvg].
  rewrite Hno. repeat split.
Qed.

(** A team without scouted entry has no production data, no passing data
    and no schedule-strength penalty. *)
Lemma row_no_entries t :
  entriesOf t entries = [] ->
  teamHasFuelData entries t = false
  /\ teamHasPassingData Number_str entries t = false
  /\ sosPenalty (row t) = zero.
Proof.
  intros E. unfold teamHasFuelData, teamHasPassingData. rewrite E.
  repeat split. cbn [mkRow sosPenalty]. unfold sosPenaltyOf.
  rewrite sos_get, E. reflexivity.
Qed.

End RowEquations.

(** ** The alliance tally *)

Lemma allianceTally_zero t ms :
  (forall m a, In m ms -> ~ In t (getAllianceTeams m a)) ->
  allianceTally t ms = 0%nat.
Proof.
  intros H. unfold allianceTally.
  rewrite (proj2 (length_zero_iff_nil _)); [reflexivity|].
  induction ms as [|m ms IH]; [reflexivity|].
  cbn [flat_map app filter fst snd].
  assert (forall a, existsb (Z.eqb t) (getAllianceTeams m a) = false) as Hm.
  { intros a. apply not_true_iff_false. intros E.
    apply existsb_exists in E as (x & Hx & Ex). apply Z.eqb_eq in Ex. subst x.
    exact (H m a (or_introl eq_refl) Hx). }
  rewrite !Hm. apply IH. intros m' a Hm'. apply H. now right.
Qed.

Lemma allianceTally_pos t ms m a :
  In m ms -> In t (getAllianceTeams m a) -> (0 < allianceTally t ms)%nat.
Proof.
  intros Hm Ht. unfold allianceTally.
  assert (In (m, a)
            (filter
               (fun ma : TBAMatch.t * Alliance =>
                  existsb (Z.eqb t) (getAllianceTeams (fst ma) (snd ma)))
               (flat_map (fun m => [(m, red); (m, blue)]) ms))) as H.
  { apply filter_In. split.
    - apply in_flat_map. exists m. split; [assumption|].
      destruct a; cbn; auto.
    - apply existsb_exists. exists t. split; [assumption | apply Z.eqb_refl]. }
  destruct (filter _ _); [destruct H | cbn; lia].
Qed.

Lemma oprCountsAppearances_check ms oprRows :
  forallb
    (fun t =>
       Nat.eqb
         (option_map Opr.matchesPlayed (OMap.get t (oprByTeamOf oprRows)) ?? 0%nat)
         (allianceTally t ms))
    (talliedTeams ms oprRows) = true ->
  oprCountsAppearances ms oprRows.
Proof.
  intros H t. rewrite forallb_forall in H.
  destruct (in_dec Z.eq_dec t (talliedTeams ms oprRows)) as [Hin|Hout].
  - apply Nat.eqb_eq. now apply H.
  - unfold talliedTeams in Hout. rewrite in_app_iff in Hout.
    assert (OMap.get t (oprByTeamOf oprRows) = None) as ->.
    { destruct (OMap.get t (oprByTeamOf oprRows)) eqn:E; [|reflexivity].
      exfalso. apply Hout. left. apply OMapFacts.get_keys. congruence. }
    rewrite allianceTally_zero; [reflexivity|].
    intros m a Hm Ht. apply Hout. right. apply in_flat_map. exists m.
    split; [assumption|]. apply in_or_app. destruct a; auto.
Qed.

(** ** Properties of the composed rows *)

Local Open Scope num_scope.

(** *** The embedding at work *)

Example parseInt10_team_key :
  Str.parseInt10 (Str.removeFirst "frc" "frc254") = Some 254%Z.
Proof. reflexivity. Qed.

Example parseInt10_prefix : Str.parseInt10 " -12ab" = Some (-12)%Z.
Proof. reflexivity. Qed.

Example getAllianceTeams_qm1 :
  getAllianceTeams Example.qm1 red = [1; 2]%Z
  /\ getAllianceTeams Example.qm1 blue = [3; 4]%Z.
Proof. split; reflexivity. Qed.

(** The four rows of the example come out in the order 3, 1, 4, 2. *)
Example rows4_order : map teamNumber Example.rows4 = [3; 1; 4; 2]%Z.
Proof. vm_compute. reflexivity. Qed.

(** Team 1: two matches played, scaled average 4 + 3, assist impact 2 + 3;
    as defender it saw 11 + 4 expected against 20 observed with team 2 and
    3 + 4 expected against 8 observed with team 3: samples -5/2 and -1/2. *)
Example row_team1 :
  matchesPlayed (Example.rowOf 1) = 2%nat
  /\ Num.eqb (scaledTotalAvg (Example.rowOf 1)) (c 7) = true
  /\ Num.eqb (assistImpact (Example.rowOf 1)) (c 5) = true
  /\ Num.eqb (defenseImpact (Example.rowOf 1)) (c (-3 # 2)) = true.
Proof. repeat split; vm_compute; reflexivity. Qed.

(** C1: for every row of the output, [hybridScorerIndex] is
    [confidenceScore * (0.6 * scaledTotalAvg + 0.4 * totalOPR)] when the team
    has an entry with usable scaled or raw production data and
    [confidenceScore * totalOPR] otherwise; [totalContributionIndex] is
    [hybridScorerIndex] plus [0.2 * assistImpact] when the team has an entry
    with passing data (plus 0 otherwise) plus [0.2 * defenseImpact]. *)
Theorem C1_hybrid_and_total_index
    (Number_str : string -> num) (cachedMatches : list TBAMatch.t)
    (entries : list Entry.t) (fuelOprIncludePlayoffs : bool)
    (oprRows : list Opr.t) (r : Row) :
  In r (fuelOprRows Number_str cachedMatches entries fuelOprIncludePlayoffs
          oprRows) ->
  hybridScorerIndex r
  = (if teamHasFuelData entries (teamNumber r)
     then confidenceScore r * (c 0.6 * scaledTotalAvg r + c 0.4 * totalFuelOPR r)
     else confidenceScore r * totalFuelOPR r)
  /\ totalContributionIndex r
     = hybridScorerIndex r
       + (if teamHasPassingData Number_str entries (teamNumber r)
          then c 0.2 * assistImpact r else zero)
       + c 0.2 * defenseImpact r.
Proof.
  intros H. apply rows_In in H as (t & _ & ->). split.
  - rewrite <- (scaled_hasFuel Number_str). cbn [mkRow teamNumber].
    set (has := Nat.ltb 0 _).
    change (hybridScorerIndex (mkRow Number_str _ cachedMatches _ oprRows t))
      with ((if has
             then c 0.6 * scaledTotalAvg (mkRow Number_str
                    (aggregateEntries Number_str entries) cachedMatches
                    fuelOprIncludePlayoffs oprRows t)
                  + c 0.4 * totalFuelOPR (mkRow Number_str
                      (aggregateEntries Number_str entries) cachedMatches
                      fuelOprIncludePlayoffs oprRows t)
             else totalFuelOPR (mkRow Number_str
                    (aggregateEntries Number_str entries) cachedMatches
                    fuelOprIncludePlayoffs oprRows t))
            * confidenceScore (mkRow Number_str
                (aggregateEntries Number_str entries) cachedMatches
                fuelOprIncludePlayoffs oprRows t)).
    destruct has; apply NumFacts.mul_comm.
  - rewrite row_totalContributionIndex. cbn [teamNumber mkRow].
    rewrite (NumFacts.mul_comm (defenseImpact _)).
    destruct (teamHasPassingData Number_str entries t); [|reflexivity].
    now rewrite (NumFacts.mul_comm (assistImpact _)).
Qed.

(** Membership of the example rows, by evaluation of [allTeamNumbers]. *)
Lemma example_row_In (t : Z) :
  In t
    (allTeamNumbers Example.Number_str
       (aggregateEntries Example.Number_str Example.entries2) Example.matches2
       true Example.oprs4) ->
  In (Example.rowOf t) Example.rows4.
Proof.
  intros H. unfold Example.rowOf, Example.rows4.
  apply (proj2 (rows_In Example.Number_str Example.matches2 Example.entries2
                  true Example.oprs4 _)).
  exists t. split; [exact H | reflexivity].
Qed.

Lemma example_team1 : In (Example.rowOf 1) Example.rows4.
Proof. apply example_row_In. vm_compute. tauto. Qed.

Lemma C1_witness :
  In (Example.rowOf 1) Example.rows4
  /\ hybridScorerIndex (Example.rowOf 1)
     = (if teamHasFuelData Example.entries2 (teamNumber (Example.rowOf 1))
        then confidenceScore (Example.rowOf 1)
             * (c 0.6 * scaledTotalAvg (Example.rowOf 1)
                + c 0.4 * totalFuelOPR (Example.rowOf 1))
        else confidenceScore (Example.rowOf 1) * totalFuelOPR (Example.rowOf 1))
  /\ totalContributionIndex (Example.rowOf 1)
     = hybridScorerIndex (Example.rowOf 1)
       + (if teamHasPassingData Example.Number_str Example.entries2
               (teamNumber (Example.rowOf 1))
          then c 0.2 * assistImpact (Example.rowOf 1) else zero)
       + c 0.2 * defenseImpact (Example.rowOf 1).
Proof.
  split; [exact example_team1|].
  exact (C1_hybrid_and_total_index Example.Number_str Example.matches2
           Example.entries2 true Example.oprs4 (Example.rowOf 1) example_team1).
Defined.

(** C2: for every row of the output, [confidencePenalty] is
    [0.35 * matchPenalty + 0.25 * gapPenalty + 0.15 * sosPenalty
     + 0.25 * missingScaledPenalty] clamped to [0, 1], where [matchPenalty] is
    [max(0, (6 - matchesPlayed) / 6)] and [missingScaledPenalty] is 0.6
    exactly when the team has no entry with usable production data and 0
    otherwise; and [confidenceScore] is [1 - confidencePenalty]. *)
Theorem C2_confidence_penalty
    (Number_str : string -> num) (cachedMatches : list TBAMatch.t)
    (entries : list Entry.t) (fuelOprIncludePlayoffs : bool)
    (oprRows : list Opr.t) (r : Row) :
  In r (fuelOprRows Number_str cachedMatches entries fuelOprIncludePlayoffs
          oprRows) ->
  let hasData := teamHasFuelData entries (teamNumber r) in
  let matchPenalty :=
    Num.max zero ((ofZ 6 - ofNat (matchesPlayed r)) / ofZ 6) in
  let gapPenalty := gapPenaltyOf hasData (totalFuelOPR r) (scaledTotalAvg r) in
  let missingScaledPenalty := if hasData then zero else c 0.6 in
  confidencePenalty r
  = clamp01
      (c 0.35 * matchPenalty + c 0.25 * gapPenalty + c 0.15 * sosPenalty r
       + c 0.25 * missingScaledPenalty)
  /\ confidenceScore r = one - confidencePenalty r.
Proof.
  intros H. apply rows_In in H as (t & _ & ->). cbv zeta.
  rewrite <- (scaled_hasFuel Number_str). split; reflexivity.
Qed.

Lemma C2_witness :
  In (Example.rowOf 1) Example.rows4
  /\ (let hasData :=
        teamHasFuelData Example.entries2 (teamNumber (Example.rowOf 1)) in
      let matchPenalty :=
        Num.max zero ((ofZ 6 - ofNat (matchesPlayed (Example.rowOf 1))) / ofZ 6) in
      let gapPenalty :=
        gapPenaltyOf hasData (totalFuelOPR (Example.rowOf 1))
          (scaledTotalAvg (Example.rowOf 1)) in
      let missingScaledPenalty := if hasData then zero else c 0.6 in
      confidencePenalty (Example.rowOf 1)
      = clamp01
          (c 0.35 * matchPenalty + c 0.25 * gapPenalty
           + c 0.15 * sosPenalty (Example.rowOf 1)
           + c 0.25 * missingScaledPenalty)
      /\ confidenceScore (Example.rowOf 1)
         = one - confidencePenalty (Example.rowOf 1)).
Proof.
  split; [exact example_team1|].
  exact (C2_confidence_penalty Example.Number_str Example.matches2
           Example.entries2 true Example.oprs4 (Example.rowOf 1) example_team1).
Defined.

(** C3: for every match of the [includePlayoffs]-filtered match set and each
    of its two alliances, every team of the defending alliance gets one
    sample: the sum of the opposing teams' [totalOPR] (0 for a team absent
    from the OPR result) minus the observed total of the opposing alliance,
    divided by the number of teams on the defending alliance; and the
    [defenseImpact] of each team's row is the arithmetic mean of the team's
    samples. *)
Theorem C3_defense_impact_is_mean
    (Number_str : string -> num) (cachedMatches : list TBAMatch.t)
    (entries : list Entry.t) (fuelOprIncludePlayoffs : bool)
    (oprRows : list Opr.t) :
  let rows :=
    fuelOprRows Number_str cachedMatches entries fuelOprIncludePlayoffs oprRows in
  let samplesOf :=
    defenseSamples Number_str cachedMatches fuelOprIncludePlayoffs oprRows in
  (forall r, In r rows -> defenseImpact r = mean (samplesOf (teamNumber r)))
  /\ (forall m a t,
        In m (eligibleMatchesOf fuelOprIncludePlayoffs cachedMatches) ->
        In t (getAllianceTeams m a) ->
        In (suppressionSample Number_str oprRows m a) (samplesOf t)
        /\ exists r, In r rows /\ teamNumber r = t).
Proof.
  cbv zeta. split.
  - intros r H. apply rows_In in H as (t & _ & ->). apply mkRow_defenseImpact.
  - intros m a t Hm Ht.
    assert (In (suppressionSample Number_str oprRows m a)
              (defenseSamples Number_str cachedMatches fuelOprIncludePlayoffs
                 oprRows t)) as Hs.
    { unfold defenseSamples. apply in_flat_map. exists m. split; [assumption|].
      apply in_flat_map. exists a. split; [destruct a; cbn; auto|].
      apply in_map_iff. exists t. split; [reflexivity|].
      apply filter_In. split; [assumption | apply Z.eqb_refl]. }
    split; [exact Hs|].
    exists (mkRow Number_str (aggregateEntries Number_str entries) cachedMatches
              fuelOprIncludePlayoffs oprRows t).
    split; [|reflexivity]. apply rows_In. exists t. split; [|reflexivity].
    apply teams_In. right; right. intros E. rewrite E in Hs. destruct Hs.
Qed.

(** *** Rows and the teams of the matches *)

(** C5, as the code has it: no team has two rows; every team on an alliance
    of a match of the [includePlayoffs]-filtered match set (every input
    match when playoffs are included) has a row; and a row of a team
    without usable production data has its three production averages at
    0. *)
Theorem C5_one_row_per_team
    (Number_str : string -> num) (cachedMatches : list TBAMatch.t)
    (entries : list Entry.t) (fuelOprIncludePlayoffs : bool)
    (oprRows : list Opr.t) :
  let rows :=
    fuelOprRows Number_str cachedMatches entries fuelOprIncludePlayoffs oprRows in
  NoDup (map teamNumber rows)
  /\ (forall m t,
        In m (eligibleMatchesOf fuelOprIncludePlayoffs cachedMatches) ->
        inMatch t m ->
        exists r, In r rows /\ teamNumber r = t
                  /\ forall r', In r' rows -> teamNumber r' = t -> r' = r)
  /\ (fuelOprIncludePlayoffs = true ->
      forall m t, In m cachedMatches -> inMatch t m ->
                  exists r, In r rows /\ teamNumber r = t)
  /\ (forall r, In r rows ->
        teamHasFuelData entries (teamNumber r) = false ->
        scaledAutoAvg r = zero /\ scaledTeleopAvg r = zero
        /\ scaledTotalAvg r = zero).
Proof.
  cbv zeta.
  assert (forall m t,
            In m (eligibleMatchesOf fuelOprIncludePlayoffs cachedMatches) ->
            inMatch t m ->
            In (mkRow Number_str (aggregateEntries Number_str entries)
                  cachedMatches fuelOprIncludePlayoffs oprRows t)
               (fuelOprRows Number_str cachedMatches entries
                  fuelOprIncludePlayoffs oprRows)) as Hrow.
  { intros m t Hm Ht. apply rows_In. exists t. split; [|reflexivity].
    apply teams_In. right; right. apply defenseSamples_nonempty. eauto. }
  split; [apply rows_NoDup|]. split; [|split].
  - intros m t Hm Ht.
    exists (mkRow Number_str (aggregateEntries Number_str entries)
              cachedMatches fuelOprIncludePlayoffs oprRows t).
    split; [exact (Hrow m t Hm Ht)|].
    split; [reflexivity|]. intros r' Hr' E.
    eapply rows_team_inj; eauto.
  - intros -> m t Hm Ht.
    exists (mkRow Number_str (aggregateEntries Number_str entries)
              cachedMatches true oprRows t).
    split; [|reflexivity].
    apply (Hrow m t); [|assumption].
    unfold eligibleMatchesOf. apply filter_In. split; [assumption | reflexivity].
  - intros r Hr Hno. apply rows_In in Hr as (t & _ & ->).
    cbn [teamNumber mkRow] in Hno.
    rewrite <- (scaled_hasFuel Number_str) in Hno.
    cbn [mkRow scaledAutoAvg scaledTeleopAvg scaledTotalAvg].
    rewrite Hno. repeat split.
Qed.

(** C5 as stated fails: with playoffs excluded, team 7 is on an alliance of
    an input match and has no row. *)
Lemma C5_counterexample :
  In PlayoffExample.sf1 PlayoffExample.matches3
  /\ inMatch 7 PlayoffExample.sf1
  /\ oprCountsAppearances (eligibleMatchesOf false PlayoffExample.matches3)
       Example.oprs4
  /\ ~ exists r, In r PlayoffExample.rowsQualsOnly /\ teamNumber r = 7%Z.
Proof.
  split; [|split; [|split]].
  - unfold PlayoffExample.matches3. apply in_or_app. right. left. reflexivity.
  - left. vm_compute. tauto.
  - apply oprCountsAppearances_check. vm_compute. reflexivity.
  - intros (r & Hr & Ht).
    apply (in_map teamNumber) in Hr. rewrite Ht in Hr.
    apply (Permutation_in _
             (rows_teamNumbers Example.Number_str PlayoffExample.matches3
                Example.entries2 false Example.oprs4)) in Hr.
    vm_compute in Hr. intuition discriminate.
Qed.

(** *** Teams without a match played *)

Lemma zero_match_row9_In : In ZeroMatchExample.row9 ZeroMatchExample.rows5.
Proof.
  unfold ZeroMatchExample.row9, ZeroMatchExample.rows5.
  apply (proj2 (rows_In Example.Number_str Example.matches2 Example.entries2
                  true ZeroMatchExample.oprs5 _)).
  exists 9%Z. split; [vm_compute; tauto | reflexivity].
Qed.

(** C7, as the code has it: a row with [matchesPlayed = 0] and
    [totalOPR = 0] belongs to a team without scouted entry, so without usable
    production data and with [scaledTotalAvg = 0]; for it [matchPenalty] is
    1, [missingScaledPenalty] is 0.6, [confidencePenalty] and
    [confidenceScore] are exactly 0.5 (not below), and
    [totalContributionIndex] is [0.2 * defenseImpact], which is 0 when the
    team is on no alliance of the filtered match set, in particular when the
    [matchesPlayed] of the OPR result is the alliance tally. *)
Theorem C7_zero_match_team
    (Number_str : string -> num) (cachedMatches : list TBAMatch.t)
    (entries : list Entry.t) (fuelOprIncludePlayoffs : bool)
    (oprRows : list Opr.t) (r : Row) :
  In r (fuelOprRows Number_str cachedMatches entries fuelOprIncludePlayoffs
          oprRows) ->
  matchesPlayed r = 0%nat ->
  totalFuelOPR r = zero ->
  teamHasFuelData entries (teamNumber r) = false
  /\ scaledTotalAvg r = zero
  /\ matchPenaltyOf (matchesPlayed r) = one
  /\ missingScaledPenaltyOf (teamHasFuelData entries (teamNumber r)) = c 0.6
  /\ confidencePenalty r = c 0.5
  /\ confidenceScore r = c 0.5
  /\ Num.lt (confidenceScore r) (c 0.5) = false
  /\ totalContributionIndex r = c 0.2 * defenseImpact r
  /\ ((forall m,
         In m (eligibleMatchesOf fuelOprIncludePlayoffs cachedMatches) ->
         ~ inMatch (teamNumber r) m) ->
      totalContributionIndex r = zero)
  /\ (oprCountsAppearances
        (eligibleMatchesOf fuelOprIncludePlayoffs cachedMatches) oprRows ->
      totalContributionIndex r = zero).
Proof.
  intros H Hmp Hopr. apply rows_In in H as (t & _ & ->).
  rewrite row_matchesPlayed in Hmp.
  assert (entriesOf t entries = []) as E
    by (apply length_zero_iff_nil; lia).
  destruct (@row_no_entries Number_str cachedMatches entries
              fuelOprIncludePlayoffs oprRows t E) as (Hfuel & Hpass & Hsos).
  destruct (@row_scaled_zero Number_str cachedMatches entries
              fuelOprIncludePlayoffs oprRows t Hfuel) as (_ & _ & Hscaled).
  cbn [teamNumber mkRow].
  assert (matchesPlayed
            (mkRow Number_str (aggregateEntries Number_str entries)
               cachedMatches fuelOprIncludePlayoffs oprRows t) = 0%nat) as Hmp'
    by (rewrite row_matchesPlayed; exact Hmp).
  assert (confidencePenalty
            (mkRow Number_str (aggregateEntries Number_str entries)
               cachedMatches fuelOprIncludePlayoffs oprRows t) = c 0.5) as Hpen.
  { rewrite row_confidencePenalty, Hmp', Hfuel, Hopr, Hscaled, Hsos.
    apply NumFacts.eqb_eq. reflexivity. }
  assert (confidenceScore
            (mkRow Number_str (aggregateEntries Number_str entries)
               cachedMatches fuelOprIncludePlayoffs oprRows t) = c 0.5) as Hscore.
  { rewrite row_confidenceScore, Hpen. apply NumFacts.eqb_eq. reflexivity. }
  assert (totalContributionIndex
            (mkRow Number_str (aggregateEntries Number_str entries)
               cachedMatches fuelOprIncludePlayoffs oprRows t)
          = c 0.2 * defenseImpact
              (mkRow Number_str (aggregateEntries Number_str entries)
                 cachedMatches fuelOprIncludePlayoffs oprRows t)) as Htotal.
  { rewrite row_totalContributionIndex, row_hybridScorerIndex.
    rewrite Hpass, Hfuel, Hopr, Hscore.
    pose proof (fin_defenseImpact Number_str cachedMatches entries
                  fuelOprIncludePlayoffs oprRows t) as Hd.
    apply NumFacts.fin_inv in Hd as [d ->].
    cbn. f_equal. ring. }
  assert ((forall m,
             In m (eligibleMatchesOf fuelOprIncludePlayoffs cachedMatches) ->
             ~ inMatch t m) ->
          c 0.2 * defenseImpact
                    (mkRow Number_str (aggregateEntries Number_str entries)
                       cachedMatches fuelOprIncludePlayoffs oprRows t)
          = zero) as Hzero.
  { intros Hnone. rewrite mkRow_defenseImpact.
    destruct (defenseSamples Number_str cachedMatches fuelOprIncludePlayoffs
                oprRows t) as [|s l] eqn:Es.
    - apply NumFacts.eqb_eq. reflexivity.
    - exfalso.
      assert (defenseSamples Number_str cachedMatches fuelOprIncludePlayoffs
                oprRows t <> []) as Hne by congruence.
      apply defenseSamples_nonempty in Hne as (m & Hm & Hin).
      exact (Hnone m Hm Hin). }
  rewrite Hmp', Hfuel, Hpen, Hscore, Htotal.
  repeat split; try assumption; try (apply NumFacts.eqb_eq; reflexivity).
  intros Hsolver. apply Hzero. intros m Hm Hin.
  assert (0 < allianceTally t
                (eligibleMatchesOf fuelOprIncludePlayoffs cachedMatches))%nat
    as Hpos by (destruct Hin; eapply allianceTally_pos; eassumption).
  rewrite <- (Hsolver t) in Hpos. lia.
Qed.

Lemma C7_witness :
  In ZeroMatchExample.row9 ZeroMatchExample.rows5
  /\ matchesPlayed ZeroMatchExample.row9 = 0%nat
  /\ totalFuelOPR ZeroMatchExample.row9 = zero
  /\ confidenceScore ZeroMatchExample.row9 = c 0.5
  /\ totalContributionIndex ZeroMatchExample.row9
     = c 0.2 * defenseImpact ZeroMatchExample.row9.
Proof.
  assert (matchesPlayed ZeroMatchExample.row9 = 0%nat) as Hmp
    by (vm_compute; reflexivity).
  assert (totalFuelOPR ZeroMatchExample.row9 = zero) as Hopr
    by (apply NumFacts.eqb_eq; vm_compute; reflexivity).
  pose proof (C7_zero_match_team Example.Number_str Example.matches2
                Example.entries2 true ZeroMatchExample.oprs5
                ZeroMatchExample.row9 zero_match_row9_In Hmp Hopr)
    as (_ & _ & _ & _ & _ & Hscore & _ & Htotal & _ & _).
  exact (conj zero_match_row9_In (conj Hmp (conj Hopr (conj Hscore Htotal)))).
Defined.

(** C7 as stated fails: the row of team 9 has no match played, total OPR 0
    and scaled average 0, and its confidence score is not below 0.5. *)
Lemma C7_counterexample :
  In ZeroMatchExample.row9 ZeroMatchExample.rows5
  /\ matchesPlayed ZeroMatchExample.row9 = 0%nat
  /\ teamHasFuelData Example.entries2 9 = false
  /\ Num.eqb (totalFuelOPR ZeroMatchExample.row9) zero = true
  /\ Num.eqb (scaledTotalAvg ZeroMatchExample.row9) zero = true
  /\ Num.eqb (confidenceScore ZeroMatchExample.row9) (c 0.5) = true
  /\ Num.lt (confidenceScore ZeroMatchExample.row9) (c 0.5) <> true.
Proof.
  refine (conj zero_match_row9_In (conj _ (conj _ (conj _ (conj _ (conj _ _))))));
    try (vm_compute; reflexivity).
  vm_compute. discriminate.
Qed.

(** *** Matches played *)

Lemma double_scouted_row1_In :
  In DoubleScoutedExample.row1 DoubleScoutedExample.rows.
Proof.
  unfold DoubleScoutedExample.row1, DoubleScoutedExample.rows.
  apply (proj2 (rows_In Example.Number_str Example.matches2
                  DoubleScoutedExample.entries3 true Example.oprs4 _)).
  exists 1%Z. split; [vm_compute; tauto | reflexivity].
Qed.

(** In the examples the OPR result carries the alliance tally. *)
Lemma example_oprCountsAppearances :
  oprCountsAppearances (eligibleMatchesOf true Example.matches2) Example.oprs4.
Proof. apply oprCountsAppearances_check. vm_compute. reflexivity. Qed.

(** C8, as the code has it: the [matchesPlayed] of a row is the larger of
    the [matchesPlayed] of the OPR result for the team (0 when the team is
    absent from it) and the number of scouted entries of the team.  It is the
    alliance tally of the filtered match set when the OPR result carries that
    tally and the team has no more entries than alliance appearances; the
    clamping and regularization options reach it only through the OPR
    result. *)
Theorem C8_matches_played
    (Number_str : string -> num) (cachedMatches : list TBAMatch.t)
    (entries : list Entry.t) (fuelOprIncludePlayoffs : bool)
    (oprRows : list Opr.t) (r : Row) :
  In r (fuelOprRows Number_str cachedMatches entries fuelOprIncludePlayoffs
          oprRows) ->
  let t := teamNumber r in
  let eligible := eligibleMatchesOf fuelOprIncludePlayoffs cachedMatches in
  matchesPlayed r
  = Nat.max
      (option_map Opr.matchesPlayed (OMap.get t (oprByTeamOf oprRows)) ?? 0%nat)
      (List.length (entriesOf t entries))
  /\ (oprCountsAppearances eligible oprRows ->
      (List.length (entriesOf t entries) <= allianceTally t eligible)%nat ->
      matchesPlayed r = allianceTally t eligible).
Proof.
  intros H. apply rows_In in H as (t & _ & ->). cbv zeta.
  cbn [teamNumber mkRow]. rewrite row_matchesPlayed. split; [reflexivity|].
  intros Hopr Hle. rewrite (Hopr t). lia.
Qed.

Lemma C8_witness :
  In (Example.rowOf 1) Example.rows4
  /\ matchesPlayed (Example.rowOf 1)
     = allianceTally 1 (eligibleMatchesOf true Example.matches2).
Proof.
  refine (conj example_team1 _).
  refine (proj2 (C8_matches_played Example.Number_str Example.matches2
                   Example.entries2 true Example.oprs4 (Example.rowOf 1)
                   example_team1) example_oprCountsAppearances _).
  vm_compute. lia.
Defined.

(** C8 as stated fails: team 1 is on two alliances of the input matches, the
    OPR result reports the tally for every team, and the row of team 1
    reports three matches played. *)
Lemma C8_counterexample :
  In DoubleScoutedExample.row1 DoubleScoutedExample.rows
  /\ oprCountsAppearances (eligibleMatchesOf true Example.matches2) Example.oprs4
  /\ allianceTally 1 Example.matches2 = 2%nat
  /\ matchesPlayed DoubleScoutedExample.row1 = 3%nat
  /\ matchesPlayed DoubleScoutedExample.row1 <> allianceTally 1 Example.matches2.
Proof.
  refine (conj double_scouted_row1_In
            (conj example_oprCountsAppearances (conj _ (conj _ _))));
    try (vm_compute; reflexivity).
  vm_compute. discriminate.
Qed.

(** *** Alias extraction *)

Lemma firstFinite_filterSome (probes : list (option Qc)) :
  firstFinite probes = hd_error (filterSome probes).
Proof.
  induction probes as [|[x|] probes IH]; cbn; auto.
Qed.

(** C9, as the code has it: [parseFuelCounts] probes three aliases per
    phase in order and the first that holds a number wins (0 when none
    does); [extractPassingValue] probes 21 alias fields and 4 action lists
    through [toFiniteNumber], reports data exactly when a probe is finite,
    and returns the sum of all finite probes, which is the first finite
    probe when no other probe is finite. *)
Theorem C9_alias_extraction (Number_str : string -> num) (gameData : jsval) :
  let auto := JS.get gameData "auto" in
  let teleop := JS.get gameData "teleop" in
  let probes := passingProbes Number_str gameData in
  let passing := extractPassingValue Number_str gameData in
  fuelAuto (parseFuelCounts gameData)
  = firstFinite
      [ JS.numberOrUndefined (JS.get auto "fuelScoredCount");
        JS.numberOrUndefined (JS.get auto "fuelScored");
        JS.numberOrUndefined (JS.get gameData "autoFuelScored") ] ?? 0%Qc
  /\ fuelTeleop (parseFuelCounts gameData)
     = firstFinite
         [ JS.numberOrUndefined (JS.get teleop "fuelScoredCount");
           JS.numberOrUndefined (JS.get teleop "fuelScored");
           JS.numberOrUndefined (JS.get gameData "teleopFuelScored") ] ?? 0%Qc
  /\ hasData passing
     = match firstFinite probes with Some _ => true | None => false end
  /\ value passing = sumList (map Fin (filterSome probes))
  /\ (forall v, filterSome probes = [v] ->
        firstFinite probes = Some v /\ value passing = Fin v).
Proof.
  cbv zeta. split; [|split; [|split; [|split]]].
  - unfold parseFuelCounts. cbn [fuelAuto firstFinite].
    destruct (JS.numberOrUndefined (JS.get (JS.get gameData "auto") "fuelScoredCount"));
      [reflexivity|].
    destruct (JS.numberOrUndefined (JS.get (JS.get gameData "auto") "fuelScored"));
      [reflexivity|].
    destruct (JS.numberOrUndefined (JS.get gameData "autoFuelScored"));
      reflexivity.
  - unfold parseFuelCounts. cbn [fuelTeleop firstFinite].
    destruct (JS.numberOrUndefined
                (JS.get (JS.get gameData "teleop") "fuelScoredCount"));
      [reflexivity|].
    destruct (JS.numberOrUndefined (JS.get (JS.get gameData "teleop") "fuelScored"));
      [reflexivity|].
    destruct (JS.numberOrUndefined (JS.get gameData "teleopFuelScored"));
      reflexivity.
  - unfold extractPassingValue. rewrite firstFinite_filterSome.
    destruct (filterSome (passingProbes Number_str gameData)); reflexivity.
  - unfold extractPassingValue.
    destruct (filterSome (passingProbes Number_str gameData)) as [|v l];
      [reflexivity|].
    cbn [List.length Nat.eqb value]. unfold sumList.
    now rewrite <- fold_add_map.
  - intros v Hv. rewrite firstFinite_filterSome.
    unfold extractPassingValue. rewrite Hv. split; [reflexivity|].
    cbn. f_equal. ring.
Qed.

(** C9 as stated fails: in the entry of team 1 two alias fields hold
    finite values, 2 and 3; the first finite probe is 2 and the extracted
    passing value is 5. *)
Lemma C9_counterexample :
  let gameData := Entry.gameData Example.entryTeam1 in
  let probes := passingProbes Example.Number_str gameData in
  List.length (filterSome probes) = 2%nat
  /\ firstFinite probes = Some (Example.q 2)
  /\ Num.eqb (value (extractPassingValue Example.Number_str gameData))
       (Fin (Example.q 5)) = true
  /\ value (extractPassingValue Example.Number_str gameData)
     <> Fin (Example.q 2).
Proof.
  cbv zeta.
  refine (conj _ (conj _ (conj _ _))); try (vm_compute; reflexivity).
  intros E.
  assert (Num.eqb (value (extractPassingValue Example.Number_str
                            (Entry.gameData Example.entryTeam1)))
            (Fin (Example.q 2)) = false) as H by (vm_compute; reflexivity).
  rewrite E in H. vm_compute in H. discriminate.
Qed.

(** *** Malformed matches *)

Lemma malformed_row1_In :
  In (MalformedExample.rowWith 1) MalformedExample.rowsWith.
Proof.
  unfold MalformedExample.rowWith, MalformedExample.rowsWith.
  apply (proj2 (rows_In Example.Number_str MalformedExample.matchesWith
                  Example.entries2 true Example.oprs4 _)).
  exists 1%Z. split; [vm_compute; tauto | reflexivity].
Qed.

Lemma filterSome_app {A : Type} (l1 l2 : list (option A)) :
  filterSome (l1 ++ l2) = filterSome l1 ++ filterSome l2.
Proof. unfold filterSome. apply flat_map_app. Qed.

Lemma filterSome_In {A : Type} (l : list (option A)) (x : A) :
  In x (filterSome l) <-> In (Some x) l.
Proof.
  unfold filterSome. rewrite in_flat_map. split.
  - intros ([y|] & Hy & Hx); [|destruct Hx].
    destruct Hx as [<-|[]]. exact Hy.
  - intros H. exists (Some x). split; [exact H | now left].
Qed.

(** C10, as the code has it: no match of the filtered set is skipped and no
    skip count exists.  A missing score field makes the observed total 0; a
    team key that does not resolve is dropped from its alliance and the
    other keys are kept; and every resolved team of every match of the
    filtered set gets its defense sample and a row. *)
Theorem C10_malformed_match_handling
    (Number_str : string -> num) (cachedMatches : list TBAMatch.t)
    (entries : list Entry.t) (fuelOprIncludePlayoffs : bool)
    (oprRows : list Opr.t) :
  let rows :=
    fuelOprRows Number_str cachedMatches entries fuelOprIncludePlayoffs oprRows in
  let resolve := fun key => Str.parseInt10 (Str.removeFirst "frc" key) in
  (forall m a,
      toFiniteNumber Number_str
        (JS.get
           (JS.get (JS.get (TBAMatch.score_breakdown m) (allianceName a))
              "hubScore")
           "totalCount") = None ->
      getObservedTotal Number_str m a = 0%Qc)
  /\ (forall m a t,
        In t (getAllianceTeams m a) <->
        exists key, In key (TBAMatch.team_keys m a) /\ resolve key = Some t)
  /\ (forall m m' a keys1 key keys2,
        TBAMatch.team_keys m a = keys1 ++ key :: keys2 ->
        TBAMatch.team_keys m' a = keys1 ++ keys2 ->
        resolve key = None ->
        getAllianceTeams m a = getAllianceTeams m' a)
  /\ (forall m a t,
        In m (eligibleMatchesOf fuelOprIncludePlayoffs cachedMatches) ->
        In t (getAllianceTeams m a) ->
        In (suppressionSample Number_str oprRows m a)
           (defenseSamples Number_str cachedMatches fuelOprIncludePlayoffs
              oprRows t)
        /\ exists r, In r rows /\ teamNumber r = t).
Proof.
  cbv zeta. split; [|split; [|split]].
  - intros m a H. unfold getObservedTotal. now rewrite H.
  - intros m a t. unfold getAllianceTeams. rewrite filterSome_In, in_map_iff.
    split; intros (key & H1 & H2); exists key; auto.
  - intros m m' a keys1 key keys2 E E' Hkey. unfold getAllianceTeams.
    rewrite E, E', !map_app, !filterSome_app. cbn [map].
    unfold filterSome at 2. cbn [flat_map]. rewrite Hkey. reflexivity.
  - intros m a t Hm Ht.
    assert (In (suppressionSample Number_str oprRows m a)
              (defenseSamples Number_str cachedMatches fuelOprIncludePlayoffs
                 oprRows t)) as Hs.
    { unfold defenseSamples. apply in_flat_map. exists m. split; [assumption|].
      apply in_flat_map. exists a. split; [destruct a; cbn; auto|].
      apply in_map_iff. exists t. split; [reflexivity|].
      apply filter_In. split; [assumption | apply Z.eqb_refl]. }
    split; [exact Hs|].
    exists (mkRow Number_str (aggregateEntries Number_str entries) cachedMatches
              fuelOprIncludePlayoffs oprRows t).
    split; [|reflexivity]. apply rows_In. exists t. split; [|reflexivity].
    apply teams_In. right; right. intros E. rewrite E in Hs. destruct Hs.
Qed.

(** C10 as stated fails: the match [qm3] has no score fields and an
    unresolvable team key, it is in the filtered match set, and with it the
    defense impact of team 1 differs from the one computed without it: the
    match was not skipped. *)
Lemma C10_counterexample :
  In MalformedExample.qm3
    (eligibleMatchesOf true MalformedExample.matchesWith)
  /\ TBAMatch.score_breakdown MalformedExample.qm3 = JNull
  /\ Str.parseInt10 (Str.removeFirst "frc" "frcX") = None
  /\ In (MalformedExample.rowWith 1) MalformedExample.rowsWith
  /\ In (Example.rowOf 1) Example.rows4
  /\ Num.eqb (defenseImpact (MalformedExample.rowWith 1))
       (defenseImpact (Example.rowOf 1)) = false.
Proof.
  refine (conj _ (conj _ (conj _ (conj malformed_row1_In
                                    (conj example_team1 _)))));
    try (vm_compute; reflexivity).
  vm_compute. tauto.
Qed.

(** * The database functions *)

(** ** Tables, string sets and the integer sort *)

Module SSetFacts.

Lemma mem_In_str k s : SSet.mem k s = true <-> In k s.
Proof.
  unfold SSet.mem. rewrite existsb_exists. split.
  - intros [x [Hx He]]. apply String.eqb_eq in He. now subst.
  - intros H. exists k. split; [assumption | apply String.eqb_refl].
Qed.

Lemma add_In_str s k k' : In k' (SSet.add s k) <-> In k' s \/ k' = k.
Proof.
  unfold SSet.add. destruct (SSet.mem k s) eqn:E.
  - apply mem_In_str in E. intuition congruence.
  - rewrite in_app_iff. simpl. intuition.
Qed.

Lemma fold_add_In_str l : forall s k,
  In k (fold_left SSet.add l s) <-> In k s \/ In k l.
Proof.
  induction l as [|x l IH]; intros s k; simpl.
  - intuition.
  - rewrite IH, add_In_str. intuition.
Qed.

Lemma ofList_In_str l k : In k (SSet.ofList l) <-> In k l.
Proof. unfold SSet.ofList. rewrite fold_add_In_str. simpl. intuition. Qed.

(** [set.has(k)] on [new Set(l)] is membership in [l]. *)
Lemma mem_ofList l k : SSet.mem k (SSet.ofList l) = existsb (String.eqb k) l.
Proof.
  apply eq_true_iff_eq. rewrite mem_In_str, ofList_In_str, existsb_exists. split.
  - intros H. exists k. split; [assumption | apply String.eqb_refl].
  - intros [x [Hx He]]. apply String.eqb_eq in He. now subst.
Qed.

End SSetFacts.

Lemma find_app_first {A : Type} (f : A -> bool) (l1 l2 : list A) :
  find f (l1 ++ l2)
  = match find f l1 with Some x => Some x | None => find f l2 end.
Proof.
  induction l1 as [|x l1 IH]; cbn; [reflexivity|].
  now destruct (f x).
Qed.

Module TableFacts.

Section Facts.
Variable V : Type.
Variable key : V -> string.
Implicit Types (tb : Table.t V) (v : V) (k : string).

Lemma get_key tb k v : Table.get key k tb = Some v -> key v = k.
Proof.
  unfold Table.get. intros H. apply find_some in H as [_ H].
  now apply String.eqb_eq.
Qed.

Lemma get_In tb k v : Table.get key k tb = Some v -> In v tb.
Proof. unfold Table.get. intros H. now apply find_some in H. Qed.

Lemma get_None tb k : Table.get key k tb = None <-> ~ In k (Table.keys key tb).
Proof.
  unfold Table.get, Table.keys. induction tb as [|w tb IH]; cbn.
  - intuition.
  - destruct (String.eqb_spec (key w) k) as [E|E].
    + split; [discriminate | intuition].
    + rewrite IH. intuition.
Qed.

Lemma get_put_same tb v : Table.get key (key v) (Table.put key v tb) = Some v.
Proof.
  unfold Table.get. induction tb as [|w tb IH]; cbn.
  - now rewrite String.eqb_refl.
  - destruct (String.eqb (key w) (key v)) eqn:E; cbn.
    + now rewrite String.eqb_refl.
    + now rewrite E.
Qed.

Lemma get_put_other tb v k :
  k <> key v -> Table.get key k (Table.put key v tb) = Table.get key k tb.
Proof.
  intros Hne. unfold Table.get. induction tb as [|w tb IH]; cbn.
  - destruct (String.eqb_spec (key v) k); congruence.
  - destruct (String.eqb_spec (key w) (key v)) as [E|E]; cbn.
    + destruct (String.eqb_spec (key v) k); [congruence|].
      destruct (String.eqb_spec (key w) k); congruence.
    + destruct (String.eqb_spec (key w) k); auto.
Qed.

Lemma keys_put tb v k :
  In k (Table.keys key (Table.put key v tb))
  <-> k = key v \/ In k (Table.keys key tb).
Proof.
  unfold Table.keys. induction tb as [|w tb IH]; cbn.
  - intuition.
  - destruct (String.eqb_spec (key w) (key v)) as [E|E]; cbn.
    + rewrite E. intuition.
    + rewrite IH. intuition.
Qed.

Lemma keys_put_NoDup tb v :
  NoDup (Table.keys key tb) -> NoDup (Table.keys key (Table.put key v tb)).
Proof.
  unfold Table.keys. induction tb as [|w tb IH]; cbn; intros H.
  - constructor; [intros [] | constructor].
  - inversion H as [|? ? Hw Htb]; subst.
    destruct (String.eqb_spec (key w) (key v)) as [E|E]; cbn.
    + constructor; [now rewrite <- E | assumption].
    + constructor; [|now apply IH].
      intros Hin. apply (keys_put tb v (key w)) in Hin.
      destruct Hin as [Hin|Hin]; [congruence | contradiction].
Qed.

Lemma length_put tb v :
  List.length (Table.put key v tb)
  = if existsb (String.eqb (key v)) (Table.keys key tb)
    then List.length tb else S (List.length tb).
Proof.
  unfold Table.keys. induction tb as [|w tb IH]; cbn; [reflexivity|].
  rewrite (String.eqb_sym (key v) (key w)).
  destruct (String.eqb (key w) (key v)); cbn; [reflexivity|].
  rewrite IH. now destruct (existsb _ _).
Qed.

(** After [bulkPut] a key holds the last row put under it, or what the
    table held. *)
Lemma get_bulkPut vs : forall tb k,
  Table.get key k (Table.bulkPut key vs tb)
  = match find (fun v => String.eqb (key v) k) (rev vs) with
    | Some v => Some v
    | None => Table.get key k tb
    end.
Proof.
  unfold Table.bulkPut. induction vs as [|v vs IH]; intros tb k;
    cbn [fold_left rev].
  - reflexivity.
  - rewrite IH, find_app_first.
    destruct (find _ (rev vs)) as [w|]; [reflexivity|]. cbn.
    destruct (String.eqb_spec (key v) k) as [<-|E].
    + apply get_put_same.
    + apply get_put_other. congruence.
Qed.

Lemma keys_bulkPut vs : forall tb k,
  In k (Table.keys key (Table.bulkPut key vs tb))
  <-> In k (map key vs) \/ In k (Table.keys key tb).
Proof.
  unfold Table.bulkPut. induction vs as [|v vs IH]; intros tb k;
    cbn [fold_left map].
  - cbn. intuition.
  - rewrite IH, keys_put. cbn. intuition.
Qed.

Lemma keys_bulkPut_NoDup vs : forall tb,
  NoDup (Table.keys key tb) ->
  NoDup (Table.keys key (Table.bulkPut key vs tb)).
Proof.
  unfold Table.bulkPut. induction vs as [|v vs IH]; intros tb H;
    cbn [fold_left]; auto.
  apply IH. now apply keys_put_NoDup.
Qed.

(** Rows with fresh, pairwise distinct keys each add one row. *)
Lemma length_bulkPut vs : forall tb,
  NoDup (map key vs) ->
  (forall v, In v vs -> ~ In (key v) (Table.keys key tb)) ->
  List.length (Table.bulkPut key vs tb) = (List.length tb + List.length vs)%nat.
Proof.
  unfold Table.bulkPut. induction vs as [|v vs IH]; intros tb Hnd Hfresh;
    cbn [fold_left List.length].
  - lia.
  - cbn [map] in Hnd. inversion Hnd as [|? ? Hv Hvs]; subst. rewrite IH; auto.
    + rewrite length_put.
      destruct (existsb _ _) eqn:E; [|lia].
      exfalso. apply existsb_exists in E as (k & Hk & Ek).
      apply String.eqb_eq in Ek. subst k.
      exact (Hfresh v (or_introl eq_refl) Hk).
    + intros w Hw Hin. apply keys_put in Hin as [Hin|Hin].
      * apply Hv. rewrite <- Hin. now apply in_map.
      * exact (Hfresh w (or_intror Hw) Hin).
Qed.

End Facts.

End TableFacts.

Section SortBy.

Variable A : Type.
Variable cmp : A -> A -> Z.

Lemma insertBy_perm x l : Permutation (insertBy cmp x l) (x :: l).
Proof.
  induction l as [|y l IH]; cbn [insertBy]; [reflexivity|].
  destruct (0 <? cmp x y)%Z; [|reflexivity].
  rewrite IH. apply perm_swap.
Qed.

Lemma sortBy_perm l : Permutation (sortBy cmp l) l.
Proof.
  induction l as [|x l IH]; cbn [sortBy fold_right]; [reflexivity|].
  fold (sortBy cmp l). rewrite insertBy_perm. now apply perm_skip.
Qed.

Lemma sortBy_In l x : In x (sortBy cmp l) <-> In x l.
Proof. split; apply Permutation_in; [|symmetry]; apply sortBy_perm. Qed.

(** With a comparator that never asks for both orders the result is
    sorted: no element is followed by one that the comparator puts
    before it. *)
Hypothesis cmp_consistent : forall x y, (0 < cmp x y -> cmp y x <= 0)%Z.

Lemma insertBy_sorted x l :
  Sorted (fun a b => (cmp a b <= 0)%Z) l ->
  Sorted (fun a b => (cmp a b <= 0)%Z) (insertBy cmp x l).
Proof.
  intros Hs. induction Hs as [|y l Hs IH Hhd]; cbn [insertBy].
  - repeat constructor.
  - destruct (Z.ltb_spec 0 (cmp x y)) as [E|E].
    + constructor; [exact IH|].
      destruct l as [|z l]; cbn [insertBy].
      * constructor. now apply cmp_consistent.
      * destruct (0 <? cmp x z)%Z; constructor.
        -- now inversion Hhd.
        -- now apply cmp_consistent.
    + constructor; [now constructor | now constructor].
Qed.

Lemma sortBy_sorted l : Sorted (fun a b => (cmp a b <= 0)%Z) (sortBy cmp l).
Proof.
  induction l as [|x l IH]; cbn [sortBy fold_right]; [constructor|].
  fold (sortBy cmp l). now apply insertBy_sorted.
Qed.

End SortBy.

(** ** Merging, conflict detection and import *)

Lemma filter_all {A : Type} (f : A -> bool) (l : list A) :
  (forall x, In x l -> f x = true) -> filter f l = l.
Proof.
  induction l as [|x l IH]; intros H; cbn; [reflexivity|].
  rewrite (H x (or_introl eq_refl)). f_equal. apply IH. intros y Hy.
  apply H. now right.
Qed.

Lemma filter_none {A : Type} (f : A -> bool) (l : list A) :
  (forall x, In x l -> f x = false) -> filter f l = [].
Proof.
  induction l as [|x l IH]; intros H; cbn; [reflexivity|].
  rewrite (H x (or_introl eq_refl)). apply IH. intros y Hy.
  apply H. now right.
Qed.

Lemma existsb_eqb_In (k : string) (l : list string) :
  existsb (String.eqb k) l = true <-> In k l.
Proof.
  rewrite existsb_exists. split.
  - intros [x [Hx He]]. apply String.eqb_eq in He. now subst.
  - intros H. exists k. split; [assumption | apply String.eqb_refl].
Qed.

Lemma merged_fresh existingData newData :
  Merge.merged (mergeScoutingData existingData newData)
  = existingData ++ freshEntries existingData newData.
Proof.
  unfold mergeScoutingData, freshEntries.
  destruct existingData as [|e0 ex]; cbn [List.length Nat.eqb Merge.merged].
  - cbn. symmetry. apply filter_all. reflexivity.
  - f_equal. apply filter_ext. intros e. now rewrite SSetFacts.mem_ofList.
Qed.

Lemma freshEntries_length existingData newData :
  (List.length (freshEntries existingData newData) <= List.length newData)%nat.
Proof. apply filter_length_le. Qed.

Lemma merge_new_fresh existingData newData :
  Merge.new (Merge.statsOf (mergeScoutingData existingData newData))
  = List.length (freshEntries existingData newData).
Proof.
  unfold mergeScoutingData, freshEntries.
  destruct existingData as [|e0 ex];
    cbn [List.length Nat.eqb Merge.statsOf Merge.new].
  - now rewrite filter_all by reflexivity.
  - f_equal. apply filter_ext. intros e. now rewrite SSetFacts.mem_ofList.
Qed.

(** X1: [mergeScoutingData] returns the existing entries followed by the new
    entries whose id is not the id of an existing entry, in their order; its
    statistics count these parts: [new + duplicates] is the number of new
    entries offered and [final = existing + new] is the length of the
    result. *)
Theorem mergeScoutingData_structure (existingData newData : list DbEntry.t) :
  let r := mergeScoutingData existingData newData in
  let stats := Merge.statsOf r in
  Merge.merged r = existingData ++ freshEntries existingData newData
  /\ Merge.existing stats = List.length existingData
  /\ Merge.new stats = List.length (freshEntries existingData newData)
  /\ (Merge.new stats + Merge.duplicates stats = List.length newData)%nat
  /\ Merge.final stats = (Merge.existing stats + Merge.new stats)%nat
  /\ Merge.final stats = List.length (Merge.merged r).
Proof.
  cbv zeta. split; [apply merged_fresh|].
  pose proof (freshEntries_length existingData newData) as Hle.
  unfold mergeScoutingData, freshEntries in *.
  destruct existingData as [|e0 ex];
    cbn [List.length Nat.eqb Merge.statsOf Merge.existing Merge.new
         Merge.duplicates Merge.final Merge.merged].
  - rewrite filter_all by reflexivity. repeat split; lia.
  - rewrite (filter_ext _
               (fun e => negb (existsb (String.eqb (DbEntry.id e))
                                 (map DbEntry.id (e0 :: ex)))))
      in * by (intros e; now rewrite SSetFacts.mem_ofList).
    rewrite length_app. cbn [List.length]. repeat split; lia.
Qed.

(** X2: when the existing entries have pairwise distinct ids and so have the
    new entries, the merged entries have pairwise distinct ids. *)
Theorem mergeScoutingData_distinct_ids (existingData newData : list DbEntry.t) :
  NoDup (map DbEntry.id existingData) ->
  NoDup (map DbEntry.id newData) ->
  NoDup (map DbEntry.id (Merge.merged (mergeScoutingData existingData newData))).
Proof.
  intros Hex Hnew. rewrite merged_fresh, map_app.
  assert (NoDup (map DbEntry.id (freshEntries existingData newData))) as Hfresh.
  { unfold freshEntries. clear Hex.
    induction newData as [|e l IH]; cbn [filter map]; [constructor|].
    cbn [map] in Hnew. inversion Hnew as [|? ? He Hl]; subst.
    destruct (negb _); [|now apply IH].
    cbn [map]. constructor; [|now apply IH].
    intros Hin. apply He. apply in_map_iff in Hin as (x & Hx & Hin).
    apply filter_In in Hin as [Hin _]. rewrite <- Hx. now apply in_map. }
  revert Hfresh. generalize (freshEntries_length existingData newData). intros _.
  assert (forall k, In k (map DbEntry.id existingData) ->
                    ~ In k (map DbEntry.id (freshEntries existingData newData)))
    as Hdisj.
  { intros k Hk Hin. apply in_map_iff in Hin as (x & <- & Hin).
    apply filter_In in Hin as [_ Hin]. apply negb_true_iff in Hin.
    apply not_true_iff_false in Hin. apply Hin. now apply existsb_eqb_In. }
  intros Hfresh. induction Hex as [|k l Hk Hl IH]; [exact Hfresh|].
  cbn [app]. constructor.
  - rewrite in_app_iff. intros [H|H]; [contradiction|].
    exact (Hdisj k (or_introl eq_refl) H).
  - apply IH. intros k' Hk'. apply Hdisj. now right.
Qed.

Lemma mergeScoutingData_distinct_ids_witness :
  NoDup (map DbEntry.id DbExample.stored)
  /\ NoDup (map DbEntry.id DbExample.incoming)
  /\ NoDup (map DbEntry.id
              (Merge.merged
                 (mergeScoutingData DbExample.stored DbExample.incoming))).
Proof.
  assert (NoDup (map DbEntry.id DbExample.stored)) as H1.
  { cbn. repeat constructor; cbn; intuition discriminate. }
  assert (NoDup (map DbEntry.id DbExample.incoming)) as H2.
  { cbn. repeat constructor; cbn; intuition discriminate. }
  exact (conj H1 (conj H2
           (mergeScoutingData_distinct_ids DbExample.stored DbExample.incoming
              H1 H2))).
Defined.

(** X3: merging the same new entries a second time changes nothing: every
    one of them is by then a duplicate. *)
Theorem mergeScoutingData_idempotent (existingData newData : list DbEntry.t) :
  let once := mergeScoutingData existingData newData in
  let twice := mergeScoutingData (Merge.merged once) newData in
  Merge.merged twice = Merge.merged once
  /\ Merge.new (Merge.statsOf twice) = 0%nat.
Proof.
  cbv zeta.
  assert (freshEntries (Merge.merged (mergeScoutingData existingData newData))
            newData = []) as Hnone.
  { unfold freshEntries at 1. apply filter_none. intros e He.
    apply negb_false_iff, existsb_eqb_In. rewrite merged_fresh, map_app, in_app_iff.
    destruct (existsb (String.eqb (DbEntry.id e)) (map DbEntry.id existingData))
      eqn:E.
    - left. now apply existsb_eqb_In.
    - right. apply in_map. unfold freshEntries. apply filter_In.
      split; [assumption | now rewrite E]. }
  rewrite merged_fresh, merge_new_fresh, Hnone, app_nil_r. split; reflexivity.
Qed.

Lemma detectConflictsStep_outcome db acc e :
  detectConflictsStep db acc e
  = Conflict.mk
      (Conflict.autoImport acc ++ (if isNewEntry db e then [e] else []))
      (Conflict.autoReplace acc ++ (if replacesExisting db e then [e] else []))
      (Conflict.manualReview acc
       ++ match needsReview db e with Some p => [p] | None => [] end).
Proof.
  unfold detectConflictsStep, isNewEntry, replacesExisting, needsReview.
  destruct (Table.get DbEntry.id (DbEntry.id e) db) as [existing|];
    [|now rewrite !app_nil_r].
  destruct (DbEntry.isCorrected e); cbn [orb negb andb];
    [now rewrite !app_nil_r|].
  change (30 * 1000)%Z with 30000%Z. change (Z.opp 30000) with (-30000)%Z.
  set (diff := (DbEntry.timestamp e - DbEntry.timestamp existing)%Z).
  destruct (Z.ltb_spec 30000 diff) as [H|H].
  - rewrite (proj2 (Z.leb_gt diff 30000)) by lia. cbn [andb].
    now rewrite !app_nil_r.
  - rewrite (proj2 (Z.leb_le diff 30000)) by lia. cbn [andb].
    destruct (Z.ltb_spec diff (-30000)) as [H'|H'].
    + rewrite (proj2 (Z.leb_gt (-30000) diff)) by lia. rewrite !app_nil_r.
      now destruct acc.
    + rewrite (proj2 (Z.leb_le (-30000) diff)) by lia. now rewrite !app_nil_r.
Qed.

Lemma detectConflicts_fold db : forall incoming acc,
  fold_left (detectConflictsStep db) incoming acc
  = Conflict.mk
      (Conflict.autoImport acc ++ filter (isNewEntry db) incoming)
      (Conflict.autoReplace acc ++ filter (replacesExisting db) incoming)
      (Conflict.manualReview acc ++ filterSome (map (needsReview db) incoming)).
Proof.
  induction incoming as [|e l IH]; intros acc; cbn [fold_left filter map].
  - cbn. rewrite !app_nil_r. now destruct acc.
  - rewrite IH, detectConflictsStep_outcome.
    cbn [Conflict.autoImport Conflict.autoReplace Conflict.manualReview].
    rewrite <- !app_assoc. unfold filterSome at 2. cbn [flat_map].
    fold (filterSome (map (needsReview db) l)).
    destruct (isNewEntry db e), (replacesExisting db e), (needsReview db e);
      reflexivity.
Qed.

(** X4: [detectConflicts] sorts the incoming entries, in their order, into
    three lists: [autoImport] holds those whose id is not in the table,
    [autoReplace] those whose id is in the table and that are corrections or
    more than 30 seconds newer than the stored entry, and [manualReview]
    pairs the stored entry with each incoming entry that is no correction
    and is at most 30 seconds newer or older; the table is only read. *)
Theorem detectConflicts_buckets (scoutingData : Table.t DbEntry.t)
    (incomingEntries : list DbEntry.t) :
  let r := detectConflicts scoutingData incomingEntries in
  Conflict.autoImport r = filter (isNewEntry scoutingData) incomingEntries
  /\ Conflict.autoReplace r
     = filter (replacesExisting scoutingData) incomingEntries
  /\ Conflict.manualReview r
     = filterSome (map (needsReview scoutingData) incomingEntries).
Proof.
  cbv zeta. unfold detectConflicts. rewrite detectConflicts_fold. cbn.
  repeat split.
Qed.

Lemma outcome_exclusive db e :
  ((if isNewEntry db e then 1 else 0)
   + (if replacesExisting db e then 1 else 0)
   + (if isDropped db e then 1 else 0)
   + (match needsReview db e with Some _ => 1 | None => 0 end) = 1)%nat.
Proof.
  unfold isNewEntry, replacesExisting, isDropped, needsReview.
  destruct (Table.get DbEntry.id (DbEntry.id e) db) as [existing|];
    [|reflexivity].
  destruct (DbEntry.isCorrected e); cbn [orb negb andb]; [reflexivity|].
  destruct (Z.ltb_spec 30000 (DbEntry.timestamp e - DbEntry.timestamp existing));
    destruct (Z.ltb_spec (DbEntry.timestamp e - DbEntry.timestamp existing)
                (-30000));
    destruct (Z.leb_spec (DbEntry.timestamp e - DbEntry.timestamp existing)
                30000);
    destruct (Z.leb_spec (-30000)
                (DbEntry.timestamp e - DbEntry.timestamp existing));
    cbn; lia.
Qed.

Lemma outcomes_add_up db (l : list DbEntry.t) :
  (List.length (filter (isNewEntry db) l)
   + List.length (filter (replacesExisting db) l)
   + List.length (filterSome (map (needsReview db) l))
   + List.length (filter (isDropped db) l) = List.length l)%nat.
Proof.
  induction l as [|e l IH]; [reflexivity|].
  pose proof (outcome_exclusive db e) as He.
  cbn [filter map]. unfold filterSome at 1. cbn [flat_map].
  fold (filterSome (map (needsReview db) l)).
  destruct (isNewEntry db e), (replacesExisting db e), (isDropped db e),
    (needsReview db e);
    cbn [List.length app] in *; lia.
Qed.

(** X5: every incoming entry meets exactly one fate: imported, replacing,
    queued for review, or dropped because the stored entry is more than 30
    seconds newer; so the three lists and the dropped entries add up to the
    input.  A correction of a stored entry always replaces it, whatever the
    time stamps, and an entry exactly 30 seconds newer than the stored one is
    reviewed, not replaced. *)
Theorem detectConflicts_outcomes (scoutingData : Table.t DbEntry.t)
    (incomingEntries : list DbEntry.t) :
  let r := detectConflicts scoutingData incomingEntries in
  (List.length (Conflict.autoImport r) + List.length (Conflict.autoReplace r)
   + List.length (Conflict.manualReview r)
   + List.length (filter (isDropped scoutingData) incomingEntries)
   = List.length incomingEntries)%nat
  /\ (forall e existing,
        In e incomingEntries ->
        Table.get DbEntry.id (DbEntry.id e) scoutingData = Some existing ->
        DbEntry.isCorrected e = true ->
        In e (Conflict.autoReplace r)
        /\ ~ In (existing, e) (Conflict.manualReview r))
  /\ (forall e existing,
        In e incomingEntries ->
        Table.get DbEntry.id (DbEntry.id e) scoutingData = Some existing ->
        DbEntry.isCorrected e = false ->
        DbEntry.timestamp e = (DbEntry.timestamp existing + 30000)%Z ->
        In (existing, e) (Conflict.manualReview r)
        /\ ~ In e (Conflict.autoReplace r)).
Proof.
  cbv zeta. unfold detectConflicts. rewrite detectConflicts_fold.
  cbn [Conflict.autoImport Conflict.autoReplace Conflict.manualReview app].
  split; [|split].
  - apply outcomes_add_up.
  - intros e existing He Hget Hc. split.
    + apply filter_In. split; [assumption|].
      unfold replacesExisting. now rewrite Hget, Hc.
    + intros Hin. apply filterSome_In, in_map_iff in Hin as (e' & Hrev & _).
      unfold needsReview in Hrev.
      destruct (Table.get DbEntry.id (DbEntry.id e') scoutingData); [|discriminate].
      destruct (negb (DbEntry.isCorrected e') && _ && _) eqn:E; [|discriminate].
      injection Hrev as _ ->. rewrite Hc in E. discriminate.
  - intros e existing He Hget Hc Ht. split.
    + apply filterSome_In, in_map_iff. exists e. split; [|assumption].
      unfold needsReview. rewrite Hget, Hc, Ht.
      replace (DbEntry.timestamp existing + 30000 - DbEntry.timestamp existing)%Z
        with 30000%Z by lia.
      reflexivity.
    + intros Hin. apply filter_In in Hin as [_ Hin].
      unfold replacesExisting in Hin. rewrite Hget, Hc, Ht in Hin.
      replace (DbEntry.timestamp existing + 30000 - DbEntry.timestamp existing)%Z
        with 30000%Z in Hin by lia.
      discriminate.
Qed.

(** *** Import *)

Lemma append_newEntries entries db :
  filter
    (fun entry =>
       negb (SSet.mem (DbEntry.id entry)
               (SSet.ofList (Table.keys DbEntry.id db))))
    entries
  = freshEntries db entries.
Proof.
  unfold freshEntries, Table.keys. apply filter_ext. intros e.
  now rewrite SSetFacts.mem_ofList.
Qed.

Lemma freshEntries_In existingData newData e :
  In e (freshEntries existingData newData)
  <-> In e newData /\ ~ In (DbEntry.id e) (map DbEntry.id existingData).
Proof.
  unfold freshEntries. rewrite filter_In, negb_true_iff, <- not_true_iff_false.
  now rewrite existsb_eqb_In.
Qed.

Lemma find_filter_sub {A : Type} (p q : A -> bool) (l : list A) :
  (forall x, p x = true -> q x = true) ->
  find p (filter q l) = find p l.
Proof.
  intros Hsub. induction l as [|x l IH]; cbn [filter find]; [reflexivity|].
  destruct (p x) eqn:Ep.
  - rewrite (Hsub x Ep). cbn [find]. now rewrite Ep.
  - destruct (q x); cbn [find]; [rewrite Ep|]; exact IH.
Qed.

(** Under an id that is not a key of the table, the fresh entries hold
    what the offered entries hold. *)
Lemma lastWithId_fresh (db entries : list DbEntry.t) (k : string) :
  ~ In k (map DbEntry.id db) ->
  lastWithId k (freshEntries db entries) = lastWithId k entries.
Proof.
  intros Hk. unfold lastWithId, freshEntries. rewrite <- filter_rev.
  apply find_filter_sub. intros e He. apply String.eqb_eq in He.
  apply negb_true_iff, not_true_iff_false. rewrite existsb_eqb_In.
  now rewrite He.
Qed.

(** With pairwise distinct ids an entry is the last one under its id. *)
Lemma lastWithId_unique (entries : list DbEntry.t) (e : DbEntry.t) :
  NoDup (map DbEntry.id entries) -> In e entries ->
  lastWithId (DbEntry.id e) entries = Some e.
Proof.
  intros Hnd He. unfold lastWithId.
  destruct (find (fun x => String.eqb (DbEntry.id x) (DbEntry.id e))
              (rev entries)) as [e'|] eqn:E.
  - apply find_some in E as [He' Hid]. apply in_rev in He'.
    apply String.eqb_eq in Hid. f_equal.
    clear - Hnd He He' Hid. induction entries as [|x l IH]; [contradiction|].
    cbn [map] in Hnd. inversion Hnd as [|? ? Hx Hl]; subst.
    destruct He as [<-|He], He' as [<-|He']; auto.
    + exfalso. apply Hx. rewrite <- Hid. now apply in_map.
    + exfalso. apply Hx. rewrite Hid. now apply in_map.
  - exfalso. apply in_rev in He.
    pose proof (find_none _ _ E e He) as Hf. cbv beta in Hf.
    now rewrite String.eqb_refl in Hf.
Qed.

(** X6: [importScoutingData] in append mode stores the imported entries
    whose id is not yet a key of the table and leaves every stored entry as
    it is: afterwards an id that was a key holds what it held, and an id
    that was not holds the last offered entry with that id (the offered
    entry itself when the offered ids are pairwise distinct), or nothing
    when no entry with that id was offered.  [importedCount +
    duplicatesSkipped] is the number of entries offered; afterwards every
    offered id is a key.  When the offered ids are pairwise distinct, the
    table grows by exactly [importedCount] rows. *)
Theorem importScoutingData_append (entries : list DbEntry.t)
    (scoutingData : Table.t DbEntry.t) :
  let r := fst (importScoutingData entries Append scoutingData) in
  let stored := snd (importScoutingData entries Append scoutingData) in
  ImportResult.success r = true
  /\ ImportResult.importedCount r
     = List.length (freshEntries scoutingData entries)
  /\ (exists skipped,
        ImportResult.duplicatesSkipped r = Some skipped
        /\ (ImportResult.importedCount r + skipped = List.length entries)%nat)
  /\ (forall k, In k (Table.keys DbEntry.id scoutingData) ->
        Table.get DbEntry.id k stored = Table.get DbEntry.id k scoutingData)
  /\ (forall k, ~ In k (Table.keys DbEntry.id scoutingData) ->
        Table.get DbEntry.id k stored = lastWithId k entries)
  /\ (NoDup (map DbEntry.id entries) ->
      forall e, In e entries ->
        ~ In (DbEntry.id e) (Table.keys DbEntry.id scoutingData) ->
        Table.get DbEntry.id (DbEntry.id e) stored = Some e)
  /\ (forall k, In k (Table.keys DbEntry.id stored) <->
        In k (Table.keys DbEntry.id scoutingData)
        \/ In k (map DbEntry.id entries))
  /\ (NoDup (map DbEntry.id entries) ->
      List.length stored
      = (List.length scoutingData + ImportResult.importedCount r)%nat).
Proof.
  cbv zeta. unfold importScoutingData.
  cbn [fst snd ImportResult.success ImportResult.importedCount
       ImportResult.duplicatesSkipped].
  rewrite append_newEntries.
  pose proof (freshEntries_length scoutingData entries) as Hle.
  assert (forall k, ~ In k (Table.keys DbEntry.id scoutingData) ->
            Table.get DbEntry.id k
              (Table.bulkPut DbEntry.id (freshEntries scoutingData entries)
                 scoutingData)
            = lastWithId k entries) as Hfresh.
  { intros k Hk. rewrite TableFacts.get_bulkPut.
    rewrite (proj2 (TableFacts.get_None DbEntry.id scoutingData k) Hk).
    fold (lastWithId k (freshEntries scoutingData entries)).
    rewrite (lastWithId_fresh scoutingData entries k Hk).
    now destruct (lastWithId k entries). }
  split; [reflexivity|]. split; [reflexivity|].
  split; [|split; [|split; [|split; [|split]]]].
  - eexists. split; [reflexivity | lia].
  - intros k Hk. rewrite TableFacts.get_bulkPut.
    destruct (find _ (rev (freshEntries scoutingData entries))) as [e|] eqn:E;
      [|reflexivity].
    exfalso. apply find_some in E as [He Hid]. apply String.eqb_eq in Hid.
    apply in_rev, freshEntries_In in He as [_ He]. apply He. now rewrite Hid.
  - exact Hfresh.
  - intros Hnd e He Hk. rewrite (Hfresh _ Hk).
    now apply lastWithId_unique.
  - intros k. rewrite TableFacts.keys_bulkPut. split.
    + intros [H|H]; [right | now left].
      apply in_map_iff in H as (e & <- & He).
      apply freshEntries_In in He as [He _]. now apply in_map.
    + intros [H|H]; [now right|].
      destruct (in_dec string_dec k (Table.keys DbEntry.id scoutingData))
        as [Hin|Hout]; [now right | left].
      apply in_map_iff in H as (e & <- & He). apply in_map.
      apply freshEntries_In. split; assumption.
  - intros Hnd. apply TableFacts.length_bulkPut.
    + unfold freshEntries. clear Hle Hfresh.
      induction entries as [|e l IH]; cbn [filter map]; [constructor|].
      cbn [map] in Hnd. inversion Hnd as [|? ? He Hl]; subst.
      destruct (negb _); [|now apply IH].
      cbn [map]. constructor; [|now apply IH].
      intros Hin. apply He. apply in_map_iff in Hin as (x & Hx & Hin).
      apply filter_In in Hin as [Hin _]. rewrite <- Hx. now apply in_map.
    + intros e He. now apply freshEntries_In in He as [_ He].
Qed.

(** X7: importing the same entries in append mode a second time imports
    nothing, skips all of them and leaves the table as the first import
    left it. *)
Theorem importScoutingData_append_twice (entries : list DbEntry.t)
    (scoutingData : Table.t DbEntry.t) :
  let once := snd (importScoutingData entries Append scoutingData) in
  let again := importScoutingData entries Append once in
  ImportResult.importedCount (fst again) = 0%nat
  /\ ImportResult.duplicatesSkipped (fst again) = Some (List.length entries)
  /\ snd again = once.
Proof.
  cbv zeta.
  set (once := snd (importScoutingData entries Append scoutingData)).
  assert (freshEntries once entries = []) as Hnone.
  { unfold freshEntries. apply filter_none. intros e He.
    apply negb_false_iff, existsb_eqb_In.
    change (map DbEntry.id once) with (Table.keys DbEntry.id once).
    unfold once, importScoutingData. cbn [snd].
    rewrite append_newEntries, TableFacts.keys_bulkPut.
    destruct (in_dec string_dec (DbEntry.id e)
                (Table.keys DbEntry.id scoutingData)) as [Hin|Hout];
      [now right | left].
    apply in_map, freshEntries_In. split; assumption. }
  unfold importScoutingData at 1 2 3.
  cbn [fst snd ImportResult.importedCount ImportResult.duplicatesSkipped].
  rewrite append_newEntries, Hnone. cbn. rewrite Nat.sub_0_r. repeat split.
Qed.

(** X8: [importScoutingData] in overwrite mode replaces the table: its keys
    are the imported ids, a key holds the last imported entry with that id,
    and no earlier row survives; [importedCount] is the number of entries
    offered, which is the number of rows stored when the ids are pairwise
    distinct. *)
Theorem importScoutingData_overwrite (entries : list DbEntry.t)
    (scoutingData : Table.t DbEntry.t) :
  let r := fst (importScoutingData entries Overwrite scoutingData) in
  let stored := snd (importScoutingData entries Overwrite scoutingData) in
  ImportResult.success r = true
  /\ ImportResult.importedCount r = List.length entries
  /\ ImportResult.duplicatesSkipped r = None
  /\ (forall k, Table.get DbEntry.id k stored = lastWithId k entries)
  /\ (forall k, In k (Table.keys DbEntry.id stored)
                <-> In k (map DbEntry.id entries))
  /\ NoDup (Table.keys DbEntry.id stored)
  /\ (NoDup (map DbEntry.id entries) ->
      List.length stored = ImportResult.importedCount r).
Proof.
  cbv zeta. unfold importScoutingData, Table.clear.
  cbn [fst snd ImportResult.success ImportResult.importedCount
       ImportResult.duplicatesSkipped].
  repeat split.
  - intros k. rewrite TableFacts.get_bulkPut. unfold lastWithId.
    now destruct (find _ (rev entries)).
  - intros H. apply TableFacts.keys_bulkPut in H as [H|[]]. exact H.
  - intros H. apply TableFacts.keys_bulkPut. now left.
  - apply TableFacts.keys_bulkPut_NoDup. constructor.
  - intros Hnd. rewrite TableFacts.length_bulkPut; auto.
Qed.

(** ** Queries and statistics *)

Lemma filter_filter {A : Type} (f g : A -> bool) (l : list A) :
  filter g (filter f l) = filter (fun x => f x && g x) l.
Proof.
  induction l as [|x l IH]; cbn; [reflexivity|].
  destruct (f x); cbn; [destruct (g x)|]; now rewrite IH.
Qed.

Lemma filterWhen_filter {A : Type} (xs : option (list A))
    (keep : list A -> DbEntry.t -> bool) (p : DbEntry.t -> bool)
    (all : list DbEntry.t) :
  filterWhen xs keep (filter p all)
  = filter (fun e => p e && whenActive xs (fun l => keep l e)) all.
Proof.
  unfold filterWhen, whenActive, activeList.
  destruct xs as [[|x l]|].
  - apply filter_ext. intros e. now rewrite andb_true_r.
  - apply filter_filter.
  - apply filter_ext. intros e. now rewrite andb_true_r.
Qed.

Lemma queryScoutingEntries_filter (f : Query.filters)
    (scoutingData : list DbEntry.t) :
  queryScoutingEntries f scoutingData = filter (satisfiesFilters f) scoutingData.
Proof.
  unfold queryScoutingEntries, satisfiesFilters. cbv zeta.
  assert (match Query.dateRange f with
          | Some (start, stop) =>
              filter
                (fun entry =>
                   (start <=? DbEntry.timestamp entry)%Z
                   && (DbEntry.timestamp entry <=? stop)%Z)
                scoutingData
          | None => scoutingData
          end
          = filter
              (fun e =>
                 match Query.dateRange f with
                 | Some (start, stop) =>
                     (start <=? DbEntry.timestamp e)%Z
                     && (DbEntry.timestamp e <=? stop)%Z
                 | None => true
                 end)
              scoutingData) as ->.
  { destruct (Query.dateRange f) as [[start stop]|]; [reflexivity|].
    symmetry. now apply filter_all. }
  now rewrite !filterWhen_filter.
Qed.

(** X9: the successive filters of [queryScoutingEntries] amount to one
    pass: the result is the table restricted, in table order, to the entries
    that lie in the date range (bounds included) and pass every list filter
    that holds at least one value. *)
Theorem queryScoutingEntries_one_pass (f : Query.filters)
    (scoutingData : list DbEntry.t) :
  queryScoutingEntries f scoutingData
  = filter (satisfiesFilters f) scoutingData
  /\ forall e, In e (queryScoutingEntries f scoutingData)
               <-> In e scoutingData /\ satisfiesFilters f e = true.
Proof.
  split; [apply queryScoutingEntries_filter|].
  intros e. rewrite queryScoutingEntries_filter. apply filter_In.
Qed.

(** X10: a query without date range and with only absent or empty list
    filters returns the whole table; an empty list filters nothing; and
    under a team filter every entry returned has a team number of the list
    that is not 0, so entries with team number 0 are never returned, even
    when 0 is listed. *)
Theorem queryScoutingEntries_edges (f : Query.filters)
    (scoutingData : list DbEntry.t) :
  queryScoutingEntries f scoutingData
  = queryScoutingEntries (dropEmptyLists f) scoutingData
  /\ (dropEmptyLists f = Query.mk None None None None None None ->
      queryScoutingEntries f scoutingData = scoutingData)
  /\ (forall t teams e,
        Query.teamNumbers f = Some (t :: teams) ->
        In e (queryScoutingEntries f scoutingData) ->
        DbEntry.teamNumber e <> 0%Z /\ In (DbEntry.teamNumber e) (t :: teams)).
Proof.
  assert (forall A (xs : option (list A)), activeList (activeList xs)
                                           = activeList xs) as Hact
    by (intros A [[|x l]|]; reflexivity).
  assert (queryScoutingEntries f scoutingData
          = queryScoutingEntries (dropEmptyLists f) scoutingData) as Hdrop.
  { unfold queryScoutingEntries, dropEmptyLists, filterWhen. cbv zeta.
    cbn [Query.teamNumbers Query.matchNumbers Query.eventKeys Query.alliances
         Query.scoutName Query.dateRange].
    now rewrite !Hact. }
  split; [exact Hdrop|]. split.
  - intros Hnone. rewrite Hdrop, Hnone. reflexivity.
  - intros t teams e Hf He.
    rewrite queryScoutingEntries_filter in He. apply filter_In in He as [_ H].
    unfold satisfiesFilters in H. rewrite Hf in H. cbn [whenActive] in H.
    rewrite !andb_true_iff in H.
    destruct H as [[[[[_ [Hnz Hin]] _] _] _] _].
    split.
    + apply negb_true_iff, Z.eqb_neq in Hnz. exact Hnz.
    + apply existsb_exists in Hin as (x & Hx & Ex). apply Z.eqb_eq in Ex.
      now subst.
Qed.

(** *** [getDBStats] *)

Lemma stats_teamSet l : forall a t,
  In t (Stats.teamSet (fold_left getDBStatsStep l a))
  <-> In t (Stats.teamSet a)
      \/ (t <> 0%Z /\ In t (map DbEntry.teamNumber l)).
Proof.
  induction l as [|e l IH]; intros a t; cbn [fold_left map In].
  - intuition.
  - rewrite IH. unfold getDBStatsStep. cbn [Stats.teamSet].
    destruct (Z.eqb_spec (DbEntry.teamNumber e) 0) as [E|E]; cbn [negb].
    + intuition congruence.
    + rewrite OSetFacts.add_In. intuition congruence.
Qed.

Lemma stats_matchSet l : forall a t,
  In t (Stats.matchSet (fold_left getDBStatsStep l a))
  <-> In t (Stats.matchSet a)
      \/ (t <> 0%Z /\ In t (map DbEntry.matchNumber l)).
Proof.
  induction l as [|e l IH]; intros a t; cbn [fold_left map In].
  - intuition.
  - rewrite IH. unfold getDBStatsStep. cbn [Stats.matchSet].
    destruct (Z.eqb_spec (DbEntry.matchNumber e) 0) as [E|E]; cbn [negb].
    + intuition congruence.
    + rewrite OSetFacts.add_In. intuition congruence.
Qed.

Lemma stats_scoutSet l : forall a s,
  In s (Stats.scoutSet (fold_left getDBStatsStep l a))
  <-> In s (Stats.scoutSet a)
      \/ (s <> ""%string /\ In s (map DbEntry.scoutName l)).
Proof.
  induction l as [|e l IH]; intros a s; cbn [fold_left map In].
  - intuition.
  - rewrite IH. unfold getDBStatsStep. cbn [Stats.scoutSet].
    destruct (String.eqb_spec (DbEntry.scoutName e) "") as [E|E]; cbn [negb].
    + intuition congruence.
    + rewrite SSetFacts.add_In_str. intuition congruence.
Qed.

Lemma stats_eventSet l : forall a s,
  In s (Stats.eventSet (fold_left getDBStatsStep l a))
  <-> In s (Stats.eventSet a)
      \/ (s <> ""%string /\ In s (map DbEntry.eventKey l)).
Proof.
  induction l as [|e l IH]; intros a s; cbn [fold_left map In].
  - intuition.
  - rewrite IH. unfold getDBStatsStep. cbn [Stats.eventSet].
    destruct (String.eqb_spec (DbEntry.eventKey e) "") as [E|E]; cbn [negb].
    + intuition congruence.
    + rewrite SSetFacts.add_In_str. intuition congruence.
Qed.

Lemma stats_sets_NoDup l : forall a,
  NoDup (Stats.teamSet a) -> NoDup (Stats.matchSet a) ->
  NoDup (Stats.teamSet (fold_left getDBStatsStep l a))
  /\ NoDup (Stats.matchSet (fold_left getDBStatsStep l a)).
Proof.
  induction l as [|e l IH]; intros a Ht Hm; cbn [fold_left].
  - now split.
  - apply IH; unfold getDBStatsStep; cbn [Stats.teamSet Stats.matchSet].
    + destruct (negb _); auto using OSetFacts.add_NoDup.
    + destruct (negb (DbEntry.matchNumber e =? 0)%Z);
        auto using OSetFacts.add_NoDup.
Qed.

(** A list without repetition that [sort((a, b) => a - b)] has put in
    order is strictly ascending. *)
Lemma sorted_distinct_ascending (l : list Z) :
  Sorted (fun a b => (a - b <= 0)%Z) l -> NoDup l -> Sorted Z.lt l.
Proof.
  intros Hs. induction Hs as [|x l Hs IH Hhd]; intros Hnd; constructor.
  - apply IH. now inversion Hnd.
  - inversion Hnd as [|? ? Hx _]; subst.
    destruct Hhd as [|y l Hxy]; constructor.
    assert (x <> y) by (intros ->; apply Hx; now left). lia.
Qed.

Lemma sortBy_numeric_ascending (s : list Z) :
  NoDup s -> Sorted Z.lt (sortBy (fun a b => (a - b)%Z) s).
Proof.
  intros Hnd. apply sorted_distinct_ascending.
  - apply (@sortBy_sorted Z (fun a b => (a - b)%Z)). intros x y. lia.
  - apply (Permutation_NoDup (l := s)); [|exact Hnd].
    symmetry. apply sortBy_perm.
Qed.

(** X11: [getDBStats] lists the team numbers and the match numbers of the
    entries in strictly ascending order, each once, and leaves out the
    number 0; the scouts and events listed are the non-empty scout names and
    event keys of the entries; [totalEntries] counts all entries, also those
    left out of the lists. *)
Theorem getDBStats_lists (entries : list DbEntry.t) :
  let stats := getDBStats entries in
  Stats.totalEntries stats = List.length entries
  /\ Sorted Z.lt (Stats.teams stats)
  /\ (forall t, In t (Stats.teams stats)
                <-> t <> 0%Z /\ In t (map DbEntry.teamNumber entries))
  /\ Sorted Z.lt (Stats.matches stats)
  /\ (forall m, In m (Stats.matches stats)
                <-> m <> 0%Z /\ In m (map DbEntry.matchNumber entries))
  /\ (forall s, In s (Stats.scouts stats)
                <-> s <> ""%string /\ In s (map DbEntry.scoutName entries))
  /\ (forall s, In s (Stats.events stats)
                <-> s <> ""%string /\ In s (map DbEntry.eventKey entries)).
Proof.
  cbv zeta. unfold getDBStats.
  cbn [Stats.totalEntries Stats.teams Stats.matches Stats.scouts Stats.events].
  set (a0 := Stats.mkAcc [] [] [] [] None None).
  destruct (stats_sets_NoDup entries a0) as [Ht Hm]; [constructor ..|].
  split; [reflexivity|].
  split; [now apply sortBy_numeric_ascending|].
  split; [intros t; rewrite sortBy_In, stats_teamSet; cbn; tauto|].
  split; [now apply sortBy_numeric_ascending|].
  split; [intros t; rewrite sortBy_In, stats_matchSet; cbn; tauto|].
  split; [intros s; rewrite sortBy_In, stats_scoutSet; cbn; tauto|].
  intros s; rewrite sortBy_In, stats_eventSet; cbn; tauto.
Qed.

(** The oldest and newest time stamps after the loop, when no time stamp
    is 0 or negative. *)
Lemma stats_times l : forall a,
  (forall e, In e l -> (0 < DbEntry.timestamp e)%Z) ->
  (forall z, Stats.oldest a = Some z -> (0 < z)%Z) ->
  (forall z, Stats.newest a = Some z -> (0 < z)%Z) ->
  let a' := fold_left getDBStatsStep l a in
  match Stats.oldest a' with
  | None => l = [] /\ Stats.oldest a = None
  | Some lo =>
      (Stats.oldest a = Some lo \/ In lo (map DbEntry.timestamp l))
      /\ (forall z, Stats.oldest a = Some z -> (lo <= z)%Z)
      /\ (forall e, In e l -> (lo <= DbEntry.timestamp e)%Z)
  end
  /\ match Stats.newest a' with
     | None => l = [] /\ Stats.newest a = None
     | Some hi =>
         (Stats.newest a = Some hi \/ In hi (map DbEntry.timestamp l))
         /\ (forall z, Stats.newest a = Some z -> (z <= hi)%Z)
         /\ (forall e, In e l -> (DbEntry.timestamp e <= hi)%Z)
     end.
Proof.
  induction l as [|e l IH]; intros a Hpos Hlo Hhi; cbn [fold_left]; cbv zeta.
  - split.
    + destruct (Stats.oldest a) as [lo|]; [|now split].
      split; [now left|]. split; [intros z [= <-]; lia | intros e []].
    + destruct (Stats.newest a) as [hi|]; [|now split].
      split; [now left|]. split; [intros z [= <-]; lia | intros e []].
  - assert (0 < DbEntry.timestamp e)%Z as He by (apply Hpos; now left).
    set (a1 := getDBStatsStep a e).
    assert (exists lo1, Stats.oldest a1 = Some lo1
                        /\ (0 < lo1)%Z /\ (lo1 <= DbEntry.timestamp e)%Z
                        /\ (forall z, Stats.oldest a = Some z -> (lo1 <= z)%Z)
                        /\ (Stats.oldest a = Some lo1
                            \/ lo1 = DbEntry.timestamp e)) as (lo1 & Elo & Plo).
    { unfold a1, getDBStatsStep. cbn [Stats.oldest].
      destruct (Stats.oldest a) as [z|] eqn:Ez; cbn [unsetOrZero orElse].
      - specialize (Hlo z eq_refl).
        destruct (Z.eqb_spec z 0) as [ ? | _ ]; [lia|]. cbn [orb].
        destruct (Z.ltb_spec (DbEntry.timestamp e) z).
        + eexists. split; [reflexivity|].
          split; [lia|]. split; [lia|]. split; [intros ? [= <-]; lia | now right].
        + eexists. split; [reflexivity|].
          split; [lia|]. split; [lia|]. split; [intros ? [= <-]; lia | now left].
      - cbn [orb]. eexists. split; [reflexivity|].
        split; [lia|]. split; [lia|]. split; [discriminate | now right]. }
    assert (exists hi1, Stats.newest a1 = Some hi1
                        /\ (0 < hi1)%Z /\ (DbEntry.timestamp e <= hi1)%Z
                        /\ (forall z, Stats.newest a = Some z -> (z <= hi1)%Z)
                        /\ (Stats.newest a = Some hi1
                            \/ hi1 = DbEntry.timestamp e)) as (hi1 & Ehi & Phi).
    { unfold a1, getDBStatsStep. cbn [Stats.newest].
      destruct (Stats.newest a) as [z|] eqn:Ez; cbn [unsetOrZero orElse].
      - specialize (Hhi z eq_refl).
        destruct (Z.eqb_spec z 0) as [ ? | _ ]; [lia|]. cbn [orb].
        destruct (Z.ltb_spec z (DbEntry.timestamp e)).
        + eexists. split; [reflexivity|].
          split; [lia|]. split; [lia|]. split; [intros ? [= <-]; lia | now right].
        + eexists. split; [reflexivity|].
          split; [lia|]. split; [lia|]. split; [intros ? [= <-]; lia | now left].
      - cbn [orb]. eexists. split; [reflexivity|].
        split; [lia|]. split; [lia|]. split; [discriminate | now right]. }
    destruct Plo as (Plo0 & Plo1 & Plo2 & Plo3).
    destruct Phi as (Phi0 & Phi1 & Phi2 & Phi3).
    specialize (IH a1).
    destruct IH as [IHlo IHhi].
    { intros e' He'. apply Hpos. now right. }
    { intros z Hz. rewrite Elo in Hz. now injection Hz as <-. }
    { intros z Hz. rewrite Ehi in Hz. now injection Hz as <-. }
    cbv zeta in IHlo, IHhi. split.
    + destruct (Stats.oldest (fold_left getDBStatsStep l a1)) as [lo|].
      * destruct IHlo as (I1 & I2 & I3).
        specialize (I2 lo1 Elo).
        split; [|split].
        -- cbn [map In]. rewrite Elo in I1.
           destruct I1 as [ [= <-] | I1]; [|now right; right].
           destruct Plo3 as [Plo3|Plo3]; rewrite Plo3; [now left | now right; left].
        -- intros z Hz. specialize (Plo2 z Hz). lia.
        -- intros e' [<-|He']; [lia | now apply I3].
      * destruct IHlo as [_ IHlo]. congruence.
    + destruct (Stats.newest (fold_left getDBStatsStep l a1)) as [hi|].
      * destruct IHhi as (I1 & I2 & I3).
        specialize (I2 hi1 Ehi).
        split; [|split].
        -- cbn [map In]. rewrite Ehi in I1.
           destruct I1 as [ [= <-] | I1]; [|now right; right].
           destruct Phi3 as [Phi3|Phi3]; rewrite Phi3; [now left | now right; left].
        -- intros z Hz. specialize (Phi2 z Hz). lia.
        -- intros e' [<-|He']; [lia | now apply I3].
      * destruct IHhi as [_ IHhi]. congruence.
Qed.

(** X12: when every entry has a positive time stamp, [oldestEntry] and
    [newestEntry] are the least and the greatest time stamp of the entries,
    and both are absent exactly for an empty table. *)
Theorem getDBStats_oldest_newest (entries : list DbEntry.t)
    (Hpos : forall e, In e entries -> (0 < DbEntry.timestamp e)%Z) :
  let stats := getDBStats entries in
  match Stats.oldestEntry stats with
  | None => entries = []
  | Some lo =>
      In lo (map DbEntry.timestamp entries)
      /\ forall e, In e entries -> (lo <= DbEntry.timestamp e)%Z
  end
  /\ match Stats.newestEntry stats with
     | None => entries = []
     | Some hi =>
         In hi (map DbEntry.timestamp entries)
         /\ forall e, In e entries -> (DbEntry.timestamp e <= hi)%Z
     end.
Proof.
  cbv zeta. unfold getDBStats. cbn [Stats.oldestEntry Stats.newestEntry].
  set (a0 := Stats.mkAcc [] [] [] [] None None).
  destruct (@stats_times entries a0 Hpos) as [Hlo Hhi];
    [discriminate | discriminate |].
  split.
  - destruct (Stats.oldest (fold_left getDBStatsStep entries a0)) as [lo|].
    + destruct Hlo as ([Hlo|Hlo] & _ & Hmin); [discriminate|]. now split.
    + tauto.
  - destruct (Stats.newest (fold_left getDBStatsStep entries a0)) as [hi|].
    + destruct Hhi as ([Hhi|Hhi] & _ & Hmax); [discriminate|]. now split.
    + tauto.
Qed.

Lemma getDBStats_oldest_newest_witness :
  let stats := getDBStats StatsExample.entries in
  match Stats.oldestEntry stats with
  | None => StatsExample.entries = []
  | Some lo =>
      In lo (map DbEntry.timestamp StatsExample.entries)
      /\ forall e, In e StatsExample.entries -> (lo <= DbEntry.timestamp e)%Z
  end
  /\ match Stats.newestEntry stats with
     | None => StatsExample.entries = []
     | Some hi =>
         In hi (map DbEntry.timestamp StatsExample.entries)
         /\ forall e, In e StatsExample.entries
                      -> (DbEntry.timestamp e <= hi)%Z
     end.
Proof.
  apply (@getDBStats_oldest_newest StatsExample.entries).
  intros e [<-|[<-|[<-|[]]]]; reflexivity.
Defined.

(** ** Scouts *)

Lemma put_put {V : Type} (key : V -> string) (v w : V) (tb : Table.t V) :
  key v = key w ->
  Table.put key w (Table.put key v tb) = Table.put key w tb.
Proof.
  intros E. induction tb as [|u tb IH]; cbn [Table.put].
  - rewrite E, String.eqb_refl. reflexivity.
  - rewrite <- E. destruct (String.eqb (key u) (key v)) eqn:Eu; cbn [Table.put].
    + now rewrite E, String.eqb_refl.
    + rewrite <- E, Eu. f_equal. exact IH.
Qed.

Lemma updateScoutStats_known name newStakes correct total current longest
    extra now scouts scout :
  Table.get Scout.name name scouts = Some scout ->
  let scout' :=
    Scout.mk name newStakes (Scout.stakesFromPredictions scout + extra)%Z
      total correct (current ?? Scout.currentStreak scout)
      (longest ?? Scout.longestStreak scout) (Scout.createdAt scout) now in
  let scouts' :=
    updateScoutStats name newStakes correct total current longest extra now
      scouts in
  Table.get Scout.name name scouts' = Some scout'
  /\ forall k, k <> name ->
               Table.get Scout.name k scouts' = Table.get Scout.name k scouts.
Proof.
  intros Hget. cbv zeta. unfold updateScoutStats. rewrite Hget.
  rewrite (TableFacts.get_key _ _ _ Hget). split.
  - apply (TableFacts.get_put_same Scout.name scouts
             (Scout.mk name newStakes _ total correct _ _ _ now)).
  - intros k Hk. now apply TableFacts.get_put_other.
Qed.

(** X13: for a known scout [updateScoutWithPredictionResult] books the
    points it returns on both [stakes] and [stakesFromPredictions], counts
    one more prediction (and one more correct one after a correct
    prediction), and leaves every other scout as stored.  A wrong
    prediction gives 0 points and resets the current streak while the
    longest streak stays; a correct one gives the base points plus 2 for
    every step of the new streak beyond the first, and the longest streak
    becomes the greater of the old one and the new streak. *)
Theorem updateScoutWithPredictionResult_accounting (name : string)
    (isCorrect : bool) (basePoints : Z) (lastPrediction : list Prediction.t)
    (matchNumber : string) (now : Z) (scouts : Table.t Scout.t)
    (scout : Scout.t)
    (Hget : Table.get Scout.name name scouts = Some scout) :
  let (points, scouts') :=
    updateScoutWithPredictionResult name isCorrect basePoints lastPrediction
      matchNumber now scouts in
  exists scout',
    Table.get Scout.name name scouts' = Some scout'
    /\ Scout.name scout' = name
    /\ Scout.stakes scout' = (Scout.stakes scout + points)%Z
    /\ Scout.stakesFromPredictions scout'
       = (Scout.stakesFromPredictions scout + points)%Z
    /\ Scout.totalPredictions scout' = (Scout.totalPredictions scout + 1)%Z
    /\ Scout.correctPredictions scout'
       = (Scout.correctPredictions scout + (if isCorrect then 1 else 0))%Z
    /\ Scout.createdAt scout' = Scout.createdAt scout
    /\ Scout.lastUpdated scout' = now
    /\ (forall k, k <> name ->
                  Table.get Scout.name k scouts' = Table.get Scout.name k scouts)
    /\ (isCorrect = false ->
        points = 0%Z /\ Scout.currentStreak scout' = 0%Z
        /\ Scout.longestStreak scout' = Scout.longestStreak scout)
    /\ (isCorrect = true ->
        points = (basePoints + 2 * Z.max 0 (Scout.currentStreak scout' - 1))%Z
        /\ Scout.longestStreak scout'
           = Z.max (Scout.longestStreak scout) (Scout.currentStreak scout')
        /\ (Scout.currentStreak scout' = (Scout.currentStreak scout + 1)%Z
            \/ Scout.currentStreak scout' = 1%Z)).
Proof.
  unfold updateScoutWithPredictionResult. rewrite Hget.
  destruct isCorrect.
  - set (cur := if isMatchSequential lastPrediction matchNumber
                   || (Scout.totalPredictions scout =? 0)%Z
                then (Scout.currentStreak scout + 1)%Z else 1%Z).
    cbv zeta.
    match goal with
    | |- context [updateScoutStats name ?s ?c ?t ?cu ?lo ?ex now scouts] =>
        destruct (@updateScoutStats_known name s c t cu lo ex now scouts scout
                    Hget) as [Hnew Hframe]
    end.
    eexists. split; [exact Hnew|].
    cbn [Scout.name Scout.stakes Scout.stakesFromPredictions
         Scout.totalPredictions Scout.correctPredictions Scout.createdAt
         Scout.lastUpdated Scout.currentStreak Scout.longestStreak orElse].
    repeat (split; [reflexivity|]).
    split; [exact Hframe|]. split; [discriminate|]. intros _.
    split; [|split].
    + destruct (Z.leb_spec 2 cur); lia.
    + destruct (Z.ltb_spec (Scout.longestStreak scout) cur); lia.
    + unfold cur. destruct (_ || _); [now left | now right].
  - cbv zeta.
    match goal with
    | |- context [updateScoutStats name ?s ?c ?t ?cu ?lo ?ex now scouts] =>
        destruct (@updateScoutStats_known name s c t cu lo ex now scouts scout
                    Hget) as [Hnew Hframe]
    end.
    eexists. split; [exact Hnew|].
    cbn [Scout.name Scout.stakes Scout.stakesFromPredictions
         Scout.totalPredictions Scout.correctPredictions Scout.createdAt
         Scout.lastUpdated Scout.currentStreak Scout.longestStreak orElse].
    repeat (split; [reflexivity|]).
    split; [exact Hframe|]. split; [intros _; repeat split | discriminate].
Qed.

Lemma updateScoutWithPredictionResult_accounting_witness :
  let (points, scouts') :=
    updateScoutWithPredictionResult "Bob" true 10 ScoutExample.lastVerified
      "12" 3000 ScoutExample.scouts in
  exists scout',
    Table.get Scout.name "Bob" scouts' = Some scout'
    /\ Scout.name scout' = "Bob"%string
    /\ Scout.stakes scout' = (Scout.stakes ScoutExample.bob + points)%Z
    /\ Scout.stakesFromPredictions scout'
       = (Scout.stakesFromPredictions ScoutExample.bob + points)%Z
    /\ Scout.totalPredictions scout'
       = (Scout.totalPredictions ScoutExample.bob + 1)%Z
    /\ Scout.correctPredictions scout'
       = (Scout.correctPredictions ScoutExample.bob + (if true then 1 else 0))%Z
    /\ Scout.createdAt scout' = Scout.createdAt ScoutExample.bob
    /\ Scout.lastUpdated scout' = 3000%Z
    /\ (forall k, k <> "Bob"%string ->
                  Table.get Scout.name k scouts'
                  = Table.get Scout.name k ScoutExample.scouts)
    /\ (true = false ->
        points = 0%Z /\ Scout.currentStreak scout' = 0%Z
        /\ Scout.longestStreak scout' = Scout.longestStreak ScoutExample.bob)
    /\ (true = true ->
        points = (10 + 2 * Z.max 0 (Scout.currentStreak scout' - 1))%Z
        /\ Scout.longestStreak scout'
           = Z.max (Scout.longestStreak ScoutExample.bob)
               (Scout.currentStreak scout')
        /\ (Scout.currentStreak scout'
            = (Scout.currentStreak ScoutExample.bob + 1)%Z
            \/ Scout.currentStreak scout' = 1%Z)).
Proof.
  apply (@updateScoutWithPredictionResult_accounting "Bob" true 10
           ScoutExample.lastVerified "12" 3000 ScoutExample.scouts
           ScoutExample.bob).
  reflexivity.
Defined.

(** X14: [updateScoutWithPredictionResult] keeps the counters of a scout
    consistent (0 <= current streak <= longest streak <= correct
    predictions <= predictions), never lowers the longest streak, and for a
    correct prediction awards at least the base points. *)
Theorem updateScoutWithPredictionResult_consistent (name : string)
    (isCorrect : bool) (basePoints : Z) (lastPrediction : list Prediction.t)
    (matchNumber : string) (now : Z) (scouts : Table.t Scout.t)
    (scout : Scout.t)
    (Hget : Table.get Scout.name name scouts = Some scout)
    (Hok : scoutConsistent scout) :
  let (points, scouts') :=
    updateScoutWithPredictionResult name isCorrect basePoints lastPrediction
      matchNumber now scouts in
  exists scout',
    Table.get Scout.name name scouts' = Some scout'
    /\ scoutConsistent scout'
    /\ (Scout.longestStreak scout <= Scout.longestStreak scout')%Z
    /\ (isCorrect = true -> (basePoints <= points)%Z)
    /\ (isCorrect = true -> (1 <= Scout.currentStreak scout')%Z).
Proof.
  destruct Hok as (H0 & H1 & H2 & H3).
  unfold updateScoutWithPredictionResult. rewrite Hget.
  destruct isCorrect.
  - set (cur := if isMatchSequential lastPrediction matchNumber
                   || (Scout.totalPredictions scout =? 0)%Z
                then (Scout.currentStreak scout + 1)%Z else 1%Z).
    assert (1 <= cur <= Scout.currentStreak scout + 1)%Z as Hcur
      by (unfold cur; destruct (_ || _); lia).
    cbv zeta.
    match goal with
    | |- context [updateScoutStats name ?s ?c ?t ?cu ?lo ?ex now scouts] =>
        destruct (@updateScoutStats_known name s c t cu lo ex now scouts scout
                    Hget) as [Hnew _]
    end.
    eexists. split; [exact Hnew|]. unfold scoutConsistent.
    cbn [Scout.totalPredictions Scout.correctPredictions Scout.currentStreak
         Scout.longestStreak orElse].
    destruct (Z.ltb_spec (Scout.longestStreak scout) cur);
      destruct (Z.leb_spec 2 cur); repeat split; lia.
  - cbv zeta.
    match goal with
    | |- context [updateScoutStats name ?s ?c ?t ?cu ?lo ?ex now scouts] =>
        destruct (@updateScoutStats_known name s c t cu lo ex now scouts scout
                    Hget) as [Hnew _]
    end.
    eexists. split; [exact Hnew|]. unfold scoutConsistent.
    cbn [Scout.totalPredictions Scout.correctPredictions Scout.currentStreak
         Scout.longestStreak orElse].
    repeat split; try lia; discriminate.
Qed.

Lemma updateScoutWithPredictionResult_consistent_witness :
  let (points, scouts') :=
    updateScoutWithPredictionResult "Bob" true 10 ScoutExample.lastVerified
      "12" 3000 ScoutExample.scouts in
  exists scout',
    Table.get Scout.name "Bob" scouts' = Some scout'
    /\ scoutConsistent scout'
    /\ (Scout.longestStreak ScoutExample.bob <= Scout.longestStreak scout')%Z
    /\ (true = true -> (10 <= points)%Z)
    /\ (true = true -> (1 <= Scout.currentStreak scout')%Z).
Proof.
  apply (@updateScoutWithPredictionResult_consistent "Bob" true 10
           ScoutExample.lastVerified "12" 3000 ScoutExample.scouts
           ScoutExample.bob).
  - reflexivity.
  - unfold scoutConsistent. cbn. lia.
Defined.

(** X15: [getOrCreateScout] returns the scout that it leaves stored under
    the scout's name and touches no other row.  A scout found under [name]
    keeps every field but [lastUpdated], which becomes the time of the
    call; when none is found the scout is a new one with all counters 0,
    created at the first reading of the clock and updated at the second,
    and stored under the name that [trim] returns, whatever was stored
    under that name before. *)
Theorem getOrCreateScout_result (trim : string -> string) (name : string)
    (now1 now2 : Z) (scouts : Table.t Scout.t) :
  let (scout, scouts') := getOrCreateScout trim name now1 now2 scouts in
  Table.get Scout.name (Scout.name scout) scouts' = Some scout
  /\ (forall k, k <> Scout.name scout ->
                Table.get Scout.name k scouts' = Table.get Scout.name k scouts)
  /\ match Table.get Scout.name name scouts with
     | Some existing =>
         Scout.name scout = name
         /\ scout
            = Scout.mk (Scout.name existing) (Scout.stakes existing)
                (Scout.stakesFromPredictions existing)
                (Scout.totalPredictions existing)
                (Scout.correctPredictions existing)
                (Scout.currentStreak existing) (Scout.longestStreak existing)
                (Scout.createdAt existing) now1
     | None =>
         scout = Scout.mk (trim name) 0 0 0 0 0 0 now1 now2
         /\ scoutConsistent scout
     end.
Proof.
  unfold getOrCreateScout.
  destruct (Table.get Scout.name name scouts) as [existing|] eqn:Hget.
  - split; [|split].
    + apply (TableFacts.get_put_same Scout.name scouts).
    + intros k Hk. now apply TableFacts.get_put_other.
    + split; [|reflexivity]. cbn [Scout.name].
      exact (TableFacts.get_key _ _ _ Hget).
  - split; [|split].
    + apply (TableFacts.get_put_same Scout.name scouts).
    + intros k Hk. now apply TableFacts.get_put_other.
    + split; [reflexivity|]. unfold scoutConsistent. cbn. lia.
Qed.

(** X16: [updateScoutPoints] changes nothing for an unknown name; for a
    known scout it adds the points to [stakes] and to nothing else; and two
    updates in a row leave the table that one update with the sum of the
    points leaves. *)
Theorem updateScoutPoints_adds (name : string) (a b now1 now2 : Z)
    (scouts : Table.t Scout.t) :
  (Table.get Scout.name name scouts = None ->
   updateScoutPoints name a now1 scouts = scouts)
  /\ (forall scout,
        Table.get Scout.name name scouts = Some scout ->
        Table.get Scout.name name (updateScoutPoints name a now1 scouts)
        = Some (Scout.mk name (Scout.stakes scout + a)
                  (Scout.stakesFromPredictions scout)
                  (Scout.totalPredictions scout)
                  (Scout.correctPredictions scout) (Scout.currentStreak scout)
                  (Scout.longestStreak scout) (Scout.createdAt scout) now1))
  /\ (forall k, k <> name ->
        Table.get Scout.name k (updateScoutPoints name a now1 scouts)
        = Table.get Scout.name k scouts)
  /\ updateScoutPoints name b now2 (updateScoutPoints name a now1 scouts)
     = updateScoutPoints name (a + b) now2 scouts.
Proof.
  destruct (Table.get Scout.name name scouts) as [scout|] eqn:Hget.
  - pose proof (TableFacts.get_key _ _ _ Hget) as Hname. subst name.
    assert (forall c now,
              updateScoutPoints (Scout.name scout) c now scouts
              = Table.put Scout.name
                  (Scout.mk (Scout.name scout) (Scout.stakes scout + c)
                     (Scout.stakesFromPredictions scout)
                     (Scout.totalPredictions scout)
                     (Scout.correctPredictions scout)
                     (Scout.currentStreak scout) (Scout.longestStreak scout)
                     (Scout.createdAt scout) now)
                  scouts) as Hupd
      by (intros c now; unfold updateScoutPoints; now rewrite Hget).
    assert (Table.get Scout.name (Scout.name scout)
              (updateScoutPoints (Scout.name scout) a now1 scouts)
            = Some (Scout.mk (Scout.name scout) (Scout.stakes scout + a)
                      (Scout.stakesFromPredictions scout)
                      (Scout.totalPredictions scout)
                      (Scout.correctPredictions scout)
                      (Scout.currentStreak scout) (Scout.longestStreak scout)
                      (Scout.createdAt scout) now1)) as Hnew.
    { rewrite Hupd.
      apply (TableFacts.get_put_same Scout.name scouts
               (Scout.mk (Scout.name scout) (Scout.stakes scout + a)
                  (Scout.stakesFromPredictions scout)
                  (Scout.totalPredictions scout)
                  (Scout.correctPredictions scout)
                  (Scout.currentStreak scout) (Scout.longestStreak scout)
                  (Scout.createdAt scout) now1)). }
    split; [discriminate|]. split; [|split].
    + intros s [= <-]. exact Hnew.
    + intros k Hk. rewrite Hupd. now apply TableFacts.get_put_other.
    + unfold updateScoutPoints at 1. rewrite Hnew.
      cbn [Scout.name Scout.stakes Scout.stakesFromPredictions
           Scout.totalPredictions Scout.correctPredictions Scout.createdAt
           Scout.currentStreak Scout.longestStreak].
      rewrite !Hupd. rewrite put_put by reflexivity. now rewrite Z.add_assoc.
  - assert (forall c now, updateScoutPoints name c now scouts = scouts) as Hupd
      by (intros c now; unfold updateScoutPoints; now rewrite Hget).
    split; [intros _; apply Hupd|]. split; [discriminate|].
    split; [intros k _; now rewrite Hupd|]. now rewrite !Hupd.
Qed.

(** * Further properties of the composer *)

Section PerTeamSums.

Variable Number_str : string -> num.

Lemma scaledStep_fold_sums l : forall cur,
  option_map autoSum (fold_left scaledStep l cur) ?? zero
  = fold_left Num.add
      (map (fun e => Fin (fuelAuto (scaledFuel (gameDataOf e))))
         (filter (fun e => hasFuelData (gameDataOf e)) l))
      (option_map autoSum cur ?? zero)
  /\ option_map teleopSum (fold_left scaledStep l cur) ?? zero
     = fold_left Num.add
         (map (fun e => Fin (fuelTeleop (scaledFuel (gameDataOf e))))
            (filter (fun e => hasFuelData (gameDataOf e)) l))
         (option_map teleopSum cur ?? zero).
Proof.
  induction l as [|e l IH]; intros cur; cbn [fold_left filter map].
  - split; reflexivity.
  - destruct (IH (scaledStep cur e)) as [IHa IHt]. rewrite IHa, IHt.
    unfold scaledStep.
    destruct (hasFuelData (gameDataOf e)); destruct cur as [cu|];
      cbn [option_map orElse autoSum teleopSum map fold_left];
      split; reflexivity.
Qed.

Lemma passingStep_fold_sum l : forall cur,
  option_map passSum (fold_left (passingStep Number_str) l cur) ?? zero
  = fold_left Num.add
      (map (fun e => value (extractPassingValue Number_str (gameDataOf e)))
         (filter
            (fun e => hasData (extractPassingValue Number_str (gameDataOf e)))
            l))
      (option_map passSum cur ?? zero).
Proof.
  induction l as [|e l IH]; intros cur; cbn [fold_left filter map].
  - reflexivity.
  - rewrite IH. unfold passingStep.
    destruct (hasData (extractPassingValue Number_str (gameDataOf e)));
      destruct cur as [cu|];
      cbn [option_map orElse passSum map fold_left]; reflexivity.
Qed.

Lemma sosStep_fold l : forall cur,
  let values :=
    filterSome (map (fun e => extractSosValue Number_str (gameDataOf e)) l) in
  let r := fold_left (sosStep Number_str) l cur in
  (values = [] -> r = cur)
  /\ (values <> [] ->
      exists a, r = Some a
        /\ sum a = fold_left Num.add (map Fin values)
                     (option_map sum cur ?? zero)
        /\ count a = (option_map count cur ?? 0 + List.length values)%nat).
Proof.
  induction l as [|e l IH]; intros cur; cbv zeta; cbn [fold_left map].
  - split; [reflexivity | intros H; now elim H].
  - specialize (IH (sosStep Number_str cur e)). cbv zeta in IH.
    destruct IH as [IH0 IH1]. unfold filterSome in *. cbn [flat_map].
    unfold sosStep in *.
    destruct (extractSosValue Number_str (gameDataOf e)) as [v|].
    + split; [discriminate|]. intros _. cbn [app].
      destruct (flat_map _ (map _ l)) as [|w ws] eqn:E.
      * rewrite IH0 by reflexivity. eexists. split; [reflexivity|].
        cbn [sum count map fold_left List.length].
        destruct cur; cbn [option_map orElse]; split; (reflexivity || lia).
      * destruct IH1 as (a & -> & Hs & Hc); [discriminate|].
        exists a. split; [reflexivity|]. rewrite Hs, Hc.
        cbn [option_map orElse sum count map fold_left List.length].
        destruct cur; cbn [option_map orElse]; split; (reflexivity || lia).
    + cbn [app]. split; assumption.
Qed.

End PerTeamSums.

Lemma mean_map_nonempty {A : Type} (f : A -> num) (l : list A) :
  mean (map f l)
  = if Nat.ltb 0 (List.length l)
    then sumList (map f l) / ofNat (List.length l)
    else zero.
Proof.
  destruct l; [reflexivity|]. unfold mean.
  cbn [map List.length Nat.ltb Nat.leb]. now rewrite length_map.
Qed.

(** X17: the scaled production averages of a row are arithmetic means
    over the entries of the team that hold usable production data (entries
    without such data are not counted), 0 when there is none, and
    [scaledTotalAvg] is their sum. *)
Theorem scaled_averages_are_means
    (Number_str : string -> num) (cachedMatches : list TBAMatch.t)
    (entries : list Entry.t) (fuelOprIncludePlayoffs : bool)
    (oprRows : list Opr.t) (r : Row) :
  In r (fuelOprRows Number_str cachedMatches entries fuelOprIncludePlayoffs
          oprRows) ->
  let counted := fuelEntriesOf (teamNumber r) entries in
  scaledAutoAvg r
  = mean (map (fun e => Fin (fuelAuto (scaledFuel (gameDataOf e)))) counted)
  /\ scaledTeleopAvg r
     = mean (map (fun e => Fin (fuelTeleop (scaledFuel (gameDataOf e))))
               counted)
  /\ scaledTotalAvg r = scaledAutoAvg r + scaledTeleopAvg r.
Proof.
  intros H. apply rows_In in H as (t & _ & ->). cbv zeta.
  cbn [mkRow teamNumber scaledAutoAvg scaledTeleopAvg scaledTotalAvg].
  rewrite !mean_map_nonempty, scaled_get.
  destruct (scaledStep_fold_counts (entriesOf t entries) None) as (_ & -> & _).
  destruct (scaledStep_fold_sums (entriesOf t entries) None) as [-> ->].
  cbn [option_map orElse Nat.add]. unfold fuelEntriesOf, sumList.
  split; [reflexivity|]. split; reflexivity.
Qed.

Lemma scaled_averages_are_means_witness :
  In (Example.rowOf 1) Example.rows4
  /\ let counted := fuelEntriesOf (teamNumber (Example.rowOf 1)) Example.entries2 in
     scaledAutoAvg (Example.rowOf 1)
     = mean (map (fun e => Fin (fuelAuto (scaledFuel (gameDataOf e)))) counted)
     /\ scaledTeleopAvg (Example.rowOf 1)
        = mean (map (fun e => Fin (fuelTeleop (scaledFuel (gameDataOf e))))
                  counted)
     /\ scaledTotalAvg (Example.rowOf 1)
        = scaledAutoAvg (Example.rowOf 1) + scaledTeleopAvg (Example.rowOf 1).
Proof.
  split; [exact example_team1|].
  exact (@scaled_averages_are_means Example.Number_str Example.matches2
           Example.entries2 true Example.oprs4 (Example.rowOf 1) example_team1).
Defined.

(** X18: the [assistImpact] of a row is the arithmetic mean of the passing
    values of the entries of the team that hold passing data, 0 when there
    is none. *)
Theorem assist_impact_is_mean
    (Number_str : string -> num) (cachedMatches : list TBAMatch.t)
    (entries : list Entry.t) (fuelOprIncludePlayoffs : bool)
    (oprRows : list Opr.t) (r : Row) :
  In r (fuelOprRows Number_str cachedMatches entries fuelOprIncludePlayoffs
          oprRows) ->
  assistImpact r = mean (passingValuesOf Number_str (teamNumber r) entries).
Proof.
  intros H. apply rows_In in H as (t & _ & ->).
  cbn [mkRow teamNumber assistImpact]. unfold passingValuesOf.
  rewrite mean_map_nonempty, passing_get.
  destruct (passingStep_fold_counts Number_str (entriesOf t entries) None)
    as (Hc & _).
  cbn [option_map orElse Nat.add] in Hc.
  rewrite passingStep_fold_sum. cbn [option_map orElse]. fold (sumList
    (map (fun e => value (extractPassingValue Number_str (gameDataOf e)))
       (filter
          (fun e => hasData (extractPassingValue Number_str (gameDataOf e)))
          (entriesOf t entries)))).
  rewrite Hc.
  destruct (Nat.ltb_spec 0
              (List.length
                 (filter
                    (fun e =>
                       hasData (extractPassingValue Number_str (gameDataOf e)))
                    (entriesOf t entries)))) as [Hpos|Hzero]; [|reflexivity].
  f_equal. f_equal.
  destruct (fold_left (passingStep Number_str) (entriesOf t entries) None)
    as [a|]; cbn [option_map orElse] in Hc |- *; [exact Hc | lia].
Qed.

Lemma assist_impact_is_mean_witness :
  In (Example.rowOf 1) Example.rows4
  /\ assistImpact (Example.rowOf 1)
     = mean (passingValuesOf Example.Number_str (teamNumber (Example.rowOf 1))
               Example.entries2).
Proof.
  split; [exact example_team1|].
  exact (@assist_impact_is_mean Example.Number_str Example.matches2
           Example.entries2 true Example.oprs4 (Example.rowOf 1) example_team1).
Defined.

(** X19: the [sosPenalty] of a row is the mean of the schedule-strength
    values found in the entries of the team, divided by 6 and clamped to
    [0, 1]; it is 0 when no entry of the team holds such a value. *)
Theorem sos_penalty_is_clamped_mean
    (Number_str : string -> num) (cachedMatches : list TBAMatch.t)
    (entries : list Entry.t) (fuelOprIncludePlayoffs : bool)
    (oprRows : list Opr.t) (r : Row) :
  In r (fuelOprRows Number_str cachedMatches entries fuelOprIncludePlayoffs
          oprRows) ->
  let values := sosValuesOf Number_str (teamNumber r) entries in
  sosPenalty r
  = match values with
    | [] => zero
    | _ => clamp01 (mean values / ofZ 6)
    end.
Proof.
  intros H. apply rows_In in H as (t & _ & ->). cbv zeta.
  cbn [mkRow teamNumber sosPenalty]. unfold sosPenaltyOf, sosValuesOf.
  rewrite sos_get.
  destruct (sosStep_fold Number_str (entriesOf t entries) None) as [H0 H1].
  cbv zeta in H0, H1.
  destruct (filterSome
              (map (fun e => extractSosValue Number_str (gameDataOf e))
                 (entriesOf t entries))) as [|v vs] eqn:E.
  - rewrite H0 by reflexivity. reflexivity.
  - destruct H1 as (a & -> & Hs & Hc); [discriminate|].
    rewrite Hs, Hc. cbn [option_map orElse Nat.add List.length Nat.ltb Nat.leb].
    unfold mean, clamp01, sumList. cbn [map]. cbn [List.length]. rewrite !length_map.
    reflexivity.
Qed.

Lemma sos_penalty_is_clamped_mean_witness :
  In (Example.rowOf 1) Example.rows4
  /\ let values :=
       sosValuesOf Example.Number_str (teamNumber (Example.rowOf 1))
         Example.entries2 in
     sosPenalty (Example.rowOf 1)
     = match values with
       | [] => zero
       | _ => clamp01 (mean values / ofZ 6)
       end.
Proof.
  split; [exact example_team1|].
  exact (@sos_penalty_is_clamped_mean Example.Number_str Example.matches2
           Example.entries2 true Example.oprs4 (Example.rowOf 1) example_team1).
Defined.

Lemma entriesOf_nonempty (t : Z) (entries : list Entry.t) :
  entriesOf t entries <> [] <-> In t (map Entry.teamNumber entries).
Proof.
  unfold entriesOf. induction entries as [|e es IH]; cbn [filter map In].
  - intuition.
  - destruct (Z.eqb_spec (Entry.teamNumber e) t) as [E|E].
    + split; [now left | discriminate].
    + rewrite IH. intuition.
Qed.

Lemma oprByTeam_fold_get (t : Z) (l : list Opr.t) : forall m0,
  OMap.get t
    (fold_left (fun m team => OMap.set (Opr.teamNumber team) team m) l m0)
  = match find (fun o => Z.eqb (Opr.teamNumber o) t) (rev l) with
    | Some o => Some o
    | None => OMap.get t m0
    end.
Proof.
  induction l as [|o l IH]; intros m0; cbn [fold_left rev]; [reflexivity|].
  rewrite IH, find_app_first.
  destruct (find _ (rev l)) as [o'|]; [reflexivity|]. cbn [find].
  destruct (Z.eqb_spec (Opr.teamNumber o) t) as [<-|E].
  - apply OMapFacts.get_set_same.
  - now apply OMapFacts.get_set_other.
Qed.

(** With several rows for one team in the OPR result, the last one is
    kept. *)
Lemma oprByTeamOf_get (t : Z) (oprRows : list Opr.t) :
  OMap.get t (oprByTeamOf oprRows)
  = find (fun o => Z.eqb (Opr.teamNumber o) t) (rev oprRows).
Proof.
  unfold oprByTeamOf. rewrite oprByTeam_fold_get.
  now destruct (find _ (rev oprRows)).
Qed.

Lemma oprByTeamOf_In (t : Z) (oprRows : list Opr.t) :
  OMap.get t (oprByTeamOf oprRows) <> None
  <-> In t (map Opr.teamNumber oprRows).
Proof.
  rewrite oprByTeamOf_get, in_map_iff. split.
  - destruct (find _ (rev oprRows)) as [o|] eqn:E; [intros _ | congruence].
    apply find_some in E as [Hin E]. apply Z.eqb_eq in E.
    exists o. split; [exact E | now apply in_rev].
  - intros (o & E & Hin) Hnone.
    apply in_rev in Hin. pose proof (find_none _ _ Hnone o Hin) as Hf.
    cbv beta in Hf. apply Z.eqb_neq in Hf. contradiction.
Qed.

(** X20: the teams that get a row are exactly the teams of the OPR
    result, the teams with a scouted entry and the teams on an alliance of
    a match of the filtered match set. *)
Theorem rows_exactly_known_teams
    (Number_str : string -> num) (cachedMatches : list TBAMatch.t)
    (entries : list Entry.t) (fuelOprIncludePlayoffs : bool)
    (oprRows : list Opr.t) (t : Z) :
  (exists r,
      In r (fuelOprRows Number_str cachedMatches entries fuelOprIncludePlayoffs
              oprRows)
      /\ teamNumber r = t)
  <-> In t (map Opr.teamNumber oprRows)
      \/ In t (map Entry.teamNumber entries)
      \/ exists m,
           In m (eligibleMatchesOf fuelOprIncludePlayoffs cachedMatches)
           /\ inMatch t m.
Proof.
  rewrite <- entriesOf_nonempty.
  rewrite <- (defenseSamples_nonempty Number_str cachedMatches
                fuelOprIncludePlayoffs oprRows t).
  rewrite <- oprByTeamOf_In.
  rewrite <- (teams_In Number_str cachedMatches entries fuelOprIncludePlayoffs
                oprRows t).
  split.
  - intros (r & Hr & <-). apply rows_In in Hr as (t' & Ht' & ->). exact Ht'.
  - intros Ht. eexists. split.
    + apply (proj2 (rows_In Number_str cachedMatches entries
                      fuelOprIncludePlayoffs oprRows _)).
      exists t. split; [exact Ht | reflexivity].
    + reflexivity.
Qed.

(** *** The penalties *)

Lemma matchPenaltyOf_value (n : nat) :
  matchPenaltyOf n = ofQ (Z.of_nat (6 - n) # 6).
Proof.
  do 6 (destruct n as [|n]; [apply NumFacts.eqb_eq; reflexivity|]).
  replace (6 - S (S (S (S (S (S n))))))%nat with 0%nat by lia.
  unfold matchPenaltyOf, ofNat, ofZ. cbn [Num.sub Num.neg Num.add].
  rewrite NumFacts.div_Fin_pos by (apply Qclt_alt; reflexivity).
  unfold Num.max, zero.
  assert (Num.gt
            (Fin ((Q2Qc (inject_Z 6)
                   + - Q2Qc (inject_Z (Z.of_nat (S (S (S (S (S (S n)))))))))
                  / Q2Qc (inject_Z 6))) (Fin 0) = false) as ->.
  { apply NumFacts.gt_Fin_false.
    unfold Qcdiv, Qcinv, Qcle, Qcmult, Qcplus, Qcopp, Q2Qc. cbn [this].
    rewrite !Qred_correct.
    assert (inject_Z 6 <= inject_Z (Z.of_nat (S (S (S (S (S (S n))))))))%Q as H
      by (rewrite <- Zle_Qle; lia).
    revert H. generalize (inject_Z (Z.of_nat (S (S (S (S (S (S n)))))))).
    intros q H. change (inject_Z 6) with 6%Q in *.
    setoid_replace (/ 6)%Q with (1 # 6)%Q by reflexivity. lra. }
  apply NumFacts.eqb_eq. reflexivity.
Qed.

Lemma num_eqb_neq (a b : num) : Num.eqb a b = false -> a <> b.
Proof.
  intros H ->. destruct b; try discriminate. cbn in H.
  rewrite (proj2 (Qeq_bool_iff q q) (Qeq_refl q)) in H. discriminate.
Qed.

(** X21: [matchPenalty] is a sixth for every match short of six: it is
    [(6 - n) / 6] with the subtraction cut off at 0, so it is 1 for a team
    without a match, falls by a sixth with every match, and is 0 from six
    matches on. *)
Theorem matchPenaltyOf_closed_form (n : nat) :
  matchPenaltyOf n = ofQ (Z.of_nat (6 - n) # 6)
  /\ (matchPenaltyOf n = zero <-> (6 <= n)%nat)
  /\ (matchPenaltyOf n = one <-> n = 0%nat).
Proof.
  split; [apply matchPenaltyOf_value|].
  rewrite matchPenaltyOf_value.
  destruct (Nat.le_gt_cases 6 n) as [Hge|Hlt].
  - replace (6 - n)%nat with 0%nat by lia. split.
    + split; [intros _; exact Hge | intros _; apply NumFacts.eqb_eq; reflexivity].
    + split; [discriminate | intros ->; lia].
  - do 6 (destruct n as [|n];
          [split; (split; intros H; try lia; try reflexivity;
                   try (apply NumFacts.eqb_eq; reflexivity);
                   exfalso; revert H; apply num_eqb_neq; reflexivity)|]).
    lia.
Qed.

(** *** The OPR fields of a row *)

(** X23: the three OPR fields of a row are those of the row of the team
    in the OPR result, of the last such row when the result lists the team
    more than once, and 0 when it does not list the team. *)
Theorem opr_fields_last_wins
    (Number_str : string -> num) (cachedMatches : list TBAMatch.t)
    (entries : list Entry.t) (fuelOprIncludePlayoffs : bool)
    (oprRows : list Opr.t) (r : Row) :
  In r (fuelOprRows Number_str cachedMatches entries fuelOprIncludePlayoffs
          oprRows) ->
  match
    find (fun o => Z.eqb (Opr.teamNumber o) (teamNumber r)) (rev oprRows)
  with
  | Some o =>
      autoFuelOPR r = Fin (Opr.autoFuelOPR o)
      /\ teleopFuelOPR r = Fin (Opr.teleopFuelOPR o)
      /\ totalFuelOPR r = Fin (Opr.totalFuelOPR o)
  | None =>
      ~ In (teamNumber r) (map Opr.teamNumber oprRows)
      /\ autoFuelOPR r = zero /\ teleopFuelOPR r = zero
      /\ totalFuelOPR r = zero
  end.
Proof.
  intros H. apply rows_In in H as (t & _ & ->).
  cbn [mkRow teamNumber autoFuelOPR teleopFuelOPR totalFuelOPR].
  unfold oprByTeam. pose proof (oprByTeamOf_In t oprRows) as Hin.
  rewrite (oprByTeamOf_get t oprRows) in *.
  destruct (find (fun o => Z.eqb (Opr.teamNumber o) t) (rev oprRows)) as [o|];
    cbn [option_map orElse].
  - repeat split.
  - split; [intros H; now apply Hin in H|]. repeat split.
Qed.

Lemma opr_fields_last_wins_witness :
  In (Example.rowOf 1) Example.rows4
  /\ match
       find (fun o => Z.eqb (Opr.teamNumber o) (teamNumber (Example.rowOf 1)))
         (rev Example.oprs4)
     with
     | Some o =>
         autoFuelOPR (Example.rowOf 1) = Fin (Opr.autoFuelOPR o)
         /\ teleopFuelOPR (Example.rowOf 1) = Fin (Opr.teleopFuelOPR o)
         /\ totalFuelOPR (Example.rowOf 1) = Fin (Opr.totalFuelOPR o)
     | None =>
         ~ In (teamNumber (Example.rowOf 1)) (map Opr.teamNumber Example.oprs4)
         /\ autoFuelOPR (Example.rowOf 1) = zero
         /\ teleopFuelOPR (Example.rowOf 1) = zero
         /\ totalFuelOPR (Example.rowOf 1) = zero
     end.
Proof.
  split; [exact example_team1|].
  exact (@opr_fields_last_wins Example.Number_str Example.matches2
           Example.entries2 true Example.oprs4 (Example.rowOf 1) example_team1).
Defined.

(** *** Reading the entries *)

Section Reading.

Variable Number_str : string -> num.

Lemma passActionStep_cases (st : num * bool) (action : jsval) :
  passActionStep Number_str st action
  = if isPassAction action
    then (fst st + passAmount Number_str action, true)
    else st.
Proof.
  unfold passActionStep, isPassAction, passAmount.
  destruct (JS.truthy action); destruct (JS.isObjectType action);
    cbn [negb orb andb]; try reflexivity.
  destruct (JS.isString (JS.get action "type") "pass");
    destruct (JS.isString (JS.get action "type") "pass_alliance");
    reflexivity.
Qed.

Lemma passActionStep_fold (items : list jsval) : forall s b,
  fold_left (passActionStep Number_str) items (s, b)
  = (fold_left Num.add
       (map (passAmount Number_str) (filter isPassAction items)) s,
     b || existsb isPassAction items).
Proof.
  induction items as [|x items IH]; intros s b;
    cbn [fold_left filter map existsb].
  - now rewrite orb_false_r.
  - rewrite passActionStep_cases. destruct (isPassAction x); cbn [fst orb].
    + rewrite IH. cbn [map fold_left]. now rewrite orb_true_r.
    + apply IH.
Qed.

(** X24: [sumActionPassAmounts] gives nothing for a value that is not an
    array and for an array without pass action; otherwise it gives the sum
    of the amounts of the pass actions of the array, an action without
    finite amount counting 1, and skips every other element. *)
Theorem sumActionPassAmounts_sum (actions : jsval) :
  sumActionPassAmounts Number_str actions
  = match actions with
    | JArr items =>
        match filter isPassAction items with
        | [] => None
        | passes => Some (sumList (map (passAmount Number_str) passes))
        end
    | _ => None
    end.
Proof.
  destruct actions as [| | | | |items|]; try reflexivity.
  unfold sumActionPassAmounts. rewrite passActionStep_fold. cbn [orb].
  rewrite <- existsb_filter_length.
  destruct (filter isPassAction items); reflexivity.
Qed.

End Reading.

(** X25: an entry without usable production data contributes no fuel:
    when none of the eight probes of [hasFuelData] finds a number, the raw
    and the scaled counts of the entry are 0 in both phases. *)
Theorem hasFuelData_false_zero (gameData : jsval) :
  hasFuelData gameData = false ->
  parseFuelCounts gameData = mkFuel 0%Qc 0%Qc
  /\ scaledFuel gameData = mkFuel 0%Qc 0%Qc.
Proof.
  unfold hasFuelData, scaledFuel, parseFuelCounts. cbv zeta.
  assert (forall v, JS.isNumber v = false -> JS.numberOrUndefined v = None)
    as Hnum by (intros v; destruct v; cbn; congruence).
  intros H.
  repeat match goal with
         | E : _ || _ = false |- _ => apply orb_false_iff in E as [? ?]
         end.
  repeat match goal with
         | E : JS.isNumber _ = false |- _ =>
             try rewrite E; try rewrite (Hnum _ E); clear E
         end.
  cbn [orElse orElseOpt fuelAuto fuelTeleop]. split; reflexivity.
Qed.

Lemma hasFuelData_false_zero_witness :
  hasFuelData (gameDataOf Example.entryTeam2) = false
  /\ parseFuelCounts (gameDataOf Example.entryTeam2) = mkFuel 0%Qc 0%Qc
  /\ scaledFuel (gameDataOf Example.entryTeam2) = mkFuel 0%Qc 0%Qc.
Proof.
  split; [reflexivity|].
  apply (@hasFuelData_false_zero (gameDataOf Example.entryTeam2)).
  reflexivity.
Defined.

(** * The CSV export *)

Lemma readQuoted_doubleQuotes (text rest : string) :
  startsWithQuote rest = false ->
  readQuoted (String.append (doubleQuotes text) (String dquote rest))
  = Some (text, rest).
Proof.
  intros Hrest. induction text as [|ch text IH]; cbn [doubleQuotes String.append].
  - cbn [readQuoted]. rewrite Ascii.eqb_refl.
    destruct rest as [|ch' rest']; [reflexivity|].
    cbn [startsWithQuote] in Hrest. now rewrite Hrest.
  - destruct (Ascii.eqb ch dquote) eqn:E; cbn [String.append readQuoted].
    + rewrite !Ascii.eqb_refl. fold readQuoted. rewrite IH. cbn.
      apply Ascii.eqb_eq in E. now subst.
    + rewrite E. fold readQuoted. rewrite IH. reflexivity.
Qed.

Lemma append_assoc_one (a : string) (ch : ascii) (rest : string) :
  String.append (String.append a (String ch EmptyString)) rest
  = String.append a (String ch rest).
Proof. induction a as [|x a IH]; cbn; [reflexivity | now rewrite IH]. Qed.

(** X26: the quoting of [toCsvValue] loses nothing: a reader of quoted
    CSV fields gets the original text back from the quoted value, whatever
    follows it in the line, provided that what follows does not start with a
    quotation mark (in the export a comma, a line break or the end
    follows). *)
Theorem toCsvValue_round_trip (text rest : string) :
  startsWithQuote rest = false ->
  readCsvField (String.append (toCsvValue text) rest) = Some (text, rest).
Proof.
  intros Hrest. unfold toCsvValue. cbv zeta. cbn [String.append readCsvField].
  rewrite Ascii.eqb_refl, append_assoc_one.
  now apply readQuoted_doubleQuotes.
Qed.

Lemma toCsvValue_round_trip_witness :
  startsWithQuote ",7" = false
  /\ readCsvField
       (String.append (toCsvValue (String dquote "Team, A")) ",7")
     = Some (String dquote "Team, A", ",7"%string).
Proof.
  split; [reflexivity|].
  apply (@toCsvValue_round_trip (String dquote "Team, A") ",7").
  reflexivity.
Defined.

(** * Corrections and pit scouting *)

Section TableDelete.

Variable V : Type.
Variable key : V -> string.

Lemma delete_In k tb v :
  In v (Table.delete key k tb) <-> In v tb /\ key v <> k.
Proof.
  unfold Table.delete. rewrite filter_In.
  destruct (String.eqb_spec (key v) k); cbn [negb]; intuition congruence.
Qed.

Lemma bulkDelete_In ks : forall tb v,
  In v (Table.bulkDelete key ks tb) <-> In v tb /\ ~ In (key v) ks.
Proof.
  unfold Table.bulkDelete. induction ks as [|k ks IH]; intros tb v;
    cbn [fold_left In].
  - tauto.
  - rewrite IH, delete_In. intuition congruence.
Qed.

Lemma keys_filter_NoDup (f : V -> bool) tb :
  NoDup (Table.keys key tb) -> NoDup (Table.keys key (filter f tb)).
Proof.
  unfold Table.keys. induction tb as [|w tb IH]; cbn [filter map]; intros H.
  - constructor.
  - inversion H as [|? ? Hw Htb]; subst.
    destruct (f w); cbn [map]; [|now apply IH].
    constructor; [|now apply IH].
    intros Hin. apply Hw. apply in_map_iff in Hin as (x & Ex & Hx).
    apply filter_In in Hx as [Hx _]. apply in_map_iff. eauto.
Qed.

Lemma keys_bulkDelete_NoDup ks : forall tb,
  NoDup (Table.keys key tb) ->
  NoDup (Table.keys key (Table.bulkDelete key ks tb)).
Proof.
  unfold Table.bulkDelete. induction ks as [|k ks IH]; intros tb H;
    cbn [fold_left]; [exact H|].
  apply IH. unfold Table.delete. now apply keys_filter_NoDup.
Qed.

(** In a table the key determines the row. *)
Lemma keys_NoDup_inj tb v w :
  NoDup (Table.keys key tb) -> In v tb -> In w tb -> key v = key w -> v = w.
Proof.
  unfold Table.keys. induction tb as [|u tb IH]; cbn [map In]; intros H Hv Hw E.
  - contradiction.
  - inversion H as [|? ? Hu Htb]; subst.
    destruct Hv as [<-|Hv], Hw as [<-|Hw]; auto.
    + exfalso. apply Hu. rewrite E. now apply in_map.
    + exfalso. apply Hu. rewrite <- E. now apply in_map.
Qed.

Lemma put_In tb v w :
  NoDup (Table.keys key tb) ->
  In w (Table.put key v tb) <-> w = v \/ (In w tb /\ key w <> key v).
Proof.
  unfold Table.keys. induction tb as [|u tb IH]; cbn [Table.put map In];
    intros H.
  - intuition.
  - inversion H as [|? ? Hu Htb]; subst.
    destruct (String.eqb_spec (key u) (key v)) as [E|E]; cbn [In].
    + split.
      * intros [<-|Hw]; [now left|]. right. split; [now right|].
        intros E'. apply Hu. rewrite E, <- E'. now apply in_map.
      * intros [->|[[<-|Hw] Hne]]; [now left | congruence | now right].
    + rewrite (IH Htb). split.
      * intros [<-|[->|[Hw Hne]]]; [right; split; [now left | exact E]
                                   | now left | right; split; [now right | exact Hne]].
      * intros [->|[[<-|Hw] Hne]]; [right; now left | now left
                                    | right; right; now split].
Qed.

End TableDelete.

Lemma sameSlot_refl_fields (newData e : DbEntry.t) :
  DbEntry.matchNumber e = DbEntry.matchNumber newData ->
  DbEntry.teamNumber e = DbEntry.teamNumber newData ->
  DbEntry.allianceColor e = DbEntry.allianceColor newData ->
  DbEntry.eventKey e = DbEntry.eventKey newData ->
  sameSlot newData e = true.
Proof.
  intros H1 H2 H3 H4. unfold sameSlot.
  rewrite H1, H2, H3, H4, !Z.eqb_refl, String.eqb_refl.
  now destruct (DbEntry.allianceColor newData).
Qed.

(** X27: a correction leaves exactly one entry for its match, team,
    alliance and event.  For a table with the stored id,
    [updateScoutingEntryWithCorrection] stores the new data under that id,
    flagged as corrected and with the correction counter of the replaced
    entry raised by one; every other row that agrees with the new data on
    match, team, alliance and event is deleted, and every row that does not
    stays as it is. *)
Theorem correction_leaves_one_entry (id : string) (newData : DbEntry.t)
    (scoutingData : Table.t DbEntry.t) (existing : DbEntry.t) :
  NoDup (Table.keys DbEntry.id scoutingData) ->
  Table.get DbEntry.id id scoutingData = Some existing ->
  exists stored corrected,
    updateScoutingEntryWithCorrection id newData scoutingData = Some stored
    /\ Table.get DbEntry.id id stored = Some corrected
    /\ corrected
       = DbEntry.mk id (DbEntry.scoutName newData) (DbEntry.teamNumber newData)
           (DbEntry.matchNumber newData) (DbEntry.eventKey newData)
           (DbEntry.allianceColor newData) (DbEntry.timestamp newData) true
           (Some (match DbEntry.correctionCount existing with
                  | Some n => n
                  | None => 0
                  end + 1)%Z)
    /\ sameSlot newData corrected = true
    /\ (forall e, In e stored -> sameSlot newData e = true -> e = corrected)
    /\ (forall e, In e stored <->
          e = corrected
          \/ (In e scoutingData /\ DbEntry.id e <> id
              /\ sameSlot newData e = false))
    /\ NoDup (Table.keys DbEntry.id stored).
Proof.
  intros Hnd Hget. unfold updateScoutingEntryWithCorrection. rewrite Hget.
  cbv zeta.
  set (duplicateIds :=
         map DbEntry.id
           (filter (fun entry => negb (String.eqb (DbEntry.id entry) id))
              (filter (sameSlot newData) scoutingData))).
  set (corrected := DbEntry.mk id _ _ _ _ _ _ true _).
  assert ((if Nat.ltb 0 (List.length duplicateIds)
           then Table.bulkDelete DbEntry.id duplicateIds scoutingData
           else scoutingData)
          = Table.bulkDelete DbEntry.id duplicateIds scoutingData) as ->.
  { destruct duplicateIds; reflexivity. }
  set (tb1 := Table.bulkDelete DbEntry.id duplicateIds scoutingData).
  assert (NoDup (Table.keys DbEntry.id tb1)) as Hnd1
    by now apply keys_bulkDelete_NoDup.
  assert (forall e, In e tb1 <->
            In e scoutingData
            /\ (DbEntry.id e = id \/ sameSlot newData e = false)) as Htb1.
  { intros e. unfold tb1. rewrite bulkDelete_In. split.
    - intros [He Hout]. split; [exact He|].
      destruct (String.eqb_spec (DbEntry.id e) id) as [E|E]; [now left|].
      right. destruct (sameSlot newData e) eqn:Es; [|reflexivity].
      exfalso. apply Hout. unfold duplicateIds. apply in_map.
      apply filter_In. split; [apply filter_In; now split|].
      now apply negb_true_iff, String.eqb_neq.
    - intros [He Hcase]. split; [exact He|]. intros Hin.
      unfold duplicateIds in Hin. apply in_map_iff in Hin as (e' & Eid & He').
      apply filter_In in He' as [He' Hne]. apply filter_In in He' as [He' Hs].
      apply negb_true_iff, String.eqb_neq in Hne.
      assert (e' = e) as ->
        by exact (@keys_NoDup_inj _ DbEntry.id scoutingData e' e Hnd He' He
                    Eid).
      destruct Hcase; congruence. }
  assert (sameSlot newData corrected = true) as Hsame
    by (apply sameSlot_refl_fields; reflexivity).
  assert (forall e, In e (Table.put DbEntry.id corrected tb1) <->
            e = corrected
            \/ (In e scoutingData /\ DbEntry.id e <> id
                /\ sameSlot newData e = false)) as Hstored.
  { intros e. rewrite (@put_In _ DbEntry.id tb1 corrected e Hnd1), Htb1.
    change (DbEntry.id corrected) with id. intuition. }
  exists (Table.put DbEntry.id corrected tb1), corrected.
  split; [reflexivity|]. split.
  { apply (TableFacts.get_put_same DbEntry.id tb1 corrected). }
  split; [reflexivity|]. split; [exact Hsame|]. split.
  { intros e He Hs. apply Hstored in He as [He|(_ & _ & Hf)]; congruence. }
  split; [exact Hstored|]. now apply TableFacts.keys_put_NoDup.
Qed.

Lemma correction_leaves_one_entry_witness :
  NoDup (Table.keys DbEntry.id CorrectionExample.stored)
  /\ Table.get DbEntry.id "e::qm7::2::red" CorrectionExample.stored
     = Some (DbExample.entry "e::qm7::2::red" 2 100000 false)
  /\ exists stored corrected,
       updateScoutingEntryWithCorrection "e::qm7::2::red"
         CorrectionExample.newData CorrectionExample.stored = Some stored
       /\ Table.get DbEntry.id "e::qm7::2::red" stored = Some corrected
       /\ corrected
          = DbEntry.mk "e::qm7::2::red"
              (DbEntry.scoutName CorrectionExample.newData)
              (DbEntry.teamNumber CorrectionExample.newData)
              (DbEntry.matchNumber CorrectionExample.newData)
              (DbEntry.eventKey CorrectionExample.newData)
              (DbEntry.allianceColor CorrectionExample.newData)
              (DbEntry.timestamp CorrectionExample.newData) true
              (Some (match
                       DbEntry.correctionCount
                         (DbExample.entry "e::qm7::2::red" 2 100000 false)
                     with
                     | Some n => n
                     | None => 0
                     end + 1)%Z)
       /\ sameSlot CorrectionExample.newData corrected = true
       /\ (forall e, In e stored ->
             sameSlot CorrectionExample.newData e = true -> e = corrected)
       /\ (forall e, In e stored <->
             e = corrected
             \/ (In e CorrectionExample.stored
                 /\ DbEntry.id e <> "e::qm7::2::red"%string
                 /\ sameSlot CorrectionExample.newData e = false))
       /\ NoDup (Table.keys DbEntry.id stored).
Proof.
  assert (NoDup (Table.keys DbEntry.id CorrectionExample.stored)) as H1.
  { cbn. repeat constructor; cbn; intuition discriminate. }
  assert (Table.get DbEntry.id "e::qm7::2::red" CorrectionExample.stored
          = Some (DbExample.entry "e::qm7::2::red" 2 100000 false)) as H2
    by reflexivity.
  exact (conj H1 (conj H2
           (@correction_leaves_one_entry "e::qm7::2::red"
              CorrectionExample.newData CorrectionExample.stored
              (DbExample.entry "e::qm7::2::red" 2 100000 false) H1 H2))).
Defined.

(** X28: [loadPitScoutingByTeamAndEvent] returns an entry of the team and
    event whose time stamp no other entry of the team and event exceeds,
    and returns nothing exactly when the table holds no entry of the team
    and event. *)
Theorem loadPitScoutingByTeamAndEvent_latest (teamNumber : Z)
    (eventKey : string) (pitScoutingData : list PitEntry.t) :
  match loadPitScoutingByTeamAndEvent teamNumber eventKey pitScoutingData with
  | Some latest =>
      In latest pitScoutingData
      /\ PitEntry.teamNumber latest = teamNumber
      /\ PitEntry.eventKey latest = eventKey
      /\ forall e, In e pitScoutingData ->
           PitEntry.teamNumber e = teamNumber ->
           PitEntry.eventKey e = eventKey ->
           (PitEntry.timestamp e <= PitEntry.timestamp latest)%Z
  | None =>
      forall e, In e pitScoutingData ->
        ~ (PitEntry.teamNumber e = teamNumber /\ PitEntry.eventKey e = eventKey)
  end.
Proof.
  unfold loadPitScoutingByTeamAndEvent. cbv zeta.
  set (keep := fun entry =>
                 (PitEntry.teamNumber entry =? teamNumber)%Z
                 && String.eqb (PitEntry.eventKey entry) eventKey).
  set (cmp := fun a b => (PitEntry.timestamp b - PitEntry.timestamp a)%Z).
  assert (forall e, In e (filter keep pitScoutingData) <->
            In e pitScoutingData
            /\ PitEntry.teamNumber e = teamNumber
            /\ PitEntry.eventKey e = eventKey) as Hkeep.
  { intros e. rewrite filter_In. unfold keep.
    rewrite andb_true_iff, Z.eqb_eq, String.eqb_eq. tauto. }
  pose proof (@sortBy_sorted _ cmp) as Hsorted.
  assert (StronglySorted (fun a b => (cmp a b <= 0)%Z)
            (sortBy cmp (filter keep pitScoutingData))) as Hstrong.
  { apply Sorted_StronglySorted.
    - intros x y z. unfold cmp. lia.
    - apply Hsorted. intros x y. unfold cmp. lia. }
  pose proof (sortBy_In cmp (filter keep pitScoutingData)) as Hin.
  destruct (sortBy cmp (filter keep pitScoutingData)) as [|latest rest];
    cbn [hd_error].
  - intros e He [Ht Hk]. apply (proj2 (Hin e)). apply Hkeep. tauto.
  - destruct (proj1 (Hkeep latest) (proj1 (Hin latest) (or_introl eq_refl)))
      as (H1 & H2 & H3).
    split; [exact H1|]. split; [exact H2|]. split; [exact H3|].
    intros e He Ht Hk.
    assert (In e (latest :: rest)) as [<-|Hrest]
      by (apply Hin, Hkeep; tauto); [lia|].
    apply StronglySorted_inv in Hstrong as [_ Hall].
    rewrite Forall_forall in Hall. specialize (Hall e Hrest).
    unfold cmp in Hall. lia.
Qed.

(** X29: [getPitScoutingStats] lists the team numbers of the entries in
    strictly ascending order, each once, and the event keys and scout names
    of the entries; unlike [getDBStats] it leaves out neither the team
    number 0 nor the empty string. *)
Theorem getPitScoutingStats_lists (entries : list PitEntry.t) :
  let stats := getPitScoutingStats entries in
  PitStats.totalEntries stats = List.length entries
  /\ Sorted Z.lt (PitStats.teams stats)
  /\ (forall t, In t (PitStats.teams stats)
                <-> In t (map PitEntry.teamNumber entries))
  /\ (forall s, In s (PitStats.events stats)
                <-> In s (map PitEntry.eventKey entries))
  /\ (forall s, In s (PitStats.scouts stats)
                <-> In s (map PitEntry.scoutName entries)).
Proof.
  cbv zeta. unfold getPitScoutingStats.
  cbn [PitStats.totalEntries PitStats.teams PitStats.events PitStats.scouts].
  split; [reflexivity|].
  split; [apply sortBy_numeric_ascending, OSetFacts.ofList_NoDup|].
  split; [intros t; now rewrite sortBy_In, OSetFacts.ofList_In|].
  split; intros s; now rewrite sortBy_In, SSetFacts.ofList_In_str.
Qed.

(** * The composer in double precision: properties *)

Section DoublePrecision.

Import PrimFloat.

Local Open Scope float_scope.











(** C4 at a failing input.  Every number of the input is finite; the sort
    keys of team 1 are [NaN], so the comparator decides by the team number
    alone wherever team 1 is involved.  The list comes out with team 1
    first, and its first two rows are in the order of the specification
    neither way round: the earlier has neither the greater nor the same
    [totalContributionIndex].  With the same entry for team 2 the
    comparator puts team 1 before team 2, team 2 before team 3 and team 3
    before team 1, so that no arrangement of the rows agrees with it. *)
Theorem C4_nan_keys_break_order :
  Dbl.isFinite DblExample.huge = true
  /\ is_nan (Dbl.totalContributionIndex (DblExample.rowOf 1 1)) = true
  /\ is_nan (Dbl.hybridScorerIndex (DblExample.rowOf 1 1)) = true
  /\ map Dbl.teamNumber (DblExample.rows 1) = [1; 3; 4; 2]%Z
  /\ nth_error (DblExample.rows 1) 0 = Some (DblExample.rowOf 1 1)
  /\ nth_error (DblExample.rows 1) 1 = Some (DblExample.rowOf 1 3)
  /\ Dbl.rowBefore (DblExample.rowOf 1 1) (DblExample.rowOf 1 3) = false
  /\ Dbl.rowBefore (DblExample.rowOf 1 3) (DblExample.rowOf 1 1) = false
  /\ (Dbl.compareRows (DblExample.rowOf 2 1) (DblExample.rowOf 2 2) <? 0) = true
  /\ (Dbl.compareRows (DblExample.rowOf 2 2) (DblExample.rowOf 2 3) <? 0) = true
  /\ (0 <? Dbl.compareRows (DblExample.rowOf 2 1) (DblExample.rowOf 2 3)) = true.
Proof.
  repeat (refine (conj _ _)); vm_compute; reflexivity.
Qed.

End DoublePrecision.
